(** * TJSON: tagged JSON strings

    A verification development for [src/index.js] (class [TJSON]).

    The class keeps two process-wide arrays, [TJSON.replacers] and
    [TJSON.revivers], and hands [TJSON.replacer] / [TJSON.reviver] to the
    runtime's [JSON.stringify] / [JSON.parse] as hook functions.

    Layout of this file:
    - outcomes of JavaScript code (values or thrown errors) and the two
      small monads the embedding is written in;
    - JavaScript values, as far as the code touches them;
    - the runtime functions the code calls ([Number.prototype.toString],
      [parseInt], [BigInt], [String.prototype.split], [JSON.stringify],
      [JSON.parse], ...);
    - the class [TJSON] itself, member by member;
    - the vocabulary of the properties (invariants, scenarios, JSON trees);
    - the properties, each with its proof.

    Nested calls ([TJSON.stringify] inside the [Map] entry, a value inside
    a value) are bounded by a [fuel] argument; the properties state how much
    is enough. *)

From Stdlib Require Import ZArith List String Ascii Bool Lia.
Import ListNotations.

Set Warnings "-register-all".

Local Open Scope string_scope.
Local Open Scope Z_scope.

(** ** Outcomes *)

(** What a JavaScript call can throw.  [OutOfFuel] and [Unmodelled] are not
    JavaScript errors: the first is the embedding's bound on nested calls,
    the second marks runtime behaviour this development leaves out (it names
    the runtime function). *)
Inductive error : Type :=
| TypeError (msg : string)
| SyntaxError (msg : string)
| Error (msg : string)
| OutOfFuel
| Unmodelled (what : string).

Inductive res (A : Type) : Type :=
| Ok (a : A)
| Throw (e : error).
Arguments Ok {A} a.
Arguments Throw {A} e.

Definition res_bind {A B} (r : res A) (k : A -> res B) : res B :=
  match r with
  | Ok a => k a
  | Throw e => Throw e
  end.

Declare Scope res_scope.
Delimit Scope res_scope with res.
Notation "x <- e ;; k" := (res_bind e (fun x => k))
  (at level 61, e at next level, right associativity) : res_scope.
Notation "' p <- e ;; k" := (res_bind e (fun x => let 'p := x in k))
  (at level 61, p pattern, e at next level, right associativity) : res_scope.

(** ** JavaScript values *)

(** Numbers.  The development covers the integer-valued Numbers and [NaN];
    fractions, infinities and the negative zero are left out.  An [Int z] is
    a faithful Number as long as [z] is a safe integer. *)
Inductive num : Type :=
| NaN
| Int (z : Z).

Definition MAX_SAFE_INTEGER : Z := 2 ^ 53 - 1.

Definition safe_integer (z : Z) : Prop :=
  - MAX_SAFE_INTEGER <= z <= MAX_SAFE_INTEGER.

(** A value is a tree: an object or array owns its members, and no object
    is reachable twice.  Objects list their own enumerable string-keyed
    properties in enumeration order, a [Map] its entries and a [Set] its
    members in insertion order.  A [RegExp] is its [source] and [flags], a
    [Date] its time value.  Strings hold code units below 256.

    JavaScript changes objects in place.  A function of this development
    that changes its argument returns the argument as the call leaves it,
    next to what the call returns. *)
Inductive value : Type :=
| VUndefined
| VNull
| VBool (b : bool)
| VNumber (n : num)
| VBigInt (z : Z)
| VString (s : string)
| VArray (elems : list value)
| VObject (props : list (string * value))
| VRegExp (source flags : string)
| VDate (time : num)
| VMap (entries : list (value * value))
| VSet (members : list value).

(** [typeof v === "object"] *)
Definition typeof_object (v : value) : bool :=
  match v with
  | VNull | VArray _ | VObject _ | VRegExp _ _ | VDate _ | VMap _ | VSet _ => true
  | _ => false
  end.

(** [typeof v === "string"], with the string. *)
Definition as_string (v : value) : option string :=
  match v with
  | VString s => Some s
  | _ => None
  end.

(** ToBoolean: what [if (v)] tests. *)
Definition truthy (v : value) : bool :=
  match v with
  | VUndefined | VNull => false
  | VBool b => b
  | VNumber NaN => false
  | VNumber (Int z) => negb (z =? 0)
  | VBigInt z => negb (z =? 0)
  | VString s => negb (s =? "")%string
  | _ => true
  end.

(** ** Characters *)

Definition code (c : ascii) : Z := Z.of_nat (nat_of_ascii c).
Definition chr (z : Z) : ascii := ascii_of_nat (Z.to_nat z).

Definition dquote : ascii := "034"%char.
Definition backslash : ascii := "092"%char.

Definition str1 (c : ascii) : string := String c EmptyString.

(** WhiteSpace and LineTerminator code units below 256, as [parseInt] and
    [BigInt] strip them. *)
Definition is_str_whitespace (c : ascii) : bool :=
  let n := code c in
  (n =? 9) || (n =? 10) || (n =? 11) || (n =? 12) || (n =? 13) || (n =? 32) || (n =? 160).

Fixpoint skip_str_whitespace (s : string) : string :=
  match s with
  | String c r => if is_str_whitespace c then skip_str_whitespace r else s
  | EmptyString => s
  end.

(** ** Radix conversion *)

(** The digit for [d] in [0..35]: ['0'..'9'], then ['a'..'z']. *)
Definition digit_char (d : Z) : ascii :=
  if d <? 10 then chr (48 + d) else chr (87 + d).

(** The value of a digit character; letters in either case. *)
Definition digit_value (c : ascii) : option Z :=
  let n := code c in
  if (48 <=? n) && (n <=? 57) then Some (n - 48)
  else if (97 <=? n) && (n <=? 122) then Some (n - 87)
  else if (65 <=? n) && (n <=? 90) then Some (n - 55)
  else None.

(** Digits of a positive integer, most significant first, in front of
    [acc].  One round per digit; [fuel] bounds the rounds. *)
Fixpoint to_digits (fuel : nat) (radix n : Z) (acc : string) : string :=
  match fuel with
  | O => acc
  | S f =>
      let acc' := String (digit_char (n mod radix)) acc in
      if n / radix =? 0 then acc' else to_digits f radix (n / radix) acc'
  end.

Definition digits_fuel (n : Z) : nat := S (Z.to_nat (Z.log2 n)).

Definition nat_to_string (radix n : Z) : string :=
  to_digits (digits_fuel n) radix n "".

(** [Number.prototype.toString(radix)] on the Numbers of this development. *)
Definition Number_toString (n : num) (radix : Z) : string :=
  match n with
  | NaN => "NaN"
  | Int z => if z <? 0 then String "-" (nat_to_string radix (- z)) else nat_to_string radix z
  end.

(** [BigInt.prototype.toString()] and ToString of a BigInt. *)
Definition BigInt_toString (z : Z) : string :=
  if z <? 0 then String "-" (nat_to_string 10 (- z)) else nat_to_string 10 z.

(** The longest prefix of [s] made of digits below [radix], as a number;
    [acc] is [None] until a digit has been read. *)
Fixpoint read_digits (radix : Z) (s : string) (acc : option Z) : option Z * string :=
  match s with
  | EmptyString => (acc, s)
  | String c r =>
      match digit_value c with
      | Some d =>
          if d <? radix
          then read_digits radix r (Some (match acc with Some a => a * radix + d | None => d end))
          else (acc, s)
      | None => (acc, s)
      end
  end.

(** [parseInt(s, radix)] for a radix in [2..36] other than 16 (which also
    strips a [0x] prefix). *)
Definition parseInt (s : string) (radix : Z) : num :=
  let s := skip_str_whitespace s in
  let '(neg, s) :=
    match s with
    | String "-" r => (true, r)
    | String "+" r => (false, r)
    | _ => (false, s)
    end in
  match fst (read_digits radix s None) with
  | Some z => Int (if neg then - z else z)
  | None => NaN
  end.

(** ** Runtime functions the code calls *)

(** *** Strings *)

(** [s.slice(n)] for [0 <= n]. *)
Fixpoint slice (s : string) (n : nat) : string :=
  match n, s with
  | S m, String _ r => slice r m
  | _, _ => s
  end.

(** [s.startsWith(t)] *)
Definition startsWith (s t : string) : bool := String.prefix t s.

(** [s.split(sep)] for a non-empty separator.  [piece] is the part read
    since the last separator, [skip] counts the separator's characters
    still to drop. *)
Fixpoint split_from (sep s piece : string) (skip : nat) : list string :=
  match s with
  | EmptyString => [piece]
  | String c r =>
      match skip with
      | S k => split_from sep r piece k
      | O =>
          if String.prefix sep s
          then piece :: split_from sep r "" (String.length sep - 1)
          else split_from sep r (piece ++ str1 c) O
      end
  end.

Definition split (s sep : string) : list string := split_from sep s "" O.

Fixpoint string_rev (s acc : string) : string :=
  match s with
  | EmptyString => acc
  | String c r => string_rev r (String c acc)
  end.

(** Strip white space at both ends. *)
Definition trim (s : string) : string :=
  string_rev (skip_str_whitespace (string_rev (skip_str_whitespace s) "")) "".

(** *** BigInt *)

(** All of [s] as digits below [radix]; [None] when [s] is empty or has
    another character. *)
Definition all_digits (radix : Z) (s : string) : option Z :=
  match read_digits radix s None with
  | (Some z, EmptyString) => Some z
  | _ => None
  end.

(** StringToBigInt: the empty string is [0n]; a sign only in decimal. *)
Definition StringToBigInt (s : string) : option Z :=
  match trim s with
  | EmptyString => Some 0
  | String "-" r => option_map Z.opp (all_digits 10 r)
  | String "+" r => all_digits 10 r
  | String "0" (String "x" r) | String "0" (String "X" r) => all_digits 16 r
  | String "0" (String "o" r) | String "0" (String "O" r) => all_digits 8 r
  | String "0" (String "b" r) | String "0" (String "B" r) => all_digits 2 r
  | t => all_digits 10 t
  end.

(** [BigInt(v)] *)
Definition BigInt (v : value) : res value :=
  match v with
  | VString s =>
      match StringToBigInt s with
      | Some z => Ok (VBigInt z)
      | None => Throw (SyntaxError "Cannot convert string to a BigInt")
      end
  | VBigInt z => Ok (VBigInt z)
  | VBool b => Ok (VBigInt (if b then 1 else 0))
  | VNumber (Int z) => Ok (VBigInt z)
  | VNumber NaN => Throw (Error "RangeError: NaN cannot be converted to a BigInt")
  | VUndefined | VNull => Throw (TypeError "Cannot convert to a BigInt")
  | _ => Throw (Unmodelled "BigInt of an object")
  end.

(** *** Date *)

(** TimeClip: a time value beyond 8.64e15 ms from the epoch is invalid. *)
Definition max_time : Z := 8640000000000000.

Definition valid_time (t : Z) : Prop := - max_time <= t <= max_time.

Definition TimeClip (n : num) : num :=
  match n with
  | NaN => NaN
  | Int t => if (- max_time <=? t) && (t <=? max_time) then Int t else NaN
  end.

(** [new Date(n)] for a Number [n]. *)
Definition new_Date (n : num) : value := VDate (TimeClip n).

(** [n] in decimal, padded with zeros on the left to [width] digits. *)
Fixpoint repeat_char (c : ascii) (n : nat) (s : string) : string :=
  match n with
  | O => s
  | S m => String c (repeat_char c m s)
  end.

Definition pad_left (width : nat) (s : string) : string :=
  repeat_char "0" (width - String.length s) s.

Definition dec (width : nat) (n : Z) : string := pad_left width (nat_to_string 10 n).

(** [Date.prototype.toISOString] of a valid time value: the proleptic
    Gregorian date of day [t / 86400000], then the time of day. *)
Definition toISOString (t : Z) : string :=
  let days := t / 86400000 in
  let ms := t mod 86400000 in
  let z := days + 719468 in
  let era := z / 146097 in
  let doe := z mod 146097 in
  let yoe := (doe - doe / 1460 + doe / 36524 - doe / 146096) / 365 in
  let doy := doe - (365 * yoe + yoe / 4 - yoe / 100) in
  let mp := (5 * doy + 2) / 153 in
  let d := doy - (153 * mp + 2) / 5 + 1 in
  let m := if mp <? 10 then mp + 3 else mp - 9 in
  let y := yoe + era * 400 + (if m <=? 2 then 1 else 0) in
  let year :=
    if (0 <=? y) && (y <=? 9999) then dec 4 y
    else if y <? 0 then String "-" (dec 6 (- y)) else String "+" (dec 6 y) in
  year ++ "-" ++ dec 2 m ++ "-" ++ dec 2 d ++ "T" ++
  dec 2 (ms / 3600000) ++ ":" ++ dec 2 (ms / 60000 mod 60) ++ ":" ++
  dec 2 (ms / 1000 mod 60) ++ "." ++ dec 3 (ms mod 1000) ++ "Z".

(** [Date.prototype.toJSON]: [null] for an invalid date. *)
Definition Date_toJSON (time : num) : value :=
  match time with
  | NaN => VNull
  | Int t => VString (toISOString t)
  end.

(** *** RegExp *)

Fixpoint string_mem (c : ascii) (s : string) : bool :=
  match s with
  | EmptyString => false
  | String d r => Ascii.eqb c d || string_mem c r
  end.

Fixpoint string_filter (p : ascii -> bool) (s : string) : string :=
  match s with
  | EmptyString => EmptyString
  | String c r => if p c then String c (string_filter p r) else string_filter p r
  end.

Fixpoint string_nodup (s : string) : bool :=
  match s with
  | EmptyString => true
  | String c r => negb (string_mem c r) && string_nodup r
  end.

(** The flag characters, in the order the [flags] getter lists them. *)
Definition flag_order : string := "dgimsuvy".

Definition valid_flags (f : string) : bool :=
  string_nodup f
  && (String.length (string_filter (fun c => string_mem c flag_order) f) =? String.length f)%nat
  && negb (string_mem "u" f && string_mem "v" f).

(** [RegExp(pattern, flags)] on strings ([undefined] flags are the empty
    string).  The pattern's own syntax is not checked; a pattern that
    [source] would have to escape is left out. *)
Definition RegExp (pattern flags : string) : res value :=
  if negb (valid_flags flags) then Throw (SyntaxError "Invalid flags supplied to RegExp constructor")
  else if string_mem "/" pattern || string_mem "010" pattern || string_mem "013" pattern
  then Throw (Unmodelled "EscapeRegExpPattern")
  else Ok (VRegExp (if (pattern =? "")%string then "(?:)" else pattern)
                   (string_filter (fun c => string_mem c flags) flag_order)).

(** *** ToString *)

(** ToString, as the [+] of [replacer.tag + success] applies it. *)
Fixpoint ToString (v : value) : res string :=
  match v with
  | VUndefined => Ok "undefined"
  | VNull => Ok "null"
  | VBool b => Ok (if b then "true" else "false")
  | VNumber n => Ok (Number_toString n 10)
  | VBigInt z => Ok (BigInt_toString z)
  | VString s => Ok s
  | VArray elems =>
      (fix join (l : list value) : res string :=
         match l with
         | [] => Ok ""
         | x :: rest =>
             res_bind (match x with VUndefined | VNull => Ok "" | _ => ToString x end) (fun sx =>
             match rest with
             | [] => Ok sx
             | _ => res_bind (join rest) (fun sr => Ok (sx ++ "," ++ sr))
             end)
         end) elems
  | VObject _ => Ok "[object Object]"
  | VRegExp source flags => Ok ("/" ++ source ++ "/" ++ flags)
  | VDate _ => Throw (Unmodelled "Date.prototype.toString")
  | VMap _ => Ok "[object Map]"
  | VSet _ => Ok "[object Set]"
  end.

(** *** Objects *)

(** A canonical array index: a decimal numeral without leading zero, below
    [2^32 - 1].  Such keys are enumerated first, in ascending order. *)
Definition array_index (k : string) : option Z :=
  match all_digits 10 k with
  | Some n => if (nat_to_string 10 n =? k)%string && (n <? 2 ^ 32 - 1) then Some n else None
  | None => None
  end.

(** Whether a new key [k] is enumerated before the existing key [k']. *)
Definition key_before (k k' : string) : bool :=
  match array_index k, array_index k' with
  | Some n, Some n' => n <? n'
  | Some _, None => true
  | None, _ => false
  end.

Fixpoint has_key (k : string) (props : list (string * value)) : bool :=
  match props with
  | [] => false
  | (k', _) :: rest => (k =? k')%string || has_key k rest
  end.

Fixpoint replace_key (k : string) (v : value) (props : list (string * value))
  : list (string * value) :=
  match props with
  | [] => []
  | (k', v') :: rest =>
      if (k =? k')%string then (k, v) :: rest else (k', v') :: replace_key k v rest
  end.

Fixpoint insert_key (k : string) (v : value) (props : list (string * value))
  : list (string * value) :=
  match props with
  | [] => [(k, v)]
  | (k', v') :: rest =>
      if key_before k k' then (k, v) :: props else (k', v') :: insert_key k v rest
  end.

(** CreateDataProperty on an ordinary object: an existing key keeps its
    place, a new one takes its place in the enumeration order. *)
Definition define_property (props : list (string * value)) (kv : string * value)
  : list (string * value) :=
  let (k, v) := kv in
  if has_key k props then replace_key k v props else insert_key k v props.

Fixpoint get_property (k : string) (props : list (string * value)) : value :=
  match props with
  | [] => VUndefined
  | (k', v) :: rest => if (k =? k')%string then v else get_property k rest
  end.

(** ** JSON *)

Module JSON.

(** One code unit inside a JSON string literal (QuoteJSONString). *)
Definition quote_char (c : ascii) : string :=
  let n := code c in
  if n =? 8 then String backslash "b"
  else if n =? 9 then String backslash "t"
  else if n =? 10 then String backslash "n"
  else if n =? 12 then String backslash "f"
  else if n =? 13 then String backslash "r"
  else if n =? 34 then String backslash (str1 dquote)
  else if n =? 92 then String backslash (str1 backslash)
  else if n <? 32
  then String backslash (String "u" (String "0" (String "0"
         (String (digit_char (n / 16)) (str1 (digit_char (n mod 16)))))))
  else str1 c.

Fixpoint quote_chars (s : string) : string :=
  match s with
  | EmptyString => EmptyString
  | String c r => quote_char c ++ quote_chars r
  end.

Definition QuoteJSONString (s : string) : string :=
  String dquote (quote_chars s ++ str1 dquote).

(** The gap of [JSON.stringify]'s third argument: up to ten spaces for a
    Number, up to ten characters of a String, empty otherwise. *)
Definition gap_of (space : value) : string :=
  match space with
  | VNumber (Int n) => repeat_char " " (Z.to_nat (Z.min 10 n)) ""
  | VString s => String.substring 0 10 s
  | _ => ""
  end.

Section Stringify.

(** The replacer function handed to [JSON.stringify].  It returns its
    second argument, after changing it in place. *)
Variable ReplacerFunction : string -> value -> res value.
Variable gap : string.

(** The text of an object or array from the texts of its members. *)
Definition wrap (open close stepback : string) (partial : list string) : string :=
  match partial with
  | [] => open ++ close
  | _ =>
      if (gap =? "")%string
      then open ++ String.concat "," partial ++ close
      else
        let indent := stepback ++ gap in
        open ++ str1 "010" ++ indent
          ++ String.concat (String "," (String "010" indent)) partial
          ++ str1 "010" ++ stepback ++ close
  end.

Definition member (P strP : string) : string :=
  QuoteJSONString P ++ (if (gap =? "")%string then ":" else ": ") ++ strP.

(** The loop of SerializeJSONArray: each element's text ([null] for
    [undefined]) and the elements as the loop leaves them.  [property]
    serialises the element at an index. *)
Fixpoint array_elements (property : string -> value -> res (option string * value))
    (index : Z) (elems : list value) : res (list string * list value) :=
  match elems with
  | [] => Ok ([], [])
  | x :: rest =>
      res_bind (property (nat_to_string 10 index) x) (fun '(strP, x') =>
      res_bind (array_elements property (index + 1) rest) (fun '(partial, rest') =>
      Ok (match strP with Some t => t | None => "null" end :: partial, x' :: rest')))
  end.

(** The loop of SerializeJSONObject: a member text for each property that
    is not [undefined], and the properties as the loop leaves them. *)
Fixpoint object_members (property : string -> value -> res (option string * value))
    (props : list (string * value)) : res (list string * list (string * value)) :=
  match props with
  | [] => Ok ([], [])
  | (P, x) :: rest =>
      res_bind (property P x) (fun '(strP, x') =>
      res_bind (object_members property rest) (fun '(partial, rest') =>
      Ok (match strP with
          | Some t => member P t :: partial
          | None => partial
          end,
          (P, x') :: rest')))
  end.

(** SerializeJSONProperty on the value found at [holder[key]].  The
    result is the text ([None] for [undefined]) and the value found,
    as the call leaves it.  [fuel] bounds the nesting depth. *)
Fixpoint SerializeJSONProperty (fuel : nat) (indent key : string) (val : value)
  : res (option string * value) :=
  match fuel with
  | O => Throw OutOfFuel
  | S f =>
      let toJSON := match val with VDate t => Some (Date_toJSON t) | _ => None end in
      res_bind (ReplacerFunction key (match toJSON with Some j => j | None => val end))
      (fun val' =>
      res_bind
        match val' with
        | VNull => Ok (Some "null", val')
        | VBool b => Ok (Some (if b then "true" else "false"), val')
        | VString s => Ok (Some (QuoteJSONString s), val')
        | VNumber NaN => Ok (Some "null", val')
        | VNumber n => Ok (Some (Number_toString n 10), val')
        | VBigInt _ => Throw (TypeError "Do not know how to serialize a BigInt")
        | VArray elems =>
            res_bind (array_elements (SerializeJSONProperty f (indent ++ gap)) 0 elems)
              (fun '(partial, elems') =>
                 Ok (Some (wrap "[" "]" indent partial), VArray elems'))
        | VObject props =>
            res_bind (object_members (SerializeJSONProperty f (indent ++ gap)) props)
              (fun '(partial, props') =>
                 Ok (Some (wrap "{" "}" indent partial), VObject props'))
        | VRegExp _ _ | VDate _ | VMap _ | VSet _ =>
            (* no enumerable own property *)
            Ok (Some "{}", val')
        | VUndefined => Ok (None, val')
        end
      (fun '(text, after) =>
         Ok (text, match toJSON with Some _ => val | None => after end)))
  end.

End Stringify.

(** [JSON.stringify(value, replacer, space)] with a replacer function:
    the returned string or [undefined], and the value after the call. *)
Definition stringify (fuel : nat) (val : value)
    (replacer : string -> value -> res value) (space : value)
  : res (value * value) :=
  res_bind (SerializeJSONProperty replacer (gap_of space) fuel "" "" val) (fun '(text, after) =>
  Ok (match text with Some t => VString t | None => VUndefined end, after)).

(** *** Parsing *)

Definition is_ws (c : ascii) : bool :=
  let n := code c in (n =? 9) || (n =? 10) || (n =? 13) || (n =? 32).

Fixpoint skip_ws (s : string) : string :=
  match s with
  | String c r => if is_ws c then skip_ws r else s
  | EmptyString => s
  end.

Definition unexpected {A} : res A := Throw (SyntaxError "Unexpected token in JSON").
Definition unexpected_end {A} : res A := Throw (SyntaxError "Unexpected end of JSON input").

(** The character a two-character escape stands for. *)
Definition unescape (e : ascii) : option ascii :=
  let n := code e in
  if n =? 34 then Some dquote
  else if n =? 92 then Some backslash
  else if n =? 47 then Some "/"%char
  else if n =? 98 then Some (chr 8)
  else if n =? 102 then Some (chr 12)
  else if n =? 110 then Some (chr 10)
  else if n =? 114 then Some (chr 13)
  else if n =? 116 then Some (chr 9)
  else None.

Definition hex_value (c : ascii) : option Z :=
  match digit_value c with
  | Some d => if d <? 16 then Some d else None
  | None => None
  end.

Definition hex4 (a b c d : ascii) : option Z :=
  match hex_value a, hex_value b, hex_value c, hex_value d with
  | Some x, Some y, Some z, Some w => Some (((x * 16 + y) * 16 + z) * 16 + w)
  | _, _, _, _ => None
  end.

(** The characters of a string literal after its opening quote, and the
    text after its closing quote.  Strings hold code units below 256. *)
Fixpoint parse_chars (s : string) : res (string * string) :=
  match s with
  | EmptyString => unexpected_end
  | String c r =>
      if Ascii.eqb c dquote then Ok (EmptyString, r)
      else if Ascii.eqb c backslash then
        match r with
        | String "u" (String h1 (String h2 (String h3 (String h4 r')))) =>
            match hex4 h1 h2 h3 h4 with
            | Some n =>
                if n <? 256
                then res_bind (parse_chars r') (fun '(str, rest) => Ok (String (chr n) str, rest))
                else Throw (Unmodelled "code unit above 255")
            | None => unexpected
            end
        | String e r' =>
            match unescape e with
            | Some d => res_bind (parse_chars r') (fun '(str, rest) => Ok (String d str, rest))
            | None => unexpected
            end
        | EmptyString => unexpected_end
        end
      else if code c <? 32 then unexpected
      else res_bind (parse_chars r) (fun '(str, rest) => Ok (String c str, rest))
  end.

Definition is_digit (c : ascii) : bool := (48 <=? code c) && (code c <=? 57).

(** A number literal; only integer literals are covered. *)
Definition parse_number (s : string) : res (value * string) :=
  let '(neg, s1) :=
    match s with
    | String "-" r => (true, r)
    | _ => (false, s)
    end in
  let '(int, r) :=
    match s1 with
    | String "0" r => (Some 0, r)
    | _ => read_digits 10 s1 None
    end in
  match int with
  | None => unexpected
  | Some z =>
      match r with
      | String "." _ | String "e" _ | String "E" _ =>
          Throw (Unmodelled "JSON number with a fraction or an exponent")
      | _ => Ok (VNumber (Int (if neg then - z else z)), r)
      end
  end.

Definition parse_literal (s : string) : res (value * string) :=
  if String.prefix "null" s then Ok (VNull, slice s 4)
  else if String.prefix "true" s then Ok (VBool true, slice s 4)
  else if String.prefix "false" s then Ok (VBool false, slice s 5)
  else unexpected.

(** Recursive descent; every call reads at least one character, so the
    length of the text is enough [fuel]. *)
Fixpoint parse_value (fuel : nat) (s : string) {struct fuel} : res (value * string) :=
  match fuel with
  | O => Throw OutOfFuel
  | S f =>
      match skip_ws s with
      | EmptyString => unexpected_end
      | String c r =>
          if Ascii.eqb c "{" then
            match skip_ws r with
            | String "}" r' => Ok (VObject [], r')
            | _ =>
                res_bind (parse_members f r) (fun '(ms, r') =>
                Ok (VObject (fold_left define_property ms []), r'))
            end
          else if Ascii.eqb c "[" then
            match skip_ws r with
            | String "]" r' => Ok (VArray [], r')
            | _ => res_bind (parse_elements f r) (fun '(vs, r') => Ok (VArray vs, r'))
            end
          else if Ascii.eqb c dquote then
            res_bind (parse_chars r) (fun '(str, r') => Ok (VString str, r'))
          else if Ascii.eqb c "-" || is_digit c then parse_number (String c r)
          else parse_literal (String c r)
      end
  end
with parse_elements (fuel : nat) (s : string) {struct fuel} : res (list value * string) :=
  match fuel with
  | O => Throw OutOfFuel
  | S f =>
      res_bind (parse_value f s) (fun '(v, s1) =>
      match skip_ws s1 with
      | String "," r => res_bind (parse_elements f r) (fun '(vs, s2) => Ok (v :: vs, s2))
      | String "]" r => Ok ([v], r)
      | String _ _ => unexpected
      | EmptyString => unexpected_end
      end)
  end
with parse_members (fuel : nat) (s : string) {struct fuel}
  : res (list (string * value) * string) :=
  match fuel with
  | O => Throw OutOfFuel
  | S f =>
      match skip_ws s with
      | String c r =>
          if Ascii.eqb c dquote then
            res_bind (parse_chars r) (fun '(k, s1) =>
            match skip_ws s1 with
            | String ":" s2 =>
                res_bind (parse_value f s2) (fun '(v, s3) =>
                match skip_ws s3 with
                | String "," r' =>
                    res_bind (parse_members f r') (fun '(ms, s4) => Ok ((k, v) :: ms, s4))
                | String "}" r' => Ok ([(k, v)], r')
                | String _ _ => unexpected
                | EmptyString => unexpected_end
                end)
            | String _ _ => unexpected
            | EmptyString => unexpected_end
            end)
          else unexpected
      | EmptyString => unexpected_end
      end
  end.

(** The value a JSON text denotes. *)
Definition parse_text (text : string) : res value :=
  res_bind (parse_value (String.length text) text) (fun '(v, rest) =>
  match skip_ws rest with
  | EmptyString => Ok v
  | String _ _ => unexpected
  end).

Section Internalize.

(** The reviver function handed to [JSON.parse]. *)
Variable reviver : string -> value -> res value.

(** InternalizeJSONProperty: members first, then the value itself.  A
    member revived to [undefined] is deleted (an array keeps a hole,
    which reads as [undefined]). *)
Fixpoint InternalizeJSONProperty (name : string) (val : value) : res value :=
  match val with
  | VArray elems =>
      res_bind
        ((fix each (index : Z) (l : list value) : res (list value) :=
            match l with
            | [] => Ok []
            | x :: rest =>
                res_bind (InternalizeJSONProperty (nat_to_string 10 index) x) (fun x' =>
                res_bind (each (index + 1) rest) (fun rest' => Ok (x' :: rest')))
            end) 0 elems)
        (fun elems' => reviver name (VArray elems'))
  | VObject props =>
      res_bind
        ((fix each (l : list (string * value)) : res (list (string * value)) :=
            match l with
            | [] => Ok []
            | (P, x) :: rest =>
                res_bind (InternalizeJSONProperty P x) (fun x' =>
                res_bind (each rest) (fun rest' =>
                Ok (match x' with
                    | VUndefined => rest'
                    | _ => (P, x') :: rest'
                    end)))
            end) props)
        (fun props' => reviver name (VObject props'))
  | _ => reviver name val
  end.

End Internalize.

(** [JSON.parse(text, reviver)] *)
Definition parse (text : string) (reviver : string -> value -> res value) : res value :=
  res_bind (parse_text text) (fun unfiltered => InternalizeJSONProperty reviver "" unfiltered).

End JSON.

(** ** The registry *)

(** The class [TJSON] as a callable sees it.  The functions stored in the
    registry are closures over the global [TJSON]: the standard [Map] and
    [Set] entries call [TJSON.stringify] and [TJSON.parse].  The embedding
    passes the two entry points explicitly.  [tj_stringify v] yields what
    the call returns (a string or [undefined]) and [v] as the call leaves
    it. *)
Record TJ : Type := {
  tj_stringify : value -> res (value * value);
  tj_parse : string -> res value
}.

(** A JavaScript function of one argument, as stored in the registry. *)
Definition callable : Type := TJ -> value -> res value.

(** An argument of a public method: a function or another value. *)
Inductive jsarg : Type :=
| AFun (f : callable)
| AVal (v : value).

(** An element of [TJSON.replacers]: [{ tag, check, exec }]. *)
Module Replacer.
Record entry : Type := { tag : string; check : callable; exec : callable }.
End Replacer.

(** An element of [TJSON.revivers]: [{ tag, exec }]. *)
Module Reviver.
Record entry : Type := { tag : string; exec : callable }.
End Reviver.

(** The two static arrays. *)
Record registry : Type := {
  replacers : list Replacer.entry;
  revivers : list Reviver.entry
}.

(** [static replacers = []], [static revivers = []] *)
Definition initial : registry := {| replacers := []; revivers := [] |}.

(** Methods that touch the registry run in a state monad over it; a throw
    keeps the registry as it was when the error was raised. *)
Definition M (A : Type) : Type := registry -> res A * registry.

Definition ret {A} (a : A) : M A := fun st => (Ok a, st).
Definition throw {A} (e : error) : M A := fun st => (Throw e, st).
Definition bind {A B} (m : M A) (k : A -> M B) : M B :=
  fun st =>
    match m st with
    | (Ok a, st') => k a st'
    | (Throw e, st') => (Throw e, st')
    end.
Definition lift {A} (r : res A) : M A := fun st => (r, st).
Definition get : M registry := fun st => (Ok st, st).
Definition put (st : registry) : M unit := fun _ => (Ok tt, st).

Declare Scope M_scope.
Delimit Scope M_scope with M.
Notation "x <- e ;; k" := (bind e (fun x => k))
  (at level 61, e at next level, right associativity) : M_scope.
Notation "e ;; k" := (bind e (fun _ => k))
  (at level 61, right associativity) : M_scope.

(** *** Array helpers *)

(** [arr.indexOf(arr.find($ => p($)))]: the index of the first element that
    satisfies [p], or [-1].  (Every element is an object of its own, so
    [indexOf] finds the element [find] returned at its own index, and
    [indexOf(undefined)] is [-1].) *)
Fixpoint indexOf_find {A} (p : A -> bool) (arr : list A) : Z :=
  match arr with
  | [] => -1
  | x :: rest =>
      if p x then 0
      else let i := indexOf_find p rest in if i <? 0 then -1 else i + 1
  end.

(** [arr.splice(start, deleteCount)] with no items to insert: the array
    after the call. *)
Definition splice {A} (arr : list A) (start deleteCount : Z) : list A :=
  let len := Z.of_nat (List.length arr) in
  let from := if start <? 0 then Z.max (len + start) 0 else Z.min start len in
  let count := Z.min (Z.max deleteCount 0) (len - from) in
  firstn (Z.to_nat from) arr ++ skipn (Z.to_nat (from + count)) arr.

(** An array index as a condition: [0] is falsy. *)
Definition truthy_index (i : Z) : bool := negb (i =? 0).

(** [arr[i].field = x]: throws when [arr[i]] is [undefined]. *)
Fixpoint update_at {A} (arr : list A) (i : nat) (f : A -> A) : res (list A) :=
  match arr, i with
  | [], _ => Throw (TypeError "Cannot set properties of undefined")
  | x :: rest, O => Ok (f x :: rest)
  | x :: rest, S j => res_bind (update_at rest j f) (fun rest' => Ok (x :: rest'))
  end.

(** *** Private checks *)

(** [TJSON.isFunction]: returns normally exactly on functions (the
    embedding hands the function back). *)
Definition isFunction (val : jsarg) : res callable :=
  match val with
  | AFun f => Ok f
  | AVal _ => Throw (TypeError "argument is not a function")
  end.

(** [TJSON.isString]: returns normally exactly on strings (the embedding
    hands the string back). *)
Definition isString (val : jsarg) : res string :=
  match val with
  | AVal (VString s) => Ok s
  | _ => Throw (TypeError "argument is not a string")
  end.

(** *** find *)

(** [TJSON.find(tag)].  Both indices are looked up in [TJSON.replacers], as
    the source does; [None] is the [undefined] the function falls off with. *)
Definition find (tag : jsarg) : M (option (Z * Z)) :=
  (t <- lift (isString tag) ;;
   st <- get ;;
   let replacer := indexOf_find (fun e => Replacer.tag e =? t)%string (replacers st) in
   let reviver := indexOf_find (fun e => Replacer.tag e =? t)%string (replacers st) in
   if (replacer >=? 0) && (reviver >=? 0)
   then ret (Some (replacer, reviver))
   else ret None)%M.

(** *** add *)

(** The three objects of the [add] chain are closures; each record holds
    what its closure captured. *)
Record add_builder : Type := { ab_tag : string }.
Record check_builder : Type := { cb_tag : string; cb_check : callable }.
Record replacer_builder : Type := { rb_tag : string }.

(** [TJSON.add(tag)] *)
Definition add (tag : jsarg) : M add_builder :=
  (t <- lift (isString tag) ;;
   found <- find tag ;;
   match found with
   | Some _ => throw (Error "Replacer/ Reviver already exists")
   | None => ret {| ab_tag := t |}
   end)%M.

(** [.check(checkExec)] of the object [add] returned. *)
Definition add_check (b : add_builder) (checkExec : jsarg) : M check_builder :=
  (c <- lift (isFunction checkExec) ;;
   ret {| cb_tag := ab_tag b; cb_check := c |})%M.

(** [.replacer(replaceExec)]: [TJSON.replacers.push({ tag, check, exec })]. *)
Definition add_replacer (b : check_builder) (replaceExec : jsarg) : M replacer_builder :=
  (r <- lift (isFunction replaceExec) ;;
   st <- get ;;
   put {| replacers := replacers st ++
            [{| Replacer.tag := cb_tag b; Replacer.check := cb_check b; Replacer.exec := r |}];
          revivers := revivers st |} ;;
   ret {| rb_tag := cb_tag b |})%M.

(** [.reviver(reviveExec)]: [TJSON.revivers.push({ tag, exec })]. *)
Definition add_reviver (b : replacer_builder) (reviveExec : jsarg) : M unit :=
  (r <- lift (isFunction reviveExec) ;;
   st <- get ;;
   put {| replacers := replacers st;
          revivers := revivers st ++ [{| Reviver.tag := rb_tag b; Reviver.exec := r |}] |})%M.

(** [TJSON.add(tag).check(c).replacer(r).reviver(v)] as one expression. *)
Definition add_chain (tag c r v : jsarg) : M unit :=
  (b0 <- add tag ;;
   b1 <- add_check b0 c ;;
   b2 <- add_replacer b1 r ;;
   add_reviver b2 v)%M.

(** *** modify *)

(** The object [modify] returns closes over [tag] and the indices [find]
    gave. *)
Record modify_builder : Type := { mb_tag : string; mb_find : Z * Z }.

(** [TJSON.modify(tag)] *)
Definition modify (tag : jsarg) : M modify_builder :=
  (t <- lift (isString tag) ;;
   found <- find tag ;;
   match found with
   | None => throw (Error "Replacer/ Reviver not found")
   | Some ix => ret {| mb_tag := t; mb_find := ix |}
   end)%M.

(** [.check(exec)]: [TJSON.replacers[find[0]].check = exec] *)
Definition modify_check (b : modify_builder) (exec : jsarg) : M modify_builder :=
  (f <- lift (isFunction exec) ;;
   st <- get ;;
   reps <- lift (update_at (replacers st) (Z.to_nat (fst (mb_find b)))
                   (fun e => {| Replacer.tag := Replacer.tag e; Replacer.check := f;
                                Replacer.exec := Replacer.exec e |})) ;;
   put {| replacers := reps; revivers := revivers st |} ;;
   modify (AVal (VString (mb_tag b))))%M.

(** [.replacer(exec)]: [TJSON.replacers[find[0]].exec = exec] *)
Definition modify_replacer (b : modify_builder) (exec : jsarg) : M modify_builder :=
  (f <- lift (isFunction exec) ;;
   st <- get ;;
   reps <- lift (update_at (replacers st) (Z.to_nat (fst (mb_find b)))
                   (fun e => {| Replacer.tag := Replacer.tag e; Replacer.check := Replacer.check e;
                                Replacer.exec := f |})) ;;
   put {| replacers := reps; revivers := revivers st |} ;;
   modify (AVal (VString (mb_tag b))))%M.

(** [.reviver(exec)]: [TJSON.revivers[find[1]].exec = exec] *)
Definition modify_reviver (b : modify_builder) (exec : jsarg) : M modify_builder :=
  (f <- lift (isFunction exec) ;;
   st <- get ;;
   revs <- lift (update_at (revivers st) (Z.to_nat (snd (mb_find b)))
                   (fun e => {| Reviver.tag := Reviver.tag e; Reviver.exec := f |})) ;;
   put {| replacers := replacers st; revivers := revs |} ;;
   modify (AVal (VString (mb_tag b))))%M.

(** *** remove *)

(** [TJSON.remove(tag)].  Destructuring the [undefined] that [find] returns
    on a miss throws a [TypeError]. *)
Definition remove (tag : jsarg) : M unit :=
  (found <- find tag ;;
   match found with
   | None => throw (TypeError "undefined is not iterable")
   | Some (replacer, reviver) =>
       if truthy_index replacer && truthy_index reviver
       then
         st <- get ;;
         put {| replacers := splice (replacers st) replacer 0; revivers := revivers st |} ;;
         st <- get ;;
         put {| replacers := replacers st; revivers := splice (revivers st) reviver 0 |}
       else ret tt
   end)%M.

(** *** replacer *)

(** The inner loop of [TJSON.replacer] for one member [x = val[key]]: the
    entries in array order; the result is [val[key]] after the loop. *)
Fixpoint replace_member (tj : TJ) (entries : list Replacer.entry) (x : value) : res value :=
  match entries with
  | [] => Ok x
  | replacer :: rest =>
      (check <- Replacer.check replacer tj x ;;
       if truthy check then
         success <- Replacer.exec replacer tj x ;;
         if truthy success then
           text <- ToString success ;;
           Ok (VString (Replacer.tag replacer ++ text))
         else replace_member tj rest x
       else replace_member tj rest x)%res
  end.

(** [for (key in val)] over the elements of an array. *)
Fixpoint replace_elems (tj : TJ) (entries : list Replacer.entry) (elems : list value)
  : res (list value) :=
  match elems with
  | [] => Ok []
  | x :: rest =>
      (x' <- replace_member tj entries x ;;
       rest' <- replace_elems tj entries rest ;;
       Ok (x' :: rest'))%res
  end.

(** [for (key in val)] over the properties of an object. *)
Fixpoint replace_props (tj : TJ) (entries : list Replacer.entry) (props : list (string * value))
  : res (list (string * value)) :=
  match props with
  | [] => Ok []
  | (key, x) :: rest =>
      (x' <- replace_member tj entries x ;;
       rest' <- replace_props tj entries rest ;;
       Ok ((key, x') :: rest'))%res
  end.

(** [TJSON.replacer(name, val)]: returns [val], changed in place.  A
    [null], [RegExp], [Date], [Map] or [Set] has nothing to enumerate. *)
Definition replacer (tj : TJ) (st : registry) (name : string) (val : value) : res value :=
  if typeof_object val then
    match val with
    | VObject props =>
        (props' <- replace_props tj (replacers st) props ;; Ok (VObject props'))%res
    | VArray elems =>
        (elems' <- replace_elems tj (replacers st) elems ;; Ok (VArray elems'))%res
    | _ => Ok val
    end
  else Ok val.

(** *** reviver *)

(** The loop of [TJSON.reviver] over the entries in array order. *)
Fixpoint revive (tj : TJ) (entries : list Reviver.entry) (val : value) : res value :=
  match entries with
  | [] => Ok val
  | reviver :: rest =>
      match as_string val with
      | Some s =>
          if startsWith s (Reviver.tag reviver) then
            (success <- Reviver.exec reviver tj
                          (VString (slice s (String.length (Reviver.tag reviver)))) ;;
             if truthy success then Ok success else revive tj rest val)%res
          else revive tj rest val
      | None => revive tj rest val
      end
  end.

(** [TJSON.reviver(name, val)] *)
Definition reviver (tj : TJ) (st : registry) (name : string) (val : value) : res value :=
  revive tj (revivers st) val.

(** *** stringify and parse *)

(** The class at a given bound on nested calls: [TJSON.stringify] and
    [TJSON.parse] run the runtime's functions with hooks whose callables
    see the class at the bound below. *)
Fixpoint TJSON (st : registry) (fuel : nat) : (value -> value -> res (value * value)) * TJ :=
  match fuel with
  | O => (fun _ _ => Throw OutOfFuel,
          {| tj_stringify := fun _ => Throw OutOfFuel; tj_parse := fun _ => Throw OutOfFuel |})
  | S f =>
      let tj := snd (TJSON st f) in
      let stringify := fun val space => JSON.stringify f val (replacer tj st) space in
      (stringify,
       {| tj_stringify := fun val => stringify val VUndefined;
          tj_parse := fun text => JSON.parse text (reviver tj st) |})
  end.

(** [TJSON.stringify(value, space)]: the returned string (or [undefined])
    and [value] as the call leaves it. *)
Definition stringify (st : registry) (fuel : nat) (val space : value) : res (value * value) :=
  fst (TJSON st fuel) val space.

(** [TJSON.parse(text)] *)
Definition parse (st : registry) (fuel : nat) (text : string) : res value :=
  tj_parse (snd (TJSON st fuel)) text.

(** *** standards *)

Record standard : Type := {
  std_tag : string;
  std_check : callable;
  std_replacer : callable;
  std_reviver : callable
}.

(** [v.toString(36)] *)
Definition toString36 (v : value) : res value :=
  match v with
  | VNumber n => Ok (VString (Number_toString n 36))
  | VString s => Ok (VString s)
  | VUndefined | VNull => Throw (TypeError "Cannot read properties of undefined")
  | _ => Throw (Unmodelled "toString(36) of another value")
  end.

(** [parseInt(v, 36)] *)
Definition parseInt36 (v : value) : res num :=
  res_bind (ToString v) (fun s => Ok (parseInt s 36)).

(** [[...v.entries()]] of a [Map], [[...v.values()]] of a [Set]. *)
Definition entries_array (entries : list (value * value)) : value :=
  VArray (map (fun '(k, x) => VArray [k; x]) entries).

(** SameValueZero on the values [JSON.parse] builds: primitives by value,
    objects never (each is an object of its own). *)
Definition num_eqb (a b : num) : bool :=
  match a, b with
  | NaN, NaN => true
  | Int x, Int y => x =? y
  | _, _ => false
  end.

Definition same_value_zero (a b : value) : bool :=
  match a, b with
  | VUndefined, VUndefined | VNull, VNull => true
  | VBool x, VBool y => Bool.eqb x y
  | VNumber x, VNumber y => num_eqb x y
  | VBigInt x, VBigInt y => x =? y
  | VString x, VString y => (x =? y)%string
  | _, _ => false
  end.

(** [set.add(x)] *)
Definition Set_add (members : list value) (x : value) : list value :=
  if existsb (same_value_zero x) members then members else members ++ [x].

(** [map.set(k, x)]: a key already present keeps its place. *)
Fixpoint Map_set (entries : list (value * value)) (k x : value) : list (value * value) :=
  match entries with
  | [] => [(k, x)]
  | (k', x') :: rest =>
      if same_value_zero k k' then (k', x) :: rest else (k', x') :: Map_set rest k x
  end.

(** The items an iterable yields to [new Map] / [new Set]. *)
Definition iterate (v : value) : res (list value) :=
  match v with
  | VUndefined | VNull => Ok []
  | VArray elems => Ok elems
  | VSet members => Ok members
  | VMap entries => Ok (map (fun '(k, x) => VArray [k; x]) entries)
  | VString s => Ok (map (fun c => VString (str1 c)) (list_ascii_of_string s))
  | _ => Throw (TypeError "object is not iterable")
  end.

(** [item[0]], [item[1]] of an entry object. *)
Definition entry_of (item : value) : res (value * value) :=
  match item with
  | VArray elems => Ok (nth 0 elems VUndefined, nth 1 elems VUndefined)
  | VObject props => Ok (get_property "0" props, get_property "1" props)
  | VRegExp _ _ | VDate _ | VMap _ | VSet _ => Ok (VUndefined, VUndefined)
  | _ => Throw (TypeError "Iterator value is not an entry object")
  end.

Fixpoint Map_of_items (entries : list (value * value)) (items : list value)
  : res (list (value * value)) :=
  match items with
  | [] => Ok entries
  | item :: rest =>
      res_bind (entry_of item) (fun '(k, x) => Map_of_items (Map_set entries k x) rest)
  end.

(** [new Map(v)] *)
Definition new_Map (v : value) : res value :=
  res_bind (iterate v) (fun items =>
  res_bind (Map_of_items [] items) (fun entries => Ok (VMap entries))).

(** [new Set(v)] *)
Definition new_Set (v : value) : res value :=
  res_bind (iterate v) (fun items => Ok (VSet (fold_left Set_add items []))).

(** [RegExp.call(null, ...v.split("___flags___"))] *)
Definition RegExp_of_parts (parts : list string) : res value :=
  match parts with
  | [] => RegExp "" ""
  | [pattern] => RegExp pattern ""
  | pattern :: flags :: _ => RegExp pattern flags
  end.

(** The six elements of [static get standards()], in order. *)
Definition std_number : standard :=
  {| std_tag := "(00)";
     std_check := fun _ v => Ok (VBool match v with VNumber _ => true | _ => false end);
     std_replacer := fun _ v => toString36 v;
     std_reviver := fun _ v => res_bind (parseInt36 v) (fun n => Ok (VNumber n)) |}.

Definition std_bigint : standard :=
  {| std_tag := "(01)";
     std_check := fun _ v => Ok (VBool match v with VBigInt _ => true | _ => false end);
     std_replacer := fun _ v => Ok v;
     std_reviver := fun _ v => BigInt v |}.

Definition std_regexp : standard :=
  {| std_tag := "(02)";
     std_check := fun _ v => Ok (VBool match v with VRegExp _ _ => true | _ => false end);
     std_replacer := fun _ v =>
       match v with
       | VRegExp source flags => Ok (VString (source ++ "___flags___" ++ flags))
       | VUndefined | VNull => Throw (TypeError "Cannot read properties of undefined")
       | VObject props =>
           res_bind (ToString (get_property "source" props)) (fun source =>
           res_bind (ToString (get_property "flags" props)) (fun flags =>
           Ok (VString (source ++ "___flags___" ++ flags))))
       | _ => Ok (VString "undefined___flags___undefined")
       end;
     std_reviver := fun _ v =>
       match v with
       | VString s => RegExp_of_parts (split s "___flags___")
       | _ => Throw (TypeError "v.split is not a function")
       end |}.

Definition std_date : standard :=
  {| std_tag := "(03)";
     std_check := fun _ v => Ok (VBool match v with VDate _ => true | _ => false end);
     std_replacer := fun _ v =>
       match v with
       | VDate time => Ok (VString (Number_toString time 36))
       | _ => toString36 v
       end;
     std_reviver := fun _ v => res_bind (parseInt36 v) (fun n => Ok (new_Date n)) |}.

Definition std_map : standard :=
  {| std_tag := "(04)";
     std_check := fun _ v => Ok (VBool match v with VMap _ => true | _ => false end);
     std_replacer := fun tj v =>
       match v with
       | VMap entries => res_bind (tj_stringify tj (entries_array entries)) (fun r => Ok (fst r))
       | _ => Throw (TypeError "v.entries is not a function")
       end;
     std_reviver := fun tj v =>
       res_bind (ToString v) (fun text => res_bind (tj_parse tj text) new_Map) |}.

Definition std_set : standard :=
  {| std_tag := "(05)";
     std_check := fun _ v => Ok (VBool match v with VSet _ => true | _ => false end);
     std_replacer := fun tj v =>
       match v with
       | VSet members => res_bind (tj_stringify tj (VArray members)) (fun r => Ok (fst r))
       | _ => Throw (TypeError "v.values is not a function")
       end;
     std_reviver := fun tj v =>
       res_bind (ToString v) (fun text => res_bind (tj_parse tj text) new_Set) |}.

(** [static get standards()] *)
Definition standards : list standard :=
  [std_number; std_bigint; std_regexp; std_date; std_map; std_set].

(** *** activateStandards *)

(** [arr.forEach(f)] for an [f] that runs in the registry monad. *)
Fixpoint forEach {A} (arr : list A) (f : A -> M unit) : M unit :=
  match arr with
  | [] => ret tt
  | x :: rest => bind (f x) (fun _ => forEach rest f)
  end.

(** [TJSON.activateStandards()] *)
Definition activateStandards : M unit :=
  forEach standards (fun s =>
    add_chain (AVal (VString (std_tag s))) (AFun (std_check s))
              (AFun (std_replacer s)) (AFun (std_reviver s))).

(** The registry after [TJSON.activateStandards()] on a fresh class. *)
Definition activated : registry := snd (activateStandards initial).

(** * Vocabulary of the properties *)

(** ** The registry *)

Definition replacer_tags (st : registry) : list string := map Replacer.tag (replacers st).
Definition reviver_tags (st : registry) : list string := map Reviver.tag (revivers st).

(** No two entries of [TJSON.replacers] share a tag, and no two entries of
    [TJSON.revivers] do. *)
Definition unique_tags (st : registry) : Prop :=
  NoDup (replacer_tags st) /\ NoDup (reviver_tags st).

(** Sample callables for the scenarios below. *)
Definition is_bool : callable := fun _ v => Ok (VBool match v with VBool _ => true | _ => false end).
Definition bool_text : callable := fun _ v => Ok (VString match v with VBool true => "T" | _ => "F" end).
Definition text_bool : callable := fun _ v => Ok (VBool match v with VString "T" => true | _ => false end).

(** [TJSON.add("(10)").check(f).replacer(g)], the chain left before its
    [.reviver(h)], then [TJSON.find("(10)")]. *)
Definition find_after_half_chain : M (option (Z * Z)) :=
  (b0 <- add (AVal (VString "(10)")) ;;
   b1 <- add_check b0 (AFun is_bool) ;;
   b2 <- add_replacer b1 (AFun bool_text) ;;
   find (AVal (VString "(10)")))%M.

(** Two [add] chains for one tag, the second begun before the first has
    pushed its entries:
    [a = TJSON.add("(10)"); b = TJSON.add("(10)");
     a.check(f).replacer(g).reviver(h); b.check(f).replacer(g).reviver(h)]. *)
Definition interleaved_chains : M unit :=
  (a0 <- add (AVal (VString "(10)")) ;;
   b0 <- add (AVal (VString "(10)")) ;;
   a1 <- add_check a0 (AFun is_bool) ;;
   a2 <- add_replacer a1 (AFun bool_text) ;;
   add_reviver a2 (AFun text_bool) ;;
   b1 <- add_check b0 (AFun is_bool) ;;
   b2 <- add_replacer b1 (AFun bool_text) ;;
   add_reviver b2 (AFun text_bool))%M.

(** What the guard in [add] maintains when every [add] chain is run as one
    expression, [TJSON.add(t).check(c).replacer(r).reviver(v)]: unique tags,
    and no reviver entry without a replacer entry of its tag. *)
Definition chained_inv (st : registry) : Prop :=
  NoDup (replacer_tags st) /\ NoDup (reviver_tags st)
  /\ incl (reviver_tags st) (replacer_tags st).

(** [m] keeps [P] true of the registry, whether it returns or throws. *)
Definition preserves {A} (P : registry -> Prop) (m : M A) : Prop :=
  forall st, P st -> P (snd (m st)).

(** [st'] has the tags of [st], in the same order. *)
Definition same_tags (st st' : registry) : Prop :=
  replacer_tags st' = replacer_tags st /\ reviver_tags st' = reviver_tags st.

(** The methods of the object [modify] returns. *)
Inductive field : Type := FCheck | FReplacer | FReviver.

Definition modify_field (b : modify_builder) (edit : field * jsarg) : M modify_builder :=
  match fst edit with
  | FCheck => modify_check b (snd edit)
  | FReplacer => modify_replacer b (snd edit)
  | FReviver => modify_reviver b (snd edit)
  end.

(** [TJSON.modify(tag).f1(x1). ... .fn(xn)] *)
Fixpoint modify_fields (b : modify_builder) (edits : list (field * jsarg)) : M unit :=
  match edits with
  | [] => ret tt
  | edit :: rest => bind (modify_field b edit) (fun b' => modify_fields b' rest)
  end.

Definition modify_chain (tag : jsarg) (edits : list (field * jsarg)) : M unit :=
  bind (modify tag) (fun b => modify_fields b edits).

(** A use of the public interface, every chain as one expression. *)
Inductive call : Type :=
| Add (tag check replacer reviver : jsarg)
| Modify (tag : jsarg) (edits : list (field * jsarg))
| Remove (tag : jsarg)
| ActivateStandards.

Definition run_call (c : call) : M unit :=
  match c with
  | Add tag check replacer reviver => add_chain tag check replacer reviver
  | Modify tag edits => modify_chain tag edits
  | Remove tag => remove tag
  | ActivateStandards => activateStandards
  end.

(** The registry after a sequence of calls, a thrown error caught by the
    caller. *)
Definition run_calls (calls : list call) (st : registry) : registry :=
  fold_left (fun st c => snd (run_call c st)) calls st.

(** ** The encode pass *)

(** Entry [e] matches [x] and encodes it as [text]: its check is truthy, its
    replacer function returns a truthy [success], and [text] is what
    [e.tag + success] appends. *)
Definition accepts (tj : TJ) (e : Replacer.entry) (x : value) (text : string) : Prop :=
  exists check success,
    Replacer.check e tj x = Ok check /\ truthy check = true
    /\ Replacer.exec e tj x = Ok success /\ truthy success = true
    /\ ToString success = Ok text.

(** Entry [e] is tried on [x] and passed over: a falsy check, or a falsy
    result of its replacer function. *)
Definition declines (tj : TJ) (e : Replacer.entry) (x : value) : Prop :=
  exists check,
    Replacer.check e tj x = Ok check
    /\ (truthy check = false
        \/ exists success, Replacer.exec e tj x = Ok success /\ truthy success = false).



(** ** Digits *)

(** How many digits [to_digits] writes. *)
Fixpoint digit_count (radix : Z) (fuel : nat) (n : Z) : nat :=
  match fuel with
  | O => O
  | S f => if n / radix =? 0 then 1%nat else S (digit_count radix f (n / radix))
  end.

Definition acc_value (acc : option Z) : Z :=
  match acc with
  | Some a => a
  | None => 0
  end.

(** ** JSON trees and their texts *)

(** Induction on values, with the hypothesis for every member. *)
Section ValueInduction.

Variable P : value -> Prop.
Hypothesis P_undefined : P VUndefined.
Hypothesis P_null : P VNull.
Hypothesis P_bool : forall b, P (VBool b).
Hypothesis P_number : forall n, P (VNumber n).
Hypothesis P_bigint : forall z, P (VBigInt z).
Hypothesis P_string : forall s, P (VString s).
Hypothesis P_array : forall elems, Forall P elems -> P (VArray elems).
Hypothesis P_object : forall props, Forall (fun kv => P (snd kv)) props -> P (VObject props).
Hypothesis P_regexp : forall source flags, P (VRegExp source flags).
Hypothesis P_date : forall time, P (VDate time).
Hypothesis P_map :
  forall entries, Forall (fun kx => P (fst kx) /\ P (snd kx)) entries -> P (VMap entries).
Hypothesis P_set : forall members, Forall P members -> P (VSet members).

Fixpoint value_members_ind (v : value) : P v :=
  match v with
  | VUndefined => P_undefined
  | VNull => P_null
  | VBool b => P_bool b
  | VNumber n => P_number n
  | VBigInt z => P_bigint z
  | VString s => P_string s
  | VArray elems =>
      P_array elems
        ((fix all (l : list value) : Forall P l :=
            match l with
            | [] => Forall_nil P
            | x :: rest => Forall_cons x (value_members_ind x) (all rest)
            end) elems)
  | VObject props =>
      P_object props
        ((fix all (l : list (string * value)) : Forall (fun kv => P (snd kv)) l :=
            match l with
            | [] => Forall_nil _
            | (k, x) :: rest => Forall_cons (k, x) (value_members_ind x) (all rest)
            end) props)
  | VRegExp source flags => P_regexp source flags
  | VDate time => P_date time
  | VMap entries =>
      P_map entries
        ((fix all (l : list (value * value))
            : Forall (fun kx => P (fst kx) /\ P (snd kx)) l :=
            match l with
            | [] => Forall_nil _
            | (k, x) :: rest =>
                Forall_cons (k, x) (conj (value_members_ind k) (value_members_ind x)) (all rest)
            end) entries)
  | VSet members =>
      P_set members
        ((fix all (l : list value) : Forall P l :=
            match l with
            | [] => Forall_nil P
            | x :: rest => Forall_cons x (value_members_ind x) (all rest)
            end) members)
  end.

End ValueInduction.

(** The compact text of a JSON value. *)
Fixpoint json_text (v : value) : string :=
  match v with
  | VNull => "null"
  | VBool b => if b then "true" else "false"
  | VNumber n => Number_toString n 10
  | VString s => JSON.QuoteJSONString s
  | VArray elems => "[" ++ String.concat "," (map json_text elems) ++ "]"
  | VObject props =>
      "{" ++ String.concat ","
               (map (fun kv => match kv with
                               | (k, x) => JSON.QuoteJSONString k ++ ":" ++ json_text x
                               end) props) ++ "}"
  | _ => ""
  end.

(** Nesting depth; what [SerializeJSONProperty] needs as fuel. *)
Fixpoint depth (v : value) : nat :=
  match v with
  | VArray elems => S (fold_right (fun x d => Nat.max (depth x) d) 1%nat elems)
  | VObject props =>
      S (fold_right (fun kv d => match kv with (_, x) => Nat.max (depth x) d end) 1%nat props)
  | _ => 1%nat
  end.

(** The properties are listed as an object enumerates them: defining them
    one after the other on an empty object gives the same list. *)
Definition enumeration_order (props : list (string * value)) : Prop :=
  fold_left define_property props [] = props.

(** A tree of objects and arrays over JSON scalars: [null], booleans,
    strings and (safe-integer) Numbers, each scalar satisfying [scalar]. *)
Fixpoint json_tree (scalar : value -> Prop) (v : value) : Prop :=
  match v with
  | VNull | VBool _ | VString _ => scalar v
  | VNumber (Int z) => safe_integer z /\ scalar v
  | VArray elems => fold_right (fun x rest => json_tree scalar x /\ rest) True elems
  | VObject props =>
      enumeration_order props
      /\ fold_right (fun kv rest => match kv with (_, x) => json_tree scalar x /\ rest end)
           True props
  | _ => False
  end.

(** ** Reading a text back *)

(** What may follow a value inside a compact text. *)
Definition delimited (rest : string) : Prop :=
  match rest with
  | EmptyString => True
  | String c _ => c = ","%char \/ c = "]"%char \/ c = "}"%char
  end.

(** [parse_value] reads [v] back from its compact text, whatever follows. *)
Definition reads_back (v : value) : Prop :=
  forall fuel rest,
    (String.length (json_text v) <= fuel)%nat -> delimited rest ->
    JSON.parse_value fuel (json_text v ++ rest) = Ok (v, rest).

Definition member_text (kv : string * value) : string :=
  match kv with
  | (k, x) => JSON.QuoteJSONString k ++ ":" ++ json_text x
  end.

(** ** The two passes on a JSON tree *)

(** [tagged x] is the tagged string the encode pass writes in place of a
    member [x], if it replaces it; [encode_member] is the member after
    one call of the pass. *)
Definition encode_member (tagged : value -> option string) (x : value) : value :=
  match tagged x with
  | Some s => VString s
  | None => x
  end.

(** One call of the encode pass on [v]. *)
Definition encode_members (tagged : value -> option string) (v : value) : value :=
  match v with
  | VArray elems => VArray (map (encode_member tagged) elems)
  | VObject props => VObject (map (fun kv => (fst kv, encode_member tagged (snd kv))) props)
  | _ => v
  end.

(** The tree as [stringify] leaves it: every member of every object and
    array encoded. *)
Fixpoint encode (tagged : value -> option string) (v : value) : value :=
  match v with
  | VArray elems =>
      VArray (map (fun x => match tagged x with Some s => VString s | None => encode tagged x end) elems)
  | VObject props =>
      VObject (map (fun kv => match kv with
                              | (k, x) => (k, match tagged x with
                                              | Some s => VString s
                                              | None => encode tagged x
                                              end)
                              end) props)
  | _ => v
  end.

Definition encode_deep (tagged : value -> option string) (x : value) : value :=
  match tagged x with
  | Some s => VString s
  | None => encode tagged x
  end.

(** [SerializeJSONProperty] with hook [R] writes the member [x] as the
    compact text of its encoding, and leaves it encoded. *)
Definition serializes (tagged : value -> option string) (R : string -> value -> res value)
    (f : nat) (x : value) : Prop :=
  forall indent key,
    JSON.SerializeJSONProperty R "" f indent key (encode_member tagged x)
    = Ok (Some (json_text (encode_deep tagged x)), encode_deep tagged x).

(** The properties with [g] applied to every value. *)
Definition map_values (g : value -> value) (props : list (string * value))
  : list (string * value) :=
  map (fun kv => (fst kv, g (snd kv))) props.

(** No tag of [entries] is a prefix of [s]. *)
Definition untagged (entries : list Reviver.entry) (s : string) : bool :=
  forallb (fun e => negb (startsWith s (Reviver.tag e))) entries.

(** What the standard entries do to a member of a JSON tree: a Number
    becomes "(00)" and its base-36 digits, nothing else is replaced. *)
Definition std_tagged (x : value) : option string :=
  match x with
  | VNumber n => Some ("(00)" ++ Number_toString n 36)
  | _ => None
  end.

(** The scalars that come back through the standard entries: a Number other
    than zero, a string that does not begin with a standard tag. *)
Definition standard_scalar (v : value) : Prop :=
  match v with
  | VNumber (Int z) => z <> 0
  | VString s => untagged (revivers activated) s = true
  | _ => True
  end.

(** ** Scenarios *)

(** A string in double quotes, character for character. *)
Definition quoted (s : string) : string := String dquote (s ++ str1 dquote).

Definition example_input (d : Z) : value :=
  VObject [("age", VNumber (Int 27)); ("when", VDate (Int d))].

Definition example_encoded (d : Z) : value :=
  VObject [("age", VString "(00)r"); ("when", VString ("(03)" ++ Number_toString (Int d) 36))].

(** [{"age":"(00)r","when":"(03)<base-36 digits of d>"}] *)
Definition example_text (d : Z) : string :=
  "{" ++ quoted "age" ++ ":" ++ quoted "(00)r" ++ ","
      ++ quoted "when" ++ ":" ++ quoted ("(03)" ++ Number_toString (Int d) 36) ++ "}".

(** The reviver function of a standard entry on the string its replacer
    function produces ([success], as [tag + success] turns it into text),
    the class being in state [st]. *)
Definition codec_round_trip (st : registry) (fuel : nat) (s : standard) (x : value)
  : res value :=
  let tj := snd (TJSON st fuel) in
  (success <- std_replacer s tj x ;;
   text <- ToString success ;;
   std_reviver s tj (VString text))%res.

(** The Map and the Set of the README, about a Date [d]. *)
Definition example_map (d : Z) : value :=
  VMap [(VString "date", VDate (Int d)); (VNumber (Int 12), VRegExp "so cool" "i")].

Definition example_set (d : Z) : res value :=
  new_Set (VArray [VString "item"; VNumber (Int 12); VString "item"; VDate (Int d);
                   VNumber (Int 12)]).



(** Members of the object the README serialises, about the Date it shows
    as [kd48yjwi], and the object as [stringify] leaves it, member for
    member as the README prints it. *)
Definition README_object : value :=
  VObject [("bool", VBool false); ("null", VNull); ("big", VBigInt (-10));
           ("set", VSet [VString "item"; VNumber (Int 12); VDate (Int 1595838366018)]);
           ("map", VMap [(VString "date", VDate (Int 1595838366018))]);
           ("alias", VString "iljucha"); ("age", VNumber (Int 27));
           ("reg", VRegExp "nice" "gim"); ("date", VDate (Int 1595838366018));
           ("arr", VArray [VString "iljucha"; VNumber (Int 27); VRegExp "so cool" "i";
                           VDate (Int 1595838366018)])].

Definition README_encoded : value :=
  VObject [("bool", VBool false); ("null", VNull); ("big", VString "(01)-10");
           ("set", VString ("(05)[" ++ quoted "item" ++ "," ++ quoted "(00)c" ++ ","
                              ++ quoted "(03)kd48yjwi" ++ "]"));
           ("map", VString ("(04)[[" ++ quoted "date" ++ "," ++ quoted "(03)kd48yjwi" ++ "]]"));
           ("alias", VString "iljucha"); ("age", VString "(00)r");
           ("reg", VString "(02)nice___flags___gim"); ("date", VString "(03)kd48yjwi");
           ("arr", VArray [VString "iljucha"; VString "(00)r";
                           VString "(02)so cool___flags___i"; VString "(03)kd48yjwi"])].

(** ** More of the registry *)

(** The entries [activateStandards] pushes for a standard. *)
Definition std_replacer_entry (s : standard) : Replacer.entry :=
  {| Replacer.tag := std_tag s; Replacer.check := std_check s; Replacer.exec := std_replacer s |}.

Definition std_reviver_entry (s : standard) : Reviver.entry :=
  {| Reviver.tag := std_tag s; Reviver.exec := std_reviver s |}.

(** The registry with the entries of [l] pushed on both arrays. *)
Definition registered (l : list standard) (st : registry) : registry :=
  {| replacers := replacers st ++ map std_replacer_entry l;
     revivers := revivers st ++ map std_reviver_entry l |}.

(** [typeof a === "function"] *)
Definition is_function (a : jsarg) : bool :=
  match a with
  | AFun _ => true
  | AVal _ => false
  end.

(** [entry.check = f], [entry.exec = f] *)
Definition with_check (f : callable) (e : Replacer.entry) : Replacer.entry :=
  {| Replacer.tag := Replacer.tag e; Replacer.check := f; Replacer.exec := Replacer.exec e |}.

Definition with_exec (f : callable) (e : Replacer.entry) : Replacer.entry :=
  {| Replacer.tag := Replacer.tag e; Replacer.check := Replacer.check e; Replacer.exec := f |}.

Definition with_reviver_exec (f : callable) (e : Reviver.entry) : Reviver.entry :=
  {| Reviver.tag := Reviver.tag e; Reviver.exec := f |}.

(** [l.forEach($ => TJSON.add($.tag).check($.check).replacer($.replacer).reviver($.reviver))];
    [activateStandards] is [activate standards]. *)
Definition activate (l : list standard) : M unit :=
  forEach l (fun s =>
    add_chain (AVal (VString (std_tag s))) (AFun (std_check s))
              (AFun (std_replacer s)) (AFun (std_reviver s))).

(** ** More of the passes *)

(** Entry [e] revives the string [s] as [v]: its tag is a prefix of [s] and
    its function returns the truthy [v] on what follows the tag. *)
Definition revives (tj : TJ) (s : string) (v : value) (e : Reviver.entry) : Prop :=
  startsWith s (Reviver.tag e) = true
  /\ Reviver.exec e tj (VString (slice s (String.length (Reviver.tag e)))) = Ok v
  /\ truthy v = true.

(** Entry [e] is passed over for the string [s]: its tag is no prefix of
    [s], or its function returns a falsy result. *)
Definition passes_over (tj : TJ) (s : string) (e : Reviver.entry) : Prop :=
  startsWith s (Reviver.tag e) = false
  \/ exists r, Reviver.exec e tj (VString (slice s (String.length (Reviver.tag e)))) = Ok r
               /\ truthy r = false.


(** Every character of [s] satisfies [p]. *)
Fixpoint all_chars (p : ascii -> bool) (s : string) : bool :=
  match s with
  | EmptyString => true
  | String c r => p c && all_chars p r
  end.

(** What [parse] makes of a string that begins with "(00)", "(01)" or
    "(03)", from what follows the tag. *)
Definition number_or_string (s : string) : value :=
  match parseInt s 36 with
  | Int z => if z =? 0 then VString ("(00)" ++ s) else VNumber (Int z)
  | NaN => VString ("(00)" ++ s)
  end.

Definition bigint_or_string (s : string) : res value :=
  match StringToBigInt s with
  | Some z => Ok (if z =? 0 then VString ("(01)" ++ s) else VBigInt z)
  | None => Throw (SyntaxError "Cannot convert string to a BigInt")
  end.

(** [s] has an occurrence of [t]. *)
Fixpoint contains (t s : string) : bool :=
  String.prefix t s
  || match s with
     | String _ r => contains t r
     | EmptyString => false
     end.


(** What the standard entries write in place of a member that is a Number,
    a BigInt, a RegExp or a Date; [0n] is left as it is. *)
Definition std_tagged_member (x : value) : option string :=
  match x with
  | VNumber n => Some ("(00)" ++ Number_toString n 36)
  | VBigInt z => if z =? 0 then None else Some ("(01)" ++ BigInt_toString z)
  | VRegExp source flags => Some ("(02)" ++ source ++ "___flags___" ++ flags)
  | VDate time => Some ("(03)" ++ Number_toString time 36)
  | _ => None
  end.

(** The leaves the standard entries encode or leave to [JSON]: [null], a
    boolean, a string that does not begin with a standard tag, a Number
    ([NaN] or a safe integer), a BigInt other than [0n], a Date, and a RegExp
    that is one the constructor builds from its own source and flags and has
    no "___flags" in its source. *)
Definition encodable_leaf (v : value) : Prop :=
  match v with
  | VNull | VBool _ => True
  | VString s => untagged (revivers activated) s = true
  | VNumber NaN => True
  | VNumber (Int z) => safe_integer z
  | VBigInt z => z <> 0
  | VRegExp source flags =>
      RegExp source flags = Ok (VRegExp source flags) /\ contains "___flags" source = false
  | VDate NaN => True
  | VDate (Int t) => valid_time t
  | _ => False
  end.

(** Those of them that are no Number [0] or [NaN] and no invalid Date. *)
Definition standard_leaf (v : value) : Prop :=
  encodable_leaf v
  /\ match v with
     | VNumber (Int z) => z <> 0
     | VNumber NaN | VDate NaN => False
     | _ => True
     end.

(** A tree of objects and arrays over leaves that satisfy [leaf]. *)
Fixpoint tree_of (leaf : value -> Prop) (v : value) : Prop :=
  match v with
  | VArray elems => fold_right (fun x rest => tree_of leaf x /\ rest) True elems
  | VObject props =>
      enumeration_order props
      /\ fold_right (fun kv rest => match kv with (_, x) => tree_of leaf x /\ rest end)
           True props
  | _ => leaf v
  end.

Definition typed_tree (v : value) : Prop := tree_of standard_leaf v.

(** What comes back for a leaf: [NaN] as [30191], the Number [0] as the
    string "(00)0", an invalid Date as the Date of [30191]; every other leaf
    as it was. *)
Definition restored_leaf (x : value) : value :=
  match x with
  | VNumber NaN => VNumber (Int 30191)
  | VNumber (Int z) => if z =? 0 then VString "(00)0" else x
  | VDate NaN => VDate (Int 30191)
  | _ => x
  end.

Fixpoint restored (v : value) : value :=
  match v with
  | VArray elems => VArray (map restored elems)
  | VObject props => VObject (map (fun kv => match kv with (k, x) => (k, restored x) end) props)
  | _ => restored_leaf v
  end.

(** The members as a Set holds them: adding them one after the other to an
    empty Set gives the same list. *)
Definition distinct_members (members : list value) : Prop :=
  fold_left Set_add members [] = members.

(** The entries as a Map holds them: setting them one after the other on an
    empty Map gives the same list. *)
Definition distinct_keys (entries : list (value * value)) : Prop :=
  fold_left (fun acc kx => Map_set acc (fst kx) (snd kx)) entries [] = entries.

(** The object and the array of the README's kinds of members. *)
Definition typed_sample : value :=
  VObject [("bool", VBool false); ("null", VNull); ("big", VBigInt (-10));
           ("alias", VString "iljucha"); ("age", VNumber (Int 27));
           ("reg", VRegExp "nice" "gim"); ("date", VDate (Int 1595838366018));
           ("arr", VArray [VString "iljucha"; VNumber (Int 27); VRegExp "so cool" "i";
                           VDate (Int 1595838366018)])].

Definition lossy_sample : value :=
  VArray [VNumber NaN; VNumber (Int 0); VDate NaN; VNumber (Int 27)].

(** Any value but a Number. *)
Definition plain_scalar (v : value) : Prop :=
  match v with
  | VNumber _ => False
  | _ => True
  end.

(** * Properties *)

(** ** The registry *)

Ltac run_M :=
  unfold add_chain, add, add_check, add_replacer, add_reviver, modify, modify_check,
    modify_replacer, modify_reviver, remove, find, bind, ret, throw, lift, get, put in *;
  simpl in *.

Lemma indexOf_find_range {A} (p : A -> bool) (arr : list A) :
  -1 <= indexOf_find p arr < Z.of_nat (List.length arr).
Proof.
  induction arr as [|x rest IH]; simpl; [lia|].
  destruct (p x); [lia|].
  destruct (indexOf_find p rest <? 0) eqn:E; lia.
Qed.

Lemma indexOf_find_hit {A} (p : A -> bool) (arr : list A) :
  (indexOf_find p arr >=? 0) = existsb p arr.
Proof.
  induction arr as [|x rest IH]; simpl; [reflexivity|].
  destruct (p x); simpl; [reflexivity|].
  rewrite <- IH. pose proof (indexOf_find_range p rest).
  destruct (indexOf_find p rest <? 0) eqn:E; lia.
Qed.

Lemma has_tag_In (t : string) (reps : list Replacer.entry) :
  existsb (fun e => Replacer.tag e =? t)%string reps = true <-> In t (map Replacer.tag reps).
Proof.
  rewrite existsb_exists, in_map_iff. split.
  - intros (e & He & Ht). apply String.eqb_eq in Ht. now exists e.
  - intros (e & Ht & He). exists e. split; [assumption|]. now apply String.eqb_eq.
Qed.

(** What [find] computes: a hit exactly when [TJSON.replacers] has the tag;
    [TJSON.revivers] is never read. *)
Lemma find_string (t : string) (st : registry) :
  find (AVal (VString t)) st =
  (Ok (let i := indexOf_find (fun e => Replacer.tag e =? t)%string (replacers st) in
       if existsb (fun e => Replacer.tag e =? t)%string (replacers st)
       then Some (i, i) else None), st).
Proof.
  run_M. rewrite andb_diag, indexOf_find_hit. now destruct (existsb _ _).
Qed.

Lemma find_keeps_registry (tag : jsarg) (st : registry) : snd (find tag st) = st.
Proof.
  destruct tag as [f|v]; [reflexivity|].
  destruct v; try reflexivity. now rewrite find_string.
Qed.

Lemma splice_nothing {A} (arr : list A) (start : Z) : splice arr start 0 = arr.
Proof.
  unfold splice.
  set (len := Z.of_nat (List.length arr)).
  set (from := if start <? 0 then Z.max (len + start) 0 else Z.min start len).
  assert (0 <= from <= len) by (subst from; destruct (start <? 0) eqn:E; lia).
  replace (Z.min (Z.max 0 0) (len - from)) with 0 by lia.
  rewrite Z.add_0_r. apply firstn_skipn.
Qed.

(** [remove] never changes the registry, whatever it returns or throws. *)
Lemma remove_keeps_registry (tag : jsarg) (st : registry) : snd (remove tag st) = st.
Proof.
  unfold remove, bind.
  pose proof (find_keeps_registry tag st) as Hf.
  destruct (find tag st) as [[[[i j]|]|e] st']; simpl in Hf; subst st'; try reflexivity.
  destruct (truthy_index i && truthy_index j); [|reflexivity].
  unfold get, put, bind. simpl. rewrite !splice_nothing. now destruct st.
Qed.

Lemma activateStandards_fresh :
  activateStandards initial = (Ok tt, activated)
  /\ replacer_tags activated = ["(00)"; "(01)"; "(02)"; "(03)"; "(04)"; "(05)"]
  /\ reviver_tags activated = ["(00)"; "(01)"; "(02)"; "(03)"; "(04)"; "(05)"].
Proof. repeat split. Qed.

(** *** find *)

(** C5, at the failing input: with a replacer entry for "(10)" and no
    reviver entry at all, [find("(10)")] is a hit, the pair [0, 0]; its
    second index is looked up in [TJSON.replacers] too. *)
Theorem find_hit_without_reviver :
  fst (find_after_half_chain initial) = Ok (Some (0, 0))
  /\ replacer_tags (snd (find_after_half_chain initial)) = ["(10)"]
  /\ reviver_tags (snd (find_after_half_chain initial)) = [].
Proof. repeat split. Qed.

(** The other half of C5 holds: without a replacer entry there is no hit,
    whatever [TJSON.revivers] holds. *)
Lemma find_miss_without_replacer (t : string) (st : registry) :
  ~ In t (replacer_tags st) -> find (AVal (VString t)) st = (Ok None, st).
Proof.
  intros H. rewrite find_string.
  destruct (existsb _ _) eqn:E; [|reflexivity].
  apply has_tag_In in E. contradiction.
Qed.

Lemma find_hit_with_replacer (t : string) (st : registry) :
  In t (replacer_tags st) ->
  exists i, find (AVal (VString t)) st = (Ok (Some (i, i)), st).
Proof.
  intros H. rewrite find_string. apply has_tag_In in H. rewrite H. eauto.
Qed.

(** *** remove *)

(** C4, at the failing inputs: after [TJSON.activateStandards()],
    [TJSON.remove("(01)")] returns normally and the entries tagged "(01)" are
    still in both arrays ([splice(index, 0)] deletes nothing); so does
    [TJSON.remove("(00)")], the call of the method's own example (index [0]
    is falsy, the [splice] calls are not reached).  The registry is what it
    was. *)
Theorem remove_leaves_entry :
  remove (AVal (VString "(01)")) activated = (Ok tt, activated)
  /\ In "(01)" (replacer_tags activated) /\ In "(01)" (reviver_tags activated)
  /\ remove (AVal (VString "(00)")) activated = (Ok tt, activated)
  /\ In "(00)" (replacer_tags activated) /\ In "(00)" (reviver_tags activated).
Proof.
  split; [reflexivity|]. split; [simpl; auto|]. split; [simpl; auto|].
  split; [reflexivity|]. split; simpl; auto.
Qed.

(** C10: when [find(tag)] returns [undefined], [remove(tag)] throws a
    [TypeError] (it destructures the [undefined]) and the registry is
    unchanged. *)
Theorem remove_unknown_tag_throws (tag : jsarg) (st : registry) :
  fst (find tag st) = Ok None ->
  exists msg, remove tag st = (Throw (TypeError msg), st).
Proof.
  intros H. unfold remove, bind.
  pose proof (find_keeps_registry tag st) as Hst.
  destruct (find tag st) as [r st']. simpl in *. subst. simpl.
  unfold throw. eexists. reflexivity.
Qed.

Lemma remove_unknown_tag_throws_witness :
  exists msg, remove (AVal (VString "(99)")) activated = (Throw (TypeError msg), activated).
Proof. apply remove_unknown_tag_throws. reflexivity. Defined.

(** *** add *)

(** C7: once a tag has its replacer entry and its reviver entry, [add] of
    that tag throws [Error("Replacer/ Reviver already exists")] and the
    registry is unchanged. *)
Theorem add_registered_tag_throws (t : string) (st : registry) :
  In t (replacer_tags st) ->
  In t (reviver_tags st) ->
  add (AVal (VString t)) st = (Throw (Error "Replacer/ Reviver already exists"), st).
Proof.
  intros Hrep _. unfold add, bind, lift. simpl.
  destruct (find_hit_with_replacer t st Hrep) as [i Hi]. now rewrite Hi.
Qed.

Lemma add_registered_tag_throws_witness :
  add (AVal (VString "(00)")) activated
  = (Throw (Error "Replacer/ Reviver already exists"), activated).
Proof. apply add_registered_tag_throws; simpl; auto. Defined.

(** The same after any chain that ran to its end. *)
Lemma add_twice_throws (t : string) (c r v : jsarg) (st st' : registry) :
  add_chain (AVal (VString t)) c r v st = (Ok tt, st') ->
  add (AVal (VString t)) st' = (Throw (Error "Replacer/ Reviver already exists"), st').
Proof.
  intros H. unfold add_chain, add, add_check, add_replacer, add_reviver, bind, lift in H.
  simpl in H. rewrite find_string in H.
  destruct (existsb _ (replacers st)); [discriminate|].
  destruct c as [c|c]; [|discriminate]. destruct r as [r|r]; [|discriminate].
  destruct v as [v|v]; [|discriminate].
  unfold get, put, ret in H. simpl in H. injection H as <-.
  apply add_registered_tag_throws; unfold replacer_tags, reviver_tags; simpl;
    rewrite map_app; apply in_or_app; right; simpl; auto.
Qed.

(** *** Uniqueness of tags *)

(** C6 as stated fails: every call of the interleaved chains returns
    normally, and both arrays end with two entries tagged "(10)". *)
Lemma interleaved_chains_duplicate_tag :
  fst (interleaved_chains initial) = Ok tt
  /\ replacer_tags (snd (interleaved_chains initial)) = ["(10)"; "(10)"]
  /\ reviver_tags (snd (interleaved_chains initial)) = ["(10)"; "(10)"]
  /\ ~ unique_tags (snd (interleaved_chains initial)).
Proof.
  repeat split. intros [H _]. simpl in H.
  inversion H as [|x l Hin Hl]; subst. apply Hin. simpl. auto.
Qed.

Lemma preserves_bind {A B} (P : registry -> Prop) (m : M A) (k : A -> M B) :
  preserves P m -> (forall a, preserves P (k a)) -> preserves P (bind m k).
Proof.
  intros Hm Hk st HP. unfold bind. specialize (Hm st HP).
  destruct (m st) as [[a|e] st']; simpl in *; [now apply Hk | assumption].
Qed.

Lemma preserves_same {A} (P : registry -> Prop) (m : M A) :
  (forall st, snd (m st) = st) -> preserves P m.
Proof. intros H st HP. now rewrite H. Qed.

Lemma NoDup_snoc {A} (l : list A) (x : A) : NoDup l -> ~ In x l -> NoDup (l ++ [x]).
Proof.
  intros Hl Hx. induction Hl as [|y l Hy Hl IH]; simpl.
  - constructor; [intros []|constructor].
  - constructor.
    + rewrite in_app_iff. simpl. intros [H|[H|[]]]; [contradiction|].
      subst. apply Hx. simpl. auto.
    + apply IH. intros H. apply Hx. simpl. auto.
Qed.

Lemma add_chain_preserves (tag c r v : jsarg) : preserves chained_inv (add_chain tag c r v).
Proof.
  intros st (Hrep & Hrev & Hincl).
  assert (Hst : chained_inv st) by (repeat split; assumption).
  unfold add_chain, add, bind, lift.
  destruct (isString tag) as [t|e] eqn:Et; [|exact Hst].
  destruct tag as [f|tv]; [discriminate|]. destruct tv; try discriminate.
  injection Et as ->. rewrite find_string.
  destruct (existsb _ (replacers st)) eqn:Ehit; [exact Hst|].
  assert (Hnew : ~ In t (replacer_tags st)).
  { intros H. apply has_tag_In in H. congruence. }
  unfold ret, add_check, add_replacer, add_reviver, bind, lift, get, put. simpl.
  destruct c as [c|c]; [|exact Hst]. simpl.
  destruct r as [r|r]; [|exact Hst]. simpl.
  assert (Hrep' : NoDup (replacer_tags st ++ [t])) by now apply NoDup_snoc.
  destruct v as [v|v]; simpl; unfold chained_inv, replacer_tags, reviver_tags in *; simpl;
    rewrite ?map_app; simpl.
  - repeat split; [assumption| |].
    + apply NoDup_snoc; [assumption|]. intros H. apply Hnew, Hincl, H.
    + intros x Hx. rewrite in_app_iff in *. simpl in *.
      destruct Hx as [Hx|Hx]; [left; now apply Hincl | now right].
  - repeat split; [assumption|assumption|].
    intros x Hx. rewrite in_app_iff. left. now apply Hincl.
Qed.

Lemma update_at_map {A B} (g : A -> B) (f : A -> A) (arr arr' : list A) (i : nat) :
  (forall x, g (f x) = g x) -> update_at arr i f = Ok arr' -> map g arr' = map g arr.
Proof.
  intros Hg. revert arr' i. induction arr as [|x rest IH]; intros arr' i H.
  - destruct i; discriminate.
  - destruct i as [|j]; simpl in H.
    + injection H as <-. simpl. now rewrite Hg.
    + destruct (update_at rest j f) as [rest'|e] eqn:E; [|discriminate].
      simpl in H. injection H as <-. simpl. f_equal. now apply (IH rest' j).
Qed.

Lemma modify_same (tag : jsarg) (st : registry) : snd (modify tag st) = st.
Proof.
  unfold modify, bind, lift. destruct (isString tag); [|reflexivity].
  pose proof (find_keeps_registry tag st) as H.
  destruct (find tag st) as [[[ix|]|e] st']; simpl in *; now subst.
Qed.

Lemma same_tags_inv (st st' : registry) : same_tags st st' -> chained_inv st -> chained_inv st'.
Proof. intros [H1 H2]. unfold chained_inv. now rewrite H1, H2. Qed.

Lemma modify_check_tags (b : modify_builder) (exec : jsarg) (st : registry) :
  same_tags st (snd (modify_check b exec st)).
Proof.
  unfold modify_check, bind, lift, get, put. destruct (isFunction exec); [|now split]. simpl.
  destruct (update_at (replacers st) _ _) as [reps|e] eqn:E; [|now split]. simpl.
  rewrite modify_same. split; [|reflexivity].
  unfold replacer_tags. simpl. eapply update_at_map; [|exact E]. reflexivity.
Qed.

Lemma modify_replacer_tags (b : modify_builder) (exec : jsarg) (st : registry) :
  same_tags st (snd (modify_replacer b exec st)).
Proof.
  unfold modify_replacer, bind, lift, get, put. destruct (isFunction exec); [|now split]. simpl.
  destruct (update_at (replacers st) _ _) as [reps|e] eqn:E; [|now split]. simpl.
  rewrite modify_same. split; [|reflexivity].
  unfold replacer_tags. simpl. eapply update_at_map; [|exact E]. reflexivity.
Qed.

Lemma modify_reviver_tags (b : modify_builder) (exec : jsarg) (st : registry) :
  same_tags st (snd (modify_reviver b exec st)).
Proof.
  unfold modify_reviver, bind, lift, get, put. destruct (isFunction exec); [|now split]. simpl.
  destruct (update_at (revivers st) _ _) as [revs|e] eqn:E; [|now split]. simpl.
  rewrite modify_same. split; [reflexivity|].
  unfold reviver_tags. simpl. eapply update_at_map; [|exact E]. reflexivity.
Qed.

Lemma modify_chain_preserves (tag : jsarg) (edits : list (field * jsarg)) :
  preserves chained_inv (modify_chain tag edits).
Proof.
  apply preserves_bind; [apply preserves_same, modify_same|].
  intros b. revert b. induction edits as [|[f x] rest IH]; intros b.
  - now apply preserves_same.
  - simpl. apply preserves_bind; [|apply IH].
    intros st Hst. eapply same_tags_inv; [|exact Hst].
    destruct f; [apply modify_check_tags|apply modify_replacer_tags|apply modify_reviver_tags].
Qed.

Lemma forEach_preserves {A} (P : registry -> Prop) (arr : list A) (f : A -> M unit) :
  (forall x, preserves P (f x)) -> preserves P (forEach arr f).
Proof.
  intros Hf. induction arr as [|x rest IH]; simpl.
  - now apply preserves_same.
  - apply preserves_bind; [apply Hf|intros _; exact IH].
Qed.

Lemma run_call_preserves (c : call) : preserves chained_inv (run_call c).
Proof.
  destruct c; simpl.
  - apply add_chain_preserves.
  - apply modify_chain_preserves.
  - apply preserves_same, remove_keeps_registry.
  - apply forEach_preserves. intros s. apply add_chain_preserves.
Qed.

(** C6, as the code has it: along every sequence of calls of the public
    interface from the fresh class in which each chain is one expression
    ([add(t).check(c).replacer(r).reviver(v)], [modify(t)...], [remove(t)],
    [activateStandards()]), whichever of them throw, no two entries of
    [TJSON.replacers] share a tag and no two entries of [TJSON.revivers] do. *)
Theorem chained_calls_unique_tags (calls : list call) : unique_tags (run_calls calls initial).
Proof.
  assert (H : chained_inv (run_calls calls initial)).
  { unfold run_calls. assert (H0 : chained_inv initial).
    { repeat split; try constructor. intros x []. }
    revert H0. generalize initial. induction calls as [|c rest IH]; intros st Hst; simpl.
    - exact Hst.
    - apply IH. now apply run_call_preserves. }
  destruct H as (H1 & H2 & _). now split.
Qed.

(** ** The encode pass *)


Lemma replace_member_accept (tj : TJ) (e : Replacer.entry) (rest : list Replacer.entry)
    (x : value) (text : string) :
  accepts tj e x text ->
  replace_member tj (e :: rest) x = Ok (VString (Replacer.tag e ++ text)).
Proof.
  intros (c & s & Hc & Tc & Hs & Ts & Ht). simpl.
  rewrite Hc. simpl. rewrite Tc, Hs. simpl. rewrite Ts, Ht. reflexivity.
Qed.

Lemma replace_member_decline (tj : TJ) (e : Replacer.entry) (rest : list Replacer.entry)
    (x : value) :
  declines tj e x -> replace_member tj (e :: rest) x = replace_member tj rest x.
Proof.
  intros (c & Hc & [Tc|(s & Hs & Ts)]); simpl; rewrite Hc; simpl.
  - now rewrite Tc.
  - destruct (truthy c); [|reflexivity]. rewrite Hs. simpl. now rewrite Ts.
Qed.

(** The first entry that matches decides, whatever stands behind it. *)
Lemma replace_member_first_match (tj : TJ) (before : list Replacer.entry) (e : Replacer.entry)
    (behind : list Replacer.entry) (x : value) (text : string) :
  Forall (fun e0 => declines tj e0 x) before ->
  accepts tj e x text ->
  replace_member tj (before ++ e :: behind) x = Ok (VString (Replacer.tag e ++ text)).
Proof.
  intros Hb He. induction Hb as [|e0 before H0 _ IH]; simpl app.
  - now apply replace_member_accept.
  - now rewrite replace_member_decline.
Qed.





(** ** stringify changes its argument *)


Lemma nth_error_diff {A} (l l' : list A) (i : nat) (a b : A) :
  nth_error l i = Some a -> nth_error l' i = Some b -> a <> b -> l' <> l.
Proof. intros Ha Hb Hab ->. congruence. Qed.



(** ** Digits *)

Lemma code_chr (z : Z) : 0 <= z < 256 -> code (chr z) = z.
Proof.
  intros H. unfold code, chr. rewrite nat_ascii_embedding by lia. lia.
Qed.

Lemma digit_cases (d : Z) : 0 <= d < 36 ->
  In d [0; 1; 2; 3; 4; 5; 6; 7; 8; 9; 10; 11; 12; 13; 14; 15; 16; 17; 18; 19; 20; 21; 22; 23;
        24; 25; 26; 27; 28; 29; 30; 31; 32; 33; 34; 35].
Proof.
  intros H. simpl.
  assert (E : d = 0 \/ d = 1 \/ d = 2 \/ d = 3 \/ d = 4 \/ d = 5 \/ d = 6 \/ d = 7 \/ d = 8
              \/ d = 9 \/ d = 10 \/ d = 11 \/ d = 12 \/ d = 13 \/ d = 14 \/ d = 15 \/ d = 16
              \/ d = 17 \/ d = 18 \/ d = 19 \/ d = 20 \/ d = 21 \/ d = 22 \/ d = 23 \/ d = 24
              \/ d = 25 \/ d = 26 \/ d = 27 \/ d = 28 \/ d = 29 \/ d = 30 \/ d = 31 \/ d = 32
              \/ d = 33 \/ d = 34 \/ d = 35) by lia.
  repeat (destruct E as [E|E]; [subst; auto 40|]). subst; auto 40.
Qed.

(** A property of every digit character, checked digit by digit. *)
Lemma digit_char_all (P : ascii -> Prop) :
  Forall (fun d => P (digit_char d))
    [0; 1; 2; 3; 4; 5; 6; 7; 8; 9; 10; 11; 12; 13; 14; 15; 16; 17; 18; 19; 20; 21; 22; 23;
     24; 25; 26; 27; 28; 29; 30; 31; 32; 33; 34; 35] ->
  forall d, 0 <= d < 36 -> P (digit_char d).
Proof.
  intros H d Hd. rewrite Forall_forall in H. apply (H d). now apply digit_cases.
Qed.

Lemma digit_value_char (d : Z) : 0 <= d < 36 -> digit_value (digit_char d) = Some d.
Proof.
  intros H. unfold digit_value, digit_char.
  destruct (d <? 10) eqn:E; rewrite code_chr by lia.
  - replace ((48 <=? 48 + d) && (48 + d <=? 57)) with true by lia. f_equal. lia.
  - replace ((48 <=? 87 + d) && (87 + d <=? 57)) with false by lia.
    replace ((97 <=? 87 + d) && (87 + d <=? 122)) with true by lia. f_equal. lia.
Qed.

Section Radix.

Variable radix : Z.
Hypothesis radix_range : 2 <= radix <= 36.

Lemma read_digit (d : Z) (rest : string) (acc : option Z) :
  0 <= d < radix ->
  read_digits radix (String (digit_char d) rest) acc
  = read_digits radix rest (Some (acc_value acc * radix + d)).
Proof.
  intros H. simpl. rewrite digit_value_char by lia.
  replace (d <? radix) with true by lia. destruct acc; simpl; [reflexivity|].
  f_equal.
Qed.

(** Reading back what [to_digits] wrote. *)
Lemma read_to_digits (fuel : nat) :
  forall (n : Z) (rest : string) (acc : option Z),
    0 <= n < radix ^ Z.of_nat (S fuel) ->
    read_digits radix (to_digits (S fuel) radix n rest) acc
    = read_digits radix rest
        (Some (acc_value acc * radix ^ Z.of_nat (digit_count radix (S fuel) n) + n)).
Proof.
  induction fuel as [|f IH]; intros n rest acc Hn;
    assert (Hmod : 0 <= n mod radix < radix) by (apply Z.mod_pos_bound; lia);
    assert (Hdiv : n = radix * (n / radix) + n mod radix) by (apply Z.div_mod; lia);
    rewrite Nat2Z.inj_succ, Z.pow_succ_r in Hn by lia.
  - assert (E : n / radix = 0) by (apply Z.div_small; simpl in Hn; lia).
    cbn [to_digits digit_count]. rewrite E. cbn [Z.eqb].
    rewrite read_digit by assumption. do 2 f_equal.
    change (Z.of_nat 1) with 1. rewrite Z.pow_1_r. lia.
  - remember (S f) as f1 eqn:Ef1. cbn [to_digits digit_count].
    destruct (n / radix =? 0) eqn:E.
    + rewrite read_digit by assumption. do 2 f_equal.
      change (Z.of_nat 1) with 1. rewrite Z.pow_1_r. lia.
    + subst f1. rewrite IH.
      * rewrite read_digit by assumption. cbn [acc_value]. do 2 f_equal.
        rewrite (Nat2Z.inj_succ (digit_count _ _ _)), Z.pow_succ_r by lia. lia.
      * split; [apply Z.div_pos; lia|].
        apply Z.div_lt_upper_bound; lia.
Qed.

Lemma digits_fuel_enough (n : Z) : 0 <= n -> n < radix ^ Z.of_nat (digits_fuel n).
Proof.
  intros H. unfold digits_fuel.
  rewrite Nat2Z.inj_succ, Z2Nat.id by apply Z.log2_nonneg.
  apply Z.lt_le_trans with (2 ^ Z.succ (Z.log2 n)).
  - destruct (Z.eq_dec n 0) as [->|]; [reflexivity|]. apply Z.log2_spec. lia.
  - apply Z.pow_le_mono_l. lia.
Qed.

Lemma read_nat_to_string (n : Z) (rest : string) :
  0 <= n ->
  (forall c r, rest = String c r ->
     match digit_value c with Some d => d <? radix | None => false end = false) ->
  read_digits radix (nat_to_string radix n ++ rest) None = (Some n, rest).
Proof.
  intros Hn Hrest. unfold nat_to_string.
  assert (Happ : forall fuel m acc,
             to_digits fuel radix m acc ++ rest = to_digits fuel radix m (acc ++ rest)).
  { induction fuel as [|f IH]; intros m acc; simpl; [reflexivity|].
    destruct (m / radix =? 0); [reflexivity|]. now rewrite IH. }
  rewrite Happ. unfold digits_fuel at 1.
  rewrite read_to_digits by (split; [assumption|now apply digits_fuel_enough]).
  simpl. destruct rest as [|c r]; [reflexivity|].
  simpl. specialize (Hrest c r eq_refl).
  destruct (digit_value c) as [d|]; [|reflexivity]. now rewrite Hrest.
Qed.

(** The first character [to_digits] writes is a digit. *)
Lemma to_digits_head (fuel : nat) (n : Z) (acc : string) :
  0 <= n ->
  exists d s, 0 <= d < radix /\ to_digits (S fuel) radix n acc = String (digit_char d) s.
Proof.
  revert n acc. induction fuel as [|f IH]; intros n acc Hn.
  - simpl. exists (n mod radix).
    assert (0 <= n mod radix < radix) by (apply Z.mod_pos_bound; lia).
    destruct (n / radix =? 0); eexists; (split; [lia|reflexivity]).
  - cbn [to_digits].
    assert (0 <= n mod radix < radix) by (apply Z.mod_pos_bound; lia).
    destruct (n / radix =? 0).
    + exists (n mod radix). eexists. split; [lia|reflexivity].
    + apply (IH (n / radix)). apply Z.div_pos; lia.
Qed.

Lemma nat_to_string_head (n : Z) :
  0 <= n -> exists d s, 0 <= d < radix /\ nat_to_string radix n = String (digit_char d) s.
Proof. intros H. now apply to_digits_head. Qed.

(** [parseInt(n.toString(radix), radix)] is [n], for an integer [n]. *)
Lemma parseInt_toString (z : Z) : parseInt (Number_toString (Int z) radix) radix = Int z.
Proof.
  assert (Hread : forall n, 0 <= n -> read_digits radix (nat_to_string radix n) None
                                      = (Some n, "")).
  { intros n Hn. rewrite <- (read_nat_to_string n "") by (assumption || discriminate).
    f_equal. clear. induction (nat_to_string radix n); simpl; congruence. }
  assert (Hplain : forall n, 0 <= n ->
            parseInt (nat_to_string radix n) radix = Int n).
  { intros n Hn. destruct (nat_to_string_head n Hn) as (d & s & Hd & E).
    unfold parseInt. rewrite E.
    assert (Hc : forall d0, 0 <= d0 < 36 ->
                 is_str_whitespace (digit_char d0) = false
                 /\ digit_char d0 <> "-"%char /\ digit_char d0 <> "+"%char).
    { apply (digit_char_all (fun c => is_str_whitespace c = false
                               /\ c <> "-"%char /\ c <> "+"%char)).
      repeat constructor; discriminate. }
    destruct (Hc d ltac:(lia)) as (Hws & Hm & Hp). cbn [skip_str_whitespace]. rewrite Hws.
    assert (Hsign : match String (digit_char d) s with
                    | String "-" r => (true, r)
                    | String "+" r => (false, r)
                    | _ => (false, String (digit_char d) s)
                    end = (false, String (digit_char d) s)).
    { destruct (digit_char d) as [[] [] [] [] [] [] [] []]; try reflexivity; congruence. }
    rewrite Hsign, <- E, Hread by assumption. reflexivity. }
  unfold Number_toString. destruct (z <? 0) eqn:E.
  - assert (Hminus : forall s, parseInt (String "-" s) radix
                               = match fst (read_digits radix s None) with
                                 | Some n => Int (- n)
                                 | None => NaN
                                 end) by reflexivity.
    rewrite Hminus, Hread by lia. cbn [fst]. f_equal. lia.
  - apply Hplain. lia.
Qed.

End Radix.

(** ** JSON texts *)

Lemma append_assoc (a b c : string) : (a ++ b) ++ c = a ++ (b ++ c).
Proof. induction a as [|x a IH]; simpl; congruence. Qed.

Lemma append_nil_r (a : string) : a ++ "" = a.
Proof. induction a as [|x a IH]; simpl; congruence. Qed.

Lemma length_append (a b : string) :
  String.length (a ++ b) = (String.length a + String.length b)%nat.
Proof. induction a as [|x a IH]; simpl; congruence. Qed.

(** *** Reading back a string literal *)

Lemma parse_quote_char (c : ascii) (tail : string) :
  JSON.parse_chars (JSON.quote_char c ++ tail)
  = res_bind (JSON.parse_chars tail) (fun '(str, rest) => Ok (String c str, rest)).
Proof.
  destruct c as [[] [] [] [] [] [] [] []]; reflexivity.
Qed.

Lemma parse_quote_chars (s rest : string) :
  JSON.parse_chars (JSON.quote_chars s ++ String dquote rest) = Ok (s, rest).
Proof.
  induction s as [|c s IH]; [reflexivity|].
  simpl JSON.quote_chars. rewrite append_assoc, parse_quote_char, IH. reflexivity.
Qed.

Lemma parse_quoted (s rest : string) :
  exists tail, JSON.QuoteJSONString s ++ rest = String dquote tail
               /\ JSON.parse_chars tail = Ok (s, rest).
Proof.
  exists (JSON.quote_chars s ++ String dquote rest). split.
  - unfold JSON.QuoteJSONString, str1. simpl. now rewrite append_assoc.
  - apply parse_quote_chars.
Qed.

(** *** Reading back a number literal *)

Lemma delimited_no_digit (rest : string) :
  delimited rest ->
  forall c r, rest = String c r ->
    match digit_value c with Some d => d <? 10 | None => false end = false.
Proof.
  intros H c r ->. simpl in H. destruct H as [->|[->| ->]]; reflexivity.
Qed.

(** The first digit of a positive number is not zero. *)
Lemma to_digits_leading (radix : Z) (fuel : nat) (n : Z) (acc : string) :
  2 <= radix <= 36 -> 0 < n < radix ^ Z.of_nat (S fuel) ->
  exists d s, 0 < d < radix /\ to_digits (S fuel) radix n acc = String (digit_char d) s.
Proof.
  intros Hr. revert n acc. induction fuel as [|f IH]; intros n acc Hn;
    assert (Hmod : 0 <= n mod radix < radix) by (apply Z.mod_pos_bound; lia);
    assert (Hdiv : n = radix * (n / radix) + n mod radix) by (apply Z.div_mod; lia);
    assert (Hq : 0 <= n / radix) by (apply Z.div_pos; lia);
    rewrite Nat2Z.inj_succ, Z.pow_succ_r in Hn by lia.
  - assert (E : n / radix = 0) by (apply Z.div_small; simpl in Hn; lia).
    simpl. rewrite E. simpl. exists (n mod radix). eexists. split; [lia|reflexivity].
  - remember (S f) as f1. cbn [to_digits]. destruct (n / radix =? 0) eqn:E.
    + exists (n mod radix). eexists. split; [lia|reflexivity].
    + subst f1. apply IH. split; [lia|]. apply Z.div_lt_upper_bound; lia.
Qed.

Lemma nat_to_string_leading (n : Z) :
  0 < n -> exists d s, 0 < d < 10 /\ nat_to_string 10 n = String (digit_char d) s.
Proof.
  intros H. apply to_digits_leading; [lia|].
  split; [assumption|]. apply (digits_fuel_enough 10); lia.
Qed.

Lemma parse_number_nat (n : Z) (rest : string) :
  0 <= n -> delimited rest ->
  JSON.parse_number (nat_to_string 10 n ++ rest) = Ok (VNumber (Int n), rest)
  /\ JSON.parse_number (String "-" (nat_to_string 10 n ++ rest)) = Ok (VNumber (Int (- n)), rest).
Proof.
  intros Hn Hrest.
  assert (Hend : forall neg : bool,
            match rest with
            | String "." _ | String "e" _ | String "E" _ =>
                Throw (Unmodelled "JSON number with a fraction or an exponent")
            | _ => Ok (VNumber (Int (if neg then - n else n)), rest)
            end = Ok (VNumber (Int (if neg then - n else n)), rest)).
  { intros neg. destruct rest as [|c r]; [reflexivity|].
    simpl in Hrest. destruct Hrest as [->|[->| ->]]; reflexivity. }
  assert (Hint : match nat_to_string 10 n ++ rest with
                 | String "0" r => (Some 0, r)
                 | _ => read_digits 10 (nat_to_string 10 n ++ rest) None
                 end = (Some n, rest)).
  { destruct (Z.eq_dec n 0) as [->|Hpos]; [reflexivity|].
    destruct (nat_to_string_leading n) as (d & s & Hd & E); [lia|].
    rewrite <- (read_nat_to_string 10 ltac:(lia) n rest Hn (delimited_no_digit rest Hrest)).
    rewrite E. simpl append.
    assert (Hc : digit_char d <> "0"%char).
    { assert (Hd' : In d [1; 2; 3; 4; 5; 6; 7; 8; 9]) by (simpl; lia).
      simpl in Hd'. repeat (destruct Hd' as [<-|Hd']; [discriminate|]). destruct Hd'. }
    destruct (digit_char d) as [[] [] [] [] [] [] [] []]; try reflexivity. congruence. }
  split.
  - unfold JSON.parse_number.
    assert (Hsign : match nat_to_string 10 n ++ rest with
                    | String "-" r => (true, r)
                    | _ => (false, nat_to_string 10 n ++ rest)
                    end = (false, nat_to_string 10 n ++ rest)).
    { destruct (nat_to_string_head 10 ltac:(lia) n Hn) as (d & s & Hd & E). rewrite E.
      assert (Hc : forall d0, 0 <= d0 < 36 -> digit_char d0 <> "-"%char).
      { apply (digit_char_all (fun c => c <> "-"%char)). repeat constructor; discriminate. }
      specialize (Hc d ltac:(lia)). simpl append.
      destruct (digit_char d) as [[] [] [] [] [] [] [] []]; try reflexivity. congruence. }
    rewrite Hsign, Hint. apply (Hend false).
  - unfold JSON.parse_number. rewrite Hint. apply (Hend true).
Qed.

Lemma parse_number_text (z : Z) (rest : string) :
  delimited rest ->
  JSON.parse_number (Number_toString (Int z) 10 ++ rest) = Ok (VNumber (Int z), rest).
Proof.
  intros Hrest. unfold Number_toString. destruct (z <? 0) eqn:E.
  - simpl append. rewrite (proj2 (parse_number_nat (- z) rest ltac:(lia) Hrest)).
    now rewrite Z.opp_involutive.
  - apply parse_number_nat; [lia|assumption].
Qed.

(** *** Reading back a compact text *)

Lemma parse_value_number (c : ascii) (s : string) (f : nat) :
  c = "-"%char \/ JSON.is_digit c = true ->
  JSON.parse_value (S f) (String c s) = JSON.parse_number (String c s).
Proof.
  intros [->|H]; [reflexivity|].
  destruct c as [[] [] [] [] [] [] [] []]; try discriminate H; reflexivity.
Qed.

Lemma Number_toString_head (z : Z) :
  exists c s, Number_toString (Int z) 10 = String c s
              /\ (c = "-"%char \/ JSON.is_digit c = true).
Proof.
  unfold Number_toString. destruct (z <? 0) eqn:E.
  - eexists _, _. split; [reflexivity|now left].
  - destruct (nat_to_string_head 10 ltac:(lia) z ltac:(lia)) as (d & s & Hd & Es).
    exists (digit_char d), s. split; [assumption|]. right.
    assert (Hd' : In d [0; 1; 2; 3; 4; 5; 6; 7; 8; 9]) by (simpl; lia).
    simpl in Hd'. repeat (destruct Hd' as [<-|Hd']; [reflexivity|]). destruct Hd'.
Qed.

(** A compact text opens with a character that is neither white space nor
    a closing bracket. *)
Lemma json_text_head (scalar : value -> Prop) (v : value) :
  json_tree scalar v ->
  exists c s, json_text v = String c s
              /\ JSON.is_ws c = false /\ c <> "]"%char /\ c <> "}"%char.
Proof.
  destruct v as [| |b|n|z|s|elems|props|src fl|t|ents|mems]; simpl; try contradiction; intros H.
  - eexists _, _. split; [reflexivity|]. repeat split; discriminate.
  - destruct b; (eexists _, _; split; [reflexivity|]; repeat split; discriminate).
  - destruct n as [|z]; [contradiction|].
    destruct (Number_toString_head z) as (c & s & E & Hc). exists c, s.
    split; [exact E|].
    destruct Hc as [->|Hc]; [repeat split; discriminate|].
    destruct c as [[] [] [] [] [] [] [] []]; try discriminate Hc; repeat split; discriminate.
  - eexists _, _. split; [reflexivity|]. repeat split; discriminate.
  - eexists _, _. split; [reflexivity|]. repeat split; discriminate.
  - eexists _, _. split; [reflexivity|]. repeat split; discriminate.
Qed.

Lemma skip_ws_head (c : ascii) (s : string) :
  JSON.is_ws c = false -> JSON.skip_ws (String c s) = String c s.
Proof. intros H. simpl. now rewrite H. Qed.

Lemma concat_cons2 (sep x : string) (y : string) (l : list string) :
  String.concat sep (x :: y :: l) = x ++ sep ++ String.concat sep (y :: l).
Proof. reflexivity. Qed.

Lemma parse_elements_text (scalar : value -> Prop) (elems : list value) :
  Forall (fun x => json_tree scalar x -> reads_back x) elems ->
  fold_right (fun x rest => json_tree scalar x /\ rest) True elems ->
  elems <> [] ->
  forall fuel rest,
    (String.length (String.concat "," (map json_text elems)) < fuel)%nat ->
    JSON.parse_elements fuel (String.concat "," (map json_text elems) ++ String "]" rest)
    = Ok (elems, rest).
Proof.
  induction 1 as [|x l Hx Hl IH]; intros Htree Hne fuel rest Hfuel; [congruence|].
  destruct Htree as [Tx Tl]. destruct fuel as [|f]; [lia|].
  destruct l as [|y l'].
  - cbn [map String.concat] in *. cbn [JSON.parse_elements].
    rewrite (Hx Tx f (String "]" rest)) by (simpl; auto; lia). reflexivity.
  - cbn [map] in *. rewrite concat_cons2 in *.
    rewrite length_append in Hfuel. cbn [String.length append] in Hfuel.
    rewrite !append_assoc. cbn [JSON.parse_elements append].
    rewrite (Hx Tx f) by (simpl; auto; lia).
    cbn [res_bind]. rewrite skip_ws_head by reflexivity.
    change (String.concat "," (json_text y :: map json_text l'))
      with (String.concat "," (map json_text (y :: l'))).
    rewrite IH; [reflexivity|assumption|discriminate|].
    cbn [map]. lia.
Qed.

Lemma parse_members_text (scalar : value -> Prop) (props : list (string * value)) :
  Forall (fun kv => json_tree scalar (snd kv) -> reads_back (snd kv)) props ->
  fold_right (fun kv rest => match kv with (_, x) => json_tree scalar x /\ rest end) True props ->
  props <> [] ->
  forall fuel rest,
    (String.length (String.concat "," (map member_text props)) < fuel)%nat ->
    JSON.parse_members fuel (String.concat "," (map member_text props) ++ String "}" rest)
    = Ok (props, rest).
Proof.
  induction 1 as [|[k x] l Hx Hl IH]; intros Htree Hne fuel rest Hfuel; [congruence|].
  destruct Htree as [Tx Tl]. destruct fuel as [|f]; [lia|]. simpl snd in Hx.
  assert (Hkey : forall tail,
            JSON.parse_members (S f) (member_text (k, x) ++ tail)
            = res_bind (JSON.parse_value f (json_text x ++ tail)) (fun '(v, s3) =>
                match JSON.skip_ws s3 with
                | String "," r' =>
                    res_bind (JSON.parse_members f r') (fun '(ms, s4) => Ok ((k, v) :: ms, s4))
                | String "}" r' => Ok ([(k, v)], r')
                | String _ _ => JSON.unexpected
                | EmptyString => JSON.unexpected_end
                end)).
  { intros tail. unfold member_text. rewrite !append_assoc.
    destruct (parse_quoted k (":" ++ json_text x ++ tail)) as (body & Eq & Hbody).
    rewrite Eq. cbn [JSON.parse_members]. rewrite skip_ws_head by reflexivity.
    change (Ascii.eqb dquote dquote) with true. cbv iota. rewrite Hbody.
    cbn [res_bind append]. rewrite skip_ws_head by reflexivity. reflexivity. }
  destruct l as [|y l'].
  - cbn [map String.concat] in *. rewrite Hkey.
    unfold member_text in Hfuel. rewrite !length_append in Hfuel.
    rewrite (Hx Tx f (String "}" rest)) by (simpl; auto; lia). reflexivity.
  - cbn [map] in *. rewrite concat_cons2 in *.
    rewrite length_append in Hfuel. unfold member_text at 1 in Hfuel.
    rewrite !length_append in Hfuel. cbn [String.length append] in Hfuel.
    rewrite append_assoc, Hkey. cbn [append].
    rewrite (Hx Tx f) by (simpl; auto; lia).
    cbn [res_bind]. rewrite skip_ws_head by reflexivity.
    change (String.concat "," (member_text y :: map member_text l'))
      with (String.concat "," (map member_text (y :: l'))).
    rewrite IH; [reflexivity|assumption|discriminate|].
    cbn [map]. lia.
Qed.

Lemma json_text_object (props : list (string * value)) :
  json_text (VObject props) = "{" ++ String.concat "," (map member_text props) ++ "}".
Proof. reflexivity. Qed.

Lemma parse_literal_text (rest : string) :
  JSON.parse_literal ("null" ++ rest) = Ok (VNull, rest)
  /\ JSON.parse_literal ("true" ++ rest) = Ok (VBool true, rest)
  /\ JSON.parse_literal ("false" ++ rest) = Ok (VBool false, rest).
Proof. unfold JSON.parse_literal. destruct rest; repeat split. Qed.

Theorem parse_value_text (scalar : value -> Prop) (v : value) :
  json_tree scalar v -> reads_back v.
Proof.
  induction v as [| |b|n|z|s|elems IH|props IH|src fl|t|ents IH|mems IH]
    using value_members_ind; intros Htree fuel rest Hfuel Hrest;
    try (simpl in Htree; contradiction).
  - (* null *) destruct fuel; [simpl in Hfuel; lia|].
    cbn [json_text append JSON.parse_value]. rewrite skip_ws_head by reflexivity.
    change (JSON.parse_literal ("null" ++ rest) = Ok (VNull, rest)).
    apply (parse_literal_text rest).
  - (* booleans *) destruct fuel; [destruct b; simpl in Hfuel; lia|].
    destruct b; cbn [json_text append JSON.parse_value];
      rewrite skip_ws_head by reflexivity.
    + change (JSON.parse_literal ("true" ++ rest) = Ok (VBool true, rest)).
      apply (parse_literal_text rest).
    + change (JSON.parse_literal ("false" ++ rest) = Ok (VBool false, rest)).
      apply (parse_literal_text rest).
  - (* numbers *)
    destruct n as [|z]; [contradiction|].
    destruct (Number_toString_head z) as (c & s & E & Hc).
    destruct fuel as [|f];
      [cbn [json_text] in Hfuel; rewrite E in Hfuel; simpl in Hfuel; lia|].
    cbn [json_text]. rewrite E. cbn [append]. rewrite parse_value_number by assumption.
    change (String c (s ++ rest)) with (String c s ++ rest). rewrite <- E.
    now apply parse_number_text.
  - (* strings *)
    destruct fuel as [|f]; [simpl in Hfuel; lia|]. cbn [json_text].
    destruct (parse_quoted s rest) as (body & Eq & Hbody). rewrite Eq.
    cbn [JSON.parse_value]. rewrite skip_ws_head by reflexivity.
    change (Ascii.eqb dquote "{") with false. change (Ascii.eqb dquote "[") with false.
    change (Ascii.eqb dquote dquote) with true. cbv iota. now rewrite Hbody.
  - (* arrays *)
    cbn [json_text] in *. rewrite !append_assoc. cbn [append String.length] in *.
    rewrite length_append in Hfuel. cbn [String.length] in Hfuel.
    destruct fuel as [|f]; [lia|]. cbn [JSON.parse_value].
    rewrite skip_ws_head by reflexivity.
    change (Ascii.eqb "[" "{") with false. change (Ascii.eqb "[" "[") with true. cbv iota.
    destruct elems as [|x l]; [reflexivity|].
    assert (Hbody : JSON.parse_elements f
                      (String.concat "," (map json_text (x :: l)) ++ String "]" rest)
                    = Ok (x :: l, rest)).
    { apply (parse_elements_text scalar); [assumption|assumption|discriminate|lia]. }
    destruct Htree as [Tx _].
    destruct (json_text_head scalar x Tx) as (c & s & E & Hws & Hc & _).
    assert (Ehd : exists s', String.concat "," (map json_text (x :: l)) ++ String "]" rest
                             = String c s').
    { destruct l; cbn [map String.concat]; rewrite E; simpl; eauto. }
    destruct Ehd as (s' & Ehd). rewrite Ehd in *. rewrite skip_ws_head by assumption.
    rewrite Hbody.
    destruct c as [[] [] [] [] [] [] [] []]; try reflexivity. congruence.
  - (* objects *)
    rewrite json_text_object in *. rewrite !append_assoc. cbn [append String.length] in *.
    rewrite length_append in Hfuel. cbn [String.length] in Hfuel.
    destruct fuel as [|f]; [lia|]. cbn [JSON.parse_value].
    rewrite skip_ws_head by reflexivity.
    change (Ascii.eqb "{" "{") with true. cbv iota.
    destruct Htree as [Horder Htree].
    destruct props as [|[k x] l]; [reflexivity|].
    assert (Hbody : JSON.parse_members f
                      (String.concat "," (map member_text ((k, x) :: l)) ++ String "}" rest)
                    = Ok ((k, x) :: l, rest)).
    { apply (parse_members_text scalar); [assumption|assumption|discriminate|lia]. }
    assert (Ehd : exists s', String.concat "," (map member_text ((k, x) :: l))
                               ++ String "}" rest = String dquote s').
    { destruct l; cbn [map String.concat member_text JSON.QuoteJSONString append]; eauto. }
    destruct Ehd as (s' & Ehd). rewrite Ehd in *. rewrite skip_ws_head by reflexivity.
    rewrite Hbody. cbn [res_bind]. unfold dquote. cbv iota.
    unfold enumeration_order in Horder. now rewrite Horder.
Qed.

(** [JSON.parse] reads a JSON tree back from its compact text. *)
Theorem parse_text_json_text (scalar : value -> Prop) (v : value) :
  json_tree scalar v -> JSON.parse_text (json_text v) = Ok v.
Proof.
  intros H. unfold JSON.parse_text.
  rewrite <- (append_nil_r (json_text v)) at 2.
  rewrite (parse_value_text scalar v H) by (simpl; auto). reflexivity.
Qed.

(** ** The two passes on JSON trees *)

Section Passes.

(** [tagged x] is the tagged string the encode pass writes in place of a
    member [x], if it replaces it. *)
Variable tagged : value -> option string.
Variable scalar : value -> Prop.

Section Serialize.

Variable R : string -> value -> res value.
Hypothesis R_tree :
  forall key v, json_tree scalar v -> R key v = Ok (encode_members tagged v).
Hypothesis R_string : forall key s, R key (VString s) = Ok (VString s).

Lemma array_elements_encode (f : nat) (indent : string) (elems : list value) (index : Z) :
  Forall (serializes tagged R f) elems ->
  JSON.array_elements (JSON.SerializeJSONProperty R "" f indent) index
    (map (encode_member tagged) elems)
  = Ok (map json_text (map (encode_deep tagged) elems), map (encode_deep tagged) elems).
Proof.
  intros H. revert index. induction H as [|x l Hx _ IH]; intros index; [reflexivity|].
  cbn [map JSON.array_elements]. rewrite Hx. cbn [res_bind]. rewrite IH. reflexivity.
Qed.

Lemma object_members_encode (f : nat) (indent : string) (props : list (string * value)) :
  Forall (fun kv => serializes tagged R f (snd kv)) props ->
  JSON.object_members "" (JSON.SerializeJSONProperty R "" f indent)
    (map (fun kv => (fst kv, encode_member tagged (snd kv))) props)
  = Ok (map member_text (map (fun kv => (fst kv, encode_deep tagged (snd kv))) props),
        map (fun kv => (fst kv, encode_deep tagged (snd kv))) props).
Proof.
  induction 1 as [|[k x] l Hx _ IH]; [reflexivity|].
  cbn [map JSON.object_members fst snd] in *. rewrite Hx. cbn [res_bind]. rewrite IH.
  reflexivity.
Qed.

Lemma wrap_compact (open close stepback : string) (partial : list string) :
  JSON.wrap "" open close stepback partial = open ++ String.concat "," partial ++ close.
Proof. destruct partial; reflexivity. Qed.

Lemma depth_array (elems : list value) (f : nat) :
  (depth (VArray elems) <= S f)%nat -> (1 <= f)%nat /\ Forall (fun x => (depth x <= f)%nat) elems.
Proof.
  simpl. intros H. apply le_S_n in H. induction elems as [|x l IH]; simpl in *.
  - split; [lia|constructor].
  - destruct IH as [H1 Hl]; [lia|]. split; [lia|]. constructor; [lia|assumption].
Qed.

Lemma depth_object (props : list (string * value)) (f : nat) :
  (depth (VObject props) <= S f)%nat ->
  (1 <= f)%nat /\ Forall (fun kv => (depth (snd kv) <= f)%nat) props.
Proof.
  simpl. intros H. apply le_S_n in H. induction props as [|[k x] l IH]; simpl in *.
  - split; [lia|constructor].
  - destruct IH as [H1 Hl]; [lia|]. split; [lia|]. constructor; [simpl; lia|assumption].
Qed.

Lemma encode_object (props : list (string * value)) :
  encode tagged (VObject props)
  = VObject (map (fun kv => (fst kv, encode_deep tagged (snd kv))) props).
Proof.
  simpl. f_equal. apply map_ext. now intros [k x].
Qed.

(** [SerializeJSONProperty] with the encode pass as its hook writes the
    compact text of the encoded tree, and leaves the tree encoded. *)
Lemma serialize_encode (v : value) :
  json_tree scalar v ->
  forall fuel indent key,
    (depth v <= fuel)%nat ->
    JSON.SerializeJSONProperty R "" fuel indent key v
    = Ok (Some (json_text (encode tagged v)), encode tagged v).
Proof.
  induction v as [| |b|n|z|s|elems IH|props IH|src fl|t|ents IH|mems IH]
    using value_members_ind; intros Htree fuel indent key Hfuel;
    try (simpl in Htree; contradiction);
    (destruct fuel as [|f]; [simpl in Hfuel; lia|]).
  - cbn [JSON.SerializeJSONProperty]. rewrite (R_tree key _ Htree). reflexivity.
  - cbn [JSON.SerializeJSONProperty]. rewrite (R_tree key _ Htree). reflexivity.
  - destruct n as [|z]; [contradiction|].
    cbn [JSON.SerializeJSONProperty]. rewrite (R_tree key _ Htree). reflexivity.
  - cbn [JSON.SerializeJSONProperty]. rewrite (R_tree key _ Htree). reflexivity.
  - (* arrays *)
    destruct (depth_array elems f Hfuel) as [Hf Hdepth].
    cbn [JSON.SerializeJSONProperty]. rewrite (R_tree key _ Htree).
    cbn [res_bind encode_members].
    rewrite array_elements_encode.
    + cbn [res_bind]. rewrite wrap_compact. reflexivity.
    + simpl in Htree. clear Hfuel.
      induction elems as [|x l IHl]; constructor.
      * inversion IH; subst. inversion Hdepth; subst. destruct Htree as [Tx _].
        intros ind k. unfold encode_member, encode_deep. destruct (tagged x) as [s|].
        -- destruct f as [|f']; [lia|]. cbn [JSON.SerializeJSONProperty].
           rewrite R_string. reflexivity.
        -- now apply H1.
      * inversion IH; subst. inversion Hdepth; subst. destruct Htree as [_ Tl].
        now apply IHl.
  - (* objects *)
    destruct (depth_object props f Hfuel) as [Hf Hdepth].
    cbn [JSON.SerializeJSONProperty]. rewrite (R_tree key _ Htree).
    cbn [res_bind encode_members].
    rewrite object_members_encode.
    + cbn [res_bind]. rewrite wrap_compact, encode_object. reflexivity.
    + simpl in Htree. destruct Htree as [_ Htree]. clear Hfuel.
      induction props as [|[k0 x] l IHl]; constructor.
      * inversion IH; subst. inversion Hdepth; subst. destruct Htree as [Tx _].
        simpl snd in *.
        intros ind k. unfold encode_member, encode_deep. destruct (tagged x) as [s|].
        -- destruct f as [|f']; [lia|]. cbn [JSON.SerializeJSONProperty].
           rewrite R_string. reflexivity.
        -- now apply H1.
      * inversion IH; subst. inversion Hdepth; subst. destruct Htree as [_ Tl].
        now apply IHl.
Qed.

End Serialize.

End Passes.

Section Internalize.

Variable tagged : value -> option string.
Variable scalar : value -> Prop.

(** The reviver function handed to [JSON.parse]: it leaves every value but
    a string alone, turns a tagged string back into the member it stands
    for, and leaves the strings of the tree alone. *)
Variable V : string -> value -> res value.
Hypothesis V_other : forall name v, as_string v = None -> V name v = Ok v.
Hypothesis V_tagged :
  forall name x s, json_tree scalar x -> tagged x = Some s -> V name (VString s) = Ok x.
Hypothesis V_string :
  forall name s, json_tree scalar (VString s) -> V name (VString s) = Ok (VString s).



End Internalize.

(** Replacing the values of properties keeps their enumeration order. *)
Lemma define_property_map (g : value -> value) (props : list (string * value))
    (k : string) (x : value) :
  define_property (map_values g props) (k, g x) = map_values g (define_property props (k, x)).
Proof.
  unfold define_property.
  assert (Hhas : has_key k (map_values g props) = has_key k props).
  { induction props as [|[k' x'] l IH]; simpl; [reflexivity|]. now rewrite IH. }
  rewrite Hhas. clear Hhas. destruct (has_key k props).
  - induction props as [|[k' x'] l IH]; simpl; [reflexivity|].
    destruct (k =? k')%string; simpl; [reflexivity|]. now rewrite IH.
  - induction props as [|[k' x'] l IH]; simpl; [reflexivity|].
    destruct (key_before k k'); simpl; [reflexivity|]. now rewrite IH.
Qed.

Lemma enumeration_order_map (g : value -> value) (props : list (string * value)) :
  enumeration_order props -> enumeration_order (map_values g props).
Proof.
  unfold enumeration_order. intros H.
  assert (Hfold : forall l acc,
            fold_left define_property (map_values g l) (map_values g acc)
            = map_values g (fold_left define_property l acc)).
  { induction l as [|[k x] l IH]; intros acc; [reflexivity|].
    change (map_values g ((k, x) :: l)) with ((k, g x) :: map_values g l).
    cbn [fold_left]. rewrite (define_property_map g acc k x). apply IH. }
  change (@nil (string * value)) with (map_values g []) at 1.
  rewrite (Hfold props []). now rewrite H.
Qed.

Lemma json_tree_weaken (scalar scalar' : value -> Prop) (v : value) :
  (forall x, scalar x -> scalar' x) -> json_tree scalar v -> json_tree scalar' v.
Proof.
  intros Hs.
  induction v as [| |b|n|z|s|elems IH|props IH|src fl|t|ents IH|mems IH]
    using value_members_ind; simpl; auto.
  - destruct n; [auto|]. intros [H1 H2]. auto.
  - induction IH as [|x l Hx _ IHl]; simpl; [auto|]. intros [H1 H2]. auto.
  - intros [Ho H]. split; [assumption|]. clear Ho.
    induction IH as [|[k x] l Hx _ IHl]; simpl in *; [auto|]. destruct H as [H1 H2]. auto.
Qed.


(** The encode pass of a registry without a matching entry, and the decode
    pass on values it has no tag for. *)
Lemma revive_other (tj : TJ) (entries : list Reviver.entry) (v : value) :
  as_string v = None -> revive tj entries v = Ok v.
Proof.
  intros H. induction entries as [|e l IH]; simpl; [reflexivity|]. now rewrite H.
Qed.

Lemma revive_untagged (tj : TJ) (entries : list Reviver.entry) (s : string) :
  untagged entries s = true -> revive tj entries (VString s) = Ok (VString s).
Proof.
  induction entries as [|e l IH]; simpl; [reflexivity|].
  intros H. apply andb_prop in H. destruct H as [H1 H2].
  destruct (startsWith s (Reviver.tag e)); [discriminate|]. auto.
Qed.


Lemma encode_nothing (v : value) : encode (fun _ => None) v = v.
Proof.
  induction v as [| |b|n|z|s|elems IH|props IH|src fl|t|ents IH|mems IH]
    using value_members_ind; simpl; try reflexivity.
  - f_equal. induction IH as [|x l Hx _ IHl]; simpl; congruence.
  - f_equal. induction IH as [|[k x] l Hx _ IHl]; simpl in *; congruence.
Qed.

Lemma encode_members_nothing (v : value) : encode_members (fun _ => None) v = v.
Proof.
  destruct v; simpl; try reflexivity; f_equal.
  - unfold encode_member. apply map_id.
  - unfold encode_member. rewrite <- (map_id props) at 2. apply map_ext. now intros [k x].
Qed.

(** ** Round trips of JSON trees *)


Lemma Number_toString_nonempty (z : Z) (radix : Z) :
  2 <= radix <= 36 -> (Number_toString (Int z) radix =? "")%string = false.
Proof.
  intros Hr. unfold Number_toString. destruct (z <? 0) eqn:E; [reflexivity|].
  destruct (nat_to_string_head radix Hr z ltac:(lia)) as (d & s & _ & ->). reflexivity.
Qed.

Lemma replace_member_standard (tj : TJ) (x : value) :
  json_tree standard_scalar x ->
  replace_member tj (replacers activated) x = Ok (encode_member std_tagged x).
Proof.
  destruct x as [| |b|n|z|s|elems|props|src fl|t|ents|mems]; simpl json_tree;
    try contradiction; intros H; try reflexivity.
  destruct n as [|z]; [contradiction|].
  unfold encode_member, std_tagged.
  change (replacers activated)
    with ({| Replacer.tag := "(00)"; Replacer.check := std_check std_number;
             Replacer.exec := std_replacer std_number |} :: tl (replacers activated)).
  match goal with
  | |- replace_member _ (?e :: ?rest) _ = _ =>
      rewrite (replace_member_accept tj e rest (VNumber (Int z))
                 (Number_toString (Int z) 36)); [reflexivity|]
  end.
  exists (VBool true), (VString (Number_toString (Int z) 36)).
  repeat split. cbn [truthy]. now rewrite Number_toString_nonempty by lia.
Qed.


Lemma prefix_append (t s : string) : String.prefix t (t ++ s) = true.
Proof.
  induction t as [|c t IH]; simpl; [now destruct s|].
  destruct (ascii_dec c c); [assumption|congruence].
Qed.

Lemma slice_append (t s : string) : slice (t ++ s) (String.length t) = s.
Proof. induction t as [|c t IH]; simpl; [now destruct s|assumption]. Qed.

Lemma reviver_standard_number (tj : TJ) (name : string) (z : Z) :
  z <> 0 ->
  reviver tj activated name (VString ("(00)" ++ Number_toString (Int z) 36))
  = Ok (VNumber (Int z)).
Proof.
  intros Hz. unfold reviver.
  change (revivers activated)
    with ({| Reviver.tag := "(00)"; Reviver.exec := std_reviver std_number |}
          :: tl (revivers activated)).
  cbn [revive as_string Reviver.tag Reviver.exec]. unfold startsWith.
  rewrite prefix_append, (slice_append "(00)").
  cbn [std_reviver std_number parseInt36 ToString res_bind].
  rewrite parseInt_toString by lia. cbn [res_bind truthy].
  destruct (z =? 0) eqn:E; [lia|reflexivity].
Qed.


(** ** The standard entries *)

(** Digits need no escape inside a string literal. *)
Lemma quote_chars_append (a b : string) :
  JSON.quote_chars (a ++ b) = JSON.quote_chars a ++ JSON.quote_chars b.
Proof. induction a as [|c a IH]; simpl; [reflexivity|]. now rewrite IH, append_assoc. Qed.

Lemma quote_chars_to_digits (radix : Z) (fuel : nat) (n : Z) (acc : string) :
  2 <= radix <= 36 -> JSON.quote_chars acc = acc ->
  JSON.quote_chars (to_digits fuel radix n acc) = to_digits fuel radix n acc.
Proof.
  intros Hr. revert n acc. induction fuel as [|f IH]; intros n acc Hacc; [assumption|].
  cbn [to_digits].
  assert (Hd : JSON.quote_chars (String (digit_char (n mod radix)) acc)
               = String (digit_char (n mod radix)) acc).
  { cbn [JSON.quote_chars]. rewrite Hacc.
    assert (Hq : forall d, 0 <= d < 36 -> JSON.quote_char (digit_char d) = str1 (digit_char d)).
    { apply (digit_char_all (fun c => JSON.quote_char c = str1 c)).
      repeat constructor. }
    rewrite Hq; [reflexivity|].
    pose proof (Z.mod_pos_bound n radix). lia. }
  destruct (n / radix =? 0); [assumption|]. now apply IH.
Qed.

Lemma quote_chars_Number_toString (z radix : Z) :
  2 <= radix <= 36 ->
  JSON.quote_chars (Number_toString (Int z) radix) = Number_toString (Int z) radix.
Proof.
  intros Hr. unfold Number_toString, nat_to_string.
  destruct (z <? 0); cbn [JSON.quote_chars]; rewrite quote_chars_to_digits by auto;
    reflexivity.
Qed.

Lemma revive_skip (tj : TJ) (e : Reviver.entry) (rest : list Reviver.entry) (s : string) :
  startsWith s (Reviver.tag e) = false ->
  revive tj (e :: rest) (VString s) = revive tj rest (VString s).
Proof. intros H. simpl. now rewrite H. Qed.

Lemma revive_hit (tj : TJ) (e : Reviver.entry) (rest : list Reviver.entry) (s : string)
    (success : value) :
  Reviver.exec e tj (VString s) = Ok success -> truthy success = true ->
  revive tj (e :: rest) (VString (Reviver.tag e ++ s)) = Ok success.
Proof.
  intros He Ht. cbn [revive as_string]. unfold startsWith.
  rewrite prefix_append, slice_append, He. cbn [res_bind]. now rewrite Ht.
Qed.

Lemma reviver_standard_date (tj : TJ) (name : string) (d : Z) :
  valid_time d ->
  reviver tj activated name (VString ("(03)" ++ Number_toString (Int d) 36))
  = Ok (VDate (Int d)).
Proof.
  intros Hd. unfold reviver.
  change (revivers activated)
    with ({| Reviver.tag := "(00)"; Reviver.exec := std_reviver std_number |}
          :: {| Reviver.tag := "(01)"; Reviver.exec := std_reviver std_bigint |}
          :: {| Reviver.tag := "(02)"; Reviver.exec := std_reviver std_regexp |}
          :: {| Reviver.tag := "(03)"; Reviver.exec := std_reviver std_date |}
          :: skipn 4 (revivers activated)).
  rewrite !revive_skip by reflexivity.
  apply (revive_hit tj {| Reviver.tag := "(03)"; Reviver.exec := std_reviver std_date |});
    [|reflexivity].
  cbn [Reviver.exec std_reviver std_date parseInt36 ToString res_bind].
  rewrite parseInt_toString by lia. cbn [res_bind]. unfold new_Date, TimeClip.
  unfold valid_time in Hd.
  replace ((- max_time <=? d) && (d <=? max_time)) with true by lia. reflexivity.
Qed.

Lemma replace_member_standard_date (tj : TJ) (time : num) :
  replace_member tj (replacers activated) (VDate time)
  = Ok (VString ("(03)" ++ Number_toString time 36)).
Proof.
  change (replacers activated)
    with ([ {| Replacer.tag := "(00)"; Replacer.check := std_check std_number;
               Replacer.exec := std_replacer std_number |};
            {| Replacer.tag := "(01)"; Replacer.check := std_check std_bigint;
               Replacer.exec := std_replacer std_bigint |};
            {| Replacer.tag := "(02)"; Replacer.check := std_check std_regexp;
               Replacer.exec := std_replacer std_regexp |} ]
          ++ {| Replacer.tag := "(03)"; Replacer.check := std_check std_date;
                Replacer.exec := std_replacer std_date |}
          :: skipn 4 (replacers activated))%list.
  match goal with
  | |- replace_member _ (?before ++ ?e :: ?behind)%list _ = _ =>
      rewrite (replace_member_first_match tj before e behind (VDate time)
                 (Number_toString time 36)); [reflexivity| |]
  end.
  - repeat constructor; exists (VBool false); split; auto.
  - exists (VBool true), (VString (Number_toString time 36)). repeat split.
    cbn [truthy]. destruct time as [|z]; [reflexivity|].
    now rewrite Number_toString_nonempty by lia.
Qed.

(** One level of the bound on nested calls. *)
Lemma stringify_S (st : registry) (f : nat) (val space : value) :
  stringify st (S f) val space = JSON.stringify f val (replacer (snd (TJSON st f)) st) space.
Proof. reflexivity. Qed.

Lemma parse_S (st : registry) (f : nat) (text : string) :
  parse st (S f) text = JSON.parse text (reviver (snd (TJSON st f)) st).
Proof. reflexivity. Qed.

(** ** The scenario of the README: a Number and a Date *)

Lemma QuoteJSONString_tagged_digits (tag : string) (z : Z) :
  JSON.quote_chars tag = tag ->
  JSON.QuoteJSONString (tag ++ Number_toString (Int z) 36)
  = quoted (tag ++ Number_toString (Int z) 36).
Proof.
  intros H. unfold JSON.QuoteJSONString, quoted.
  now rewrite quote_chars_append, H, quote_chars_Number_toString by lia.
Qed.

Lemma example_text_json (d : Z) : example_text d = json_text (example_encoded d).
Proof.
  unfold example_text, example_encoded. cbn [json_text map String.concat].
  rewrite (QuoteJSONString_tagged_digits "(03)") by reflexivity.
  reflexivity.
Qed.

(** C1: with the standard entries activated, [stringify] of
    [{ age: 27, when: d }] returns exactly
    [{"age":"(00)r","when":"(03)<base-36 digits of d's time value>"}], and
    [parse] of that text returns [{ age: 27, when: d }] again: the Number 27
    and a Date with the same time value. *)
Theorem stringify_parse_example (d : Z) (fuel : nat) :
  valid_time d ->
  (3 <= fuel)%nat ->
  stringify activated fuel (example_input d) VUndefined
  = Ok (VString (example_text d), example_encoded d)
  /\ parse activated fuel (example_text d) = Ok (example_input d).
Proof.
  intros Hd Hfuel. destruct fuel as [|[|[|f]]]; try lia. split.
  - rewrite stringify_S. generalize (snd (TJSON activated (S (S f)))). intros tj.
    unfold JSON.stringify. cbn [JSON.gap_of].
    unfold example_input. cbn [JSON.SerializeJSONProperty].
    unfold replacer at 1. cbn [typeof_object replace_props].
    rewrite replace_member_standard_date.
    rewrite (replace_member_standard tj (VNumber (Int 27)))
      by (simpl; unfold safe_integer, MAX_SAFE_INTEGER; lia).
    cbn [res_bind encode_member std_tagged JSON.object_members
         JSON.SerializeJSONProperty].
    unfold replacer. cbn [typeof_object res_bind].
    rewrite example_text_json. reflexivity.
  - rewrite parse_S. generalize (snd (TJSON activated (S (S f)))). intros tj.
    unfold JSON.parse. rewrite example_text_json.
    rewrite (parse_text_json_text (fun _ => True)) by (simpl; repeat split).
    unfold example_encoded. cbn [res_bind JSON.InternalizeJSONProperty].
    rewrite reviver_standard_date by assumption.
    change "(00)r" with ("(00)" ++ Number_toString (Int 27) 36).
    rewrite reviver_standard_number by lia.
    cbn [res_bind]. unfold reviver. now rewrite revive_other.
Qed.

Lemma stringify_parse_example_witness :
  stringify activated 3 (example_input 1595838366018) VUndefined
  = Ok (VString (example_text 1595838366018), example_encoded 1595838366018)
  /\ parse activated 3 (example_text 1595838366018) = Ok (example_input 1595838366018).
Proof.
  apply (stringify_parse_example 1595838366018 3); [unfold valid_time, max_time; lia | lia].
Defined.

(** ** Round trips of the standard entries *)

(** C2: for each of the six standard entries the reviver function, applied
    to the string the replacer function produced, gives the value back: for
    every integer Number, the BigInt -10, the RegExp /nice/gim, every valid
    Date, a Map whose keys and values are themselves matched by entries, and
    a Set built from an array with repeated members. *)
Theorem standard_round_trips (z d : Z) (fuel : nat) :
  safe_integer z ->
  valid_time d ->
  (4 <= fuel)%nat ->
  codec_round_trip activated fuel std_number (VNumber (Int z)) = Ok (VNumber (Int z))
  /\ codec_round_trip activated fuel std_bigint (VBigInt (-10)) = Ok (VBigInt (-10))
  /\ codec_round_trip activated fuel std_regexp (VRegExp "nice" "gim")
     = Ok (VRegExp "nice" "gim")
  /\ codec_round_trip activated fuel std_date (VDate (Int d)) = Ok (VDate (Int d))
  /\ codec_round_trip activated fuel std_map (example_map 1595838366018)
     = Ok (example_map 1595838366018)
  /\ example_set 1595838366018
     = Ok (VSet [VString "item"; VNumber (Int 12); VDate (Int 1595838366018)])
  /\ codec_round_trip activated fuel std_set
       (VSet [VString "item"; VNumber (Int 12); VDate (Int 1595838366018)])
     = Ok (VSet [VString "item"; VNumber (Int 12); VDate (Int 1595838366018)]).
Proof.
  intros Hz Hd Hfuel. destruct fuel as [|[|[|[|f]]]]; try lia.
  split; [|split; [|split; [|split; [|split; [|split]]]]].
  - unfold codec_round_trip. cbn [std_replacer std_reviver std_number toString36 res_bind
                                   ToString parseInt36].
    now rewrite parseInt_toString by lia.
  - reflexivity.
  - reflexivity.
  - unfold codec_round_trip. cbn [std_replacer std_reviver std_date res_bind
                                   ToString parseInt36].
    rewrite parseInt_toString by lia. cbn [res_bind]. unfold new_Date, TimeClip.
    unfold valid_time in Hd.
    replace ((- max_time <=? d) && (d <=? max_time)) with true by lia. reflexivity.
  - vm_compute. reflexivity.
  - reflexivity.
  - vm_compute. reflexivity.
Qed.

Lemma standard_round_trips_witness :
  codec_round_trip activated 4 std_number (VNumber (Int 27)) = Ok (VNumber (Int 27))
  /\ codec_round_trip activated 4 std_bigint (VBigInt (-10)) = Ok (VBigInt (-10))
  /\ codec_round_trip activated 4 std_regexp (VRegExp "nice" "gim")
     = Ok (VRegExp "nice" "gim")
  /\ codec_round_trip activated 4 std_date (VDate (Int 1595838366018))
     = Ok (VDate (Int 1595838366018))
  /\ codec_round_trip activated 4 std_map (example_map 1595838366018)
     = Ok (example_map 1595838366018)
  /\ example_set 1595838366018
     = Ok (VSet [VString "item"; VNumber (Int 12); VDate (Int 1595838366018)])
  /\ codec_round_trip activated 4 std_set
       (VSet [VString "item"; VNumber (Int 12); VDate (Int 1595838366018)])
     = Ok (VSet [VString "item"; VNumber (Int 12); VDate (Int 1595838366018)]).
Proof.
  apply (standard_round_trips 27 1595838366018 4);
    [unfold safe_integer, MAX_SAFE_INTEGER; lia | unfold valid_time, max_time; lia | lia].
Defined.

(** ** Where a JSON tree does not come back *)



(** ** The README's object *)

Example README_stringify :
  res_bind (stringify activated 5 README_object (VNumber (Int 2))) (fun r => Ok (snd r))
  = Ok README_encoded.
Proof. vm_compute. reflexivity. Qed.

Example README_parse :
  res_bind (stringify activated 5 README_object (VNumber (Int 2))) (fun r =>
    match fst r with
    | VString text => parse activated 5 text
    | _ => Ok VUndefined
    end)
  = Ok README_object.
Proof. vm_compute. reflexivity. Qed.

(** * More of the class *)

(** ** find, add, modify, remove, activateStandards *)

Lemma indexOf_find_first {A} (p : A -> bool) (arr : list A) :
  existsb p arr = true ->
  exists i x,
    indexOf_find p arr = Z.of_nat i /\ nth_error arr i = Some x /\ p x = true
    /\ forallb (fun y => negb (p y)) (firstn i arr) = true.
Proof.
  induction arr as [|x rest IH]; simpl; [discriminate|].
  destruct (p x) eqn:Ex; simpl.
  - intros _. exists O, x. repeat split; assumption.
  - intros H. destruct (IH H) as (i & y & Hi & Hn & Hp & Hf).
    exists (S i), y. rewrite Hi. simpl. rewrite Ex, Hf. simpl.
    replace (Z.of_nat i <? 0) with false by lia.
    repeat split; try assumption. lia.
Qed.

Lemma not_tagged_before (t : string) (reps : list Replacer.entry) :
  forallb (fun e => negb (Replacer.tag e =? t)%string) reps = true ->
  ~ In t (map Replacer.tag reps).
Proof.
  intros H Hin. apply has_tag_In in Hin. apply existsb_exists in Hin.
  destruct Hin as (e & He & Ht). rewrite forallb_forall in H.
  specialize (H e He). now rewrite Ht in H.
Qed.

(** X1: [find(tag)] is the pair [i, i] for the position [i] of the first entry
    of [TJSON.replacers] with that tag, and [undefined] when there is none;
    it returns normally and leaves the registry alone. *)
Theorem find_first_replacer_entry (t : string) (st : registry) :
  (In t (replacer_tags st) ->
   exists i,
     find (AVal (VString t)) st = (Ok (Some (Z.of_nat i, Z.of_nat i)), st)
     /\ nth_error (replacer_tags st) i = Some t
     /\ ~ In t (firstn i (replacer_tags st)))
  /\ (~ In t (replacer_tags st) -> find (AVal (VString t)) st = (Ok None, st)).
Proof.
  split; [|apply find_miss_without_replacer].
  intros Hin. rewrite find_string. apply has_tag_In in Hin. rewrite Hin.
  destruct (indexOf_find_first _ _ Hin) as (i & e & Hi & Hn & Hp & Hf).
  exists i. rewrite Hi. split; [reflexivity|]. split.
  - unfold replacer_tags. rewrite nth_error_map, Hn. simpl.
    apply String.eqb_eq in Hp. now rewrite Hp.
  - unfold replacer_tags. rewrite firstn_map. now apply not_tagged_before.
Qed.

Lemma add_chain_fresh (t : string) (c r v : callable) (st : registry) :
  ~ In t (replacer_tags st) ->
  add_chain (AVal (VString t)) (AFun c) (AFun r) (AFun v) st
  = (Ok tt,
     {| replacers := replacers st
                     ++ [{| Replacer.tag := t; Replacer.check := c; Replacer.exec := r |}];
        revivers := revivers st ++ [{| Reviver.tag := t; Reviver.exec := v |}] |}).
Proof.
  intros H. unfold add_chain, add, bind, lift. simpl.
  rewrite (find_miss_without_replacer t st H). reflexivity.
Qed.

(** X3: A chain whose tag is not a string, or whose check or replacer argument
    is not a function, throws a [TypeError] before anything is pushed: the
    registry is unchanged. *)
Theorem add_chain_rejects_arguments (tag c r v : jsarg) (st : registry) :
  ((forall t, tag <> AVal (VString t)) ->
   add_chain tag c r v st = (Throw (TypeError "argument is not a string"), st))
  /\ (forall t, tag = AVal (VString t) -> ~ In t (replacer_tags st) ->
      is_function c && is_function r = false ->
      add_chain tag c r v st = (Throw (TypeError "argument is not a function"), st)).
Proof.
  split.
  - intros H. unfold add_chain, add, bind, lift.
    destruct tag as [f|[]]; try reflexivity. now destruct (H s).
  - intros t -> Hnew Hfun. unfold add_chain, add, bind, lift. simpl.
    rewrite (find_miss_without_replacer t st Hnew). simpl.
    destruct c as [c|c]; [|reflexivity]. destruct r as [r|r]; [discriminate|reflexivity].
Qed.

Lemma add_chain_rejects_arguments_witness :
  add_chain (AVal (VNumber (Int 8))) (AFun is_bool) (AFun bool_text) (AFun text_bool) activated
  = (Throw (TypeError "argument is not a string"), activated)
  /\ add_chain (AVal (VString "(10)")) (AFun is_bool) (AVal (VString "text"))
       (AFun text_bool) activated
     = (Throw (TypeError "argument is not a function"), activated).
Proof.
  split.
  - apply (proj1 (add_chain_rejects_arguments (AVal (VNumber (Int 8))) (AFun is_bool)
                    (AFun bool_text) (AFun text_bool) activated)).
    discriminate.
  - apply (proj2 (add_chain_rejects_arguments (AVal (VString "(10)")) (AFun is_bool)
                    (AVal (VString "text")) (AFun text_bool) activated) "(10)").
    + reflexivity.
    + simpl. intros [H|[H|[H|[H|[H|[H|[]]]]]]]; discriminate H.
    + reflexivity.
Defined.

(** X4: A chain whose reviver argument is not a function throws its [TypeError]
    after the replacer entry has been pushed: the tag is left with a replacer
    entry and no reviver entry, and a new [add] of the tag throws
    "Replacer/ Reviver already exists". *)
Theorem add_chain_bad_reviver (t : string) (c r : callable) (x : value) (st : registry) :
  ~ In t (replacer_tags st) ->
  let st' :=
    {| replacers := replacers st
                    ++ [{| Replacer.tag := t; Replacer.check := c; Replacer.exec := r |}];
       revivers := revivers st |} in
  add_chain (AVal (VString t)) (AFun c) (AFun r) (AVal x) st
  = (Throw (TypeError "argument is not a function"), st')
  /\ add (AVal (VString t)) st' = (Throw (Error "Replacer/ Reviver already exists"), st').
Proof.
  intros H st'. split.
  - unfold add_chain, add, bind, lift. simpl.
    rewrite (find_miss_without_replacer t st H). reflexivity.
  - unfold add, bind, lift. simpl.
    destruct (find_hit_with_replacer t st') as [i Hi]; [|now rewrite Hi].
    unfold replacer_tags, st'. simpl. rewrite map_app. apply in_or_app. right. simpl. auto.
Qed.

Lemma add_chain_bad_reviver_witness :
  add_chain (AVal (VString "(10)")) (AFun is_bool) (AFun bool_text) (AVal VNull) initial
  = (Throw (TypeError "argument is not a function"),
     {| replacers := [{| Replacer.tag := "(10)"; Replacer.check := is_bool;
                         Replacer.exec := bool_text |}];
        revivers := [] |}).
Proof.
  refine (proj1 (add_chain_bad_reviver "(10)" is_bool bool_text VNull initial _)).
  intros [].
Defined.

(** X5: [modify] of a tag that no entry of [TJSON.replacers] has throws
    "Replacer/ Reviver not found" and leaves the registry unchanged, whatever
    is chained behind it. *)
Theorem modify_unknown_tag_throws (t : string) (edits : list (field * jsarg)) (st : registry) :
  ~ In t (replacer_tags st) ->
  modify_chain (AVal (VString t)) edits st = (Throw (Error "Replacer/ Reviver not found"), st).
Proof.
  intros H. unfold modify_chain, modify, bind, lift. simpl.
  rewrite (find_miss_without_replacer t st H). reflexivity.
Qed.

Lemma modify_unknown_tag_throws_witness :
  modify_chain (AVal (VString "(99)")) [(FCheck, AFun is_bool)] activated
  = (Throw (Error "Replacer/ Reviver not found"), activated).
Proof.
  apply modify_unknown_tag_throws. simpl.
  intros [H|[H|[H|[H|[H|[H|[]]]]]]]; discriminate H.
Defined.

Lemma indexOf_find_at {A} (p : A -> bool) (before : list A) (x : A) (behind : list A) :
  forallb (fun y => negb (p y)) before = true -> p x = true ->
  indexOf_find p (before ++ x :: behind) = Z.of_nat (List.length before).
Proof.
  intros Hb Hx. induction before as [|y l IH]; simpl in *; [now rewrite Hx|].
  apply andb_prop in Hb. destruct Hb as [Hy Hl].
  destruct (p y); [discriminate|]. rewrite (IH Hl).
  replace (Z.of_nat (List.length l) <? 0) with false by lia. lia.
Qed.

Lemma update_at_middle {A} (before : list A) (x : A) (behind : list A) (g : A -> A) :
  update_at (before ++ x :: behind) (List.length before) g
  = Ok (before ++ g x :: behind)%list.
Proof. induction before as [|y l IH]; simpl; [reflexivity|]. now rewrite IH. Qed.

Lemma update_at_beyond {A} (arr : list A) (i : nat) (g : A -> A) :
  (List.length arr <= i)%nat ->
  update_at arr i g = Throw (TypeError "Cannot set properties of undefined").
Proof.
  revert i. induction arr as [|y l IH]; intros i H; [now destruct i|].
  destruct i as [|j]; simpl in *; [lia|]. rewrite IH by lia. reflexivity.
Qed.

Lemma find_at_first (t : string) (st : registry)
    (before : list Replacer.entry) (e : Replacer.entry) (behind : list Replacer.entry) :
  replacers st = (before ++ e :: behind)%list -> Replacer.tag e = t ->
  ~ In t (map Replacer.tag before) ->
  find (AVal (VString t)) st
  = (Ok (Some (Z.of_nat (List.length before), Z.of_nat (List.length before))), st).
Proof.
  intros Hreg He Hb. rewrite find_string.
  assert (Hnone : forallb (fun y => negb (Replacer.tag y =? t)%string) before = true).
  { apply forallb_forall. intros y Hy. destruct (String.eqb_spec (Replacer.tag y) t); [|reflexivity].
    exfalso. apply Hb. apply in_map_iff. now exists y. }
  assert (Hidx : indexOf_find (fun y => (Replacer.tag y =? t)%string) (replacers st)
                 = Z.of_nat (List.length before)).
  { rewrite Hreg. apply indexOf_find_at; [assumption|]. now apply String.eqb_eq. }
  rewrite Hidx.
  replace (existsb (fun y => (Replacer.tag y =? t)%string) (replacers st)) with true;
    [reflexivity|].
  symmetry. rewrite Hreg, existsb_app. simpl.
  replace (Replacer.tag e =? t)%string with true by (symmetry; now apply String.eqb_eq).
  now rewrite orb_true_r.
Qed.

(** X2: A chain for a tag that no entry of [TJSON.replacers] has, with three
    functions, returns normally and pushes one entry at the end of each
    array; the entries already there keep their places, and [find] then
    gives the new entry's position. *)
Theorem add_chain_appends (t : string) (c r v : callable) (st : registry) :
  ~ In t (replacer_tags st) ->
  let st' :=
    {| replacers := replacers st
                    ++ [{| Replacer.tag := t; Replacer.check := c; Replacer.exec := r |}];
       revivers := revivers st ++ [{| Reviver.tag := t; Reviver.exec := v |}] |} in
  add_chain (AVal (VString t)) (AFun c) (AFun r) (AFun v) st = (Ok tt, st')
  /\ find (AVal (VString t)) st'
     = (Ok (Some (Z.of_nat (List.length (replacers st)),
                  Z.of_nat (List.length (replacers st)))), st').
Proof.
  intros H st'. split; [now apply add_chain_fresh|].
  apply (find_at_first t st' (replacers st)
           {| Replacer.tag := t; Replacer.check := c; Replacer.exec := r |} []);
    [reflexivity|reflexivity|exact H].
Qed.

Lemma add_chain_appends_witness :
  let st' :=
    {| replacers := replacers activated
                    ++ [{| Replacer.tag := "(10)"; Replacer.check := is_bool;
                           Replacer.exec := bool_text |}];
       revivers := revivers activated
                   ++ [{| Reviver.tag := "(10)"; Reviver.exec := text_bool |}] |} in
  add_chain (AVal (VString "(10)")) (AFun is_bool) (AFun bool_text) (AFun text_bool) activated
  = (Ok tt, st')
  /\ find (AVal (VString "(10)")) st' = (Ok (Some (6, 6)), st').
Proof.
  apply (add_chain_appends "(10)" is_bool bool_text text_bool activated).
  simpl. intros [H|[H|[H|[H|[H|[H|[]]]]]]]; discriminate H.
Defined.

(** X6: [modify(t).check(f)] and [modify(t).replacer(f)] return normally and
    put [f] into the first entry of [TJSON.replacers] tagged [t], where it
    stands: its tag, its other function, its place (so its precedence), every
    other entry and [TJSON.revivers] stay as they are. *)
Theorem modify_replaces_in_place (t : string) (f : callable) (st : registry)
    (before : list Replacer.entry) (e : Replacer.entry) (behind : list Replacer.entry) :
  replacers st = (before ++ e :: behind)%list ->
  Replacer.tag e = t ->
  ~ In t (map Replacer.tag before) ->
  modify_chain (AVal (VString t)) [(FCheck, AFun f)] st
  = (Ok tt, {| replacers := before ++ with_check f e :: behind; revivers := revivers st |})
  /\ modify_chain (AVal (VString t)) [(FReplacer, AFun f)] st
     = (Ok tt, {| replacers := before ++ with_exec f e :: behind; revivers := revivers st |}).
Proof.
  intros Hreg He Hb.
  pose proof (find_at_first t st before e behind Hreg He Hb) as Hfind.
  split.
  - unfold modify_chain, modify at 1, bind, lift. cbn [isString]. rewrite Hfind.
    cbn [ret modify_fields modify_field fst snd]. unfold modify_check, bind, lift, get, put.
    cbn [isFunction mb_find fst]. rewrite Nat2Z.id, Hreg, update_at_middle.
    set (st' := {| replacers := _; revivers := _ |}).
    unfold modify. unfold bind, lift. cbn [isString mb_tag].
    rewrite (find_at_first t st' before (with_check f e) behind); try assumption; reflexivity.
  - unfold modify_chain, modify at 1, bind, lift. cbn [isString]. rewrite Hfind.
    cbn [ret modify_fields modify_field fst snd]. unfold modify_replacer, bind, lift, get, put.
    cbn [isFunction mb_find fst]. rewrite Nat2Z.id, Hreg, update_at_middle.
    set (st' := {| replacers := _; revivers := _ |}).
    unfold modify. unfold bind, lift. cbn [isString mb_tag].
    rewrite (find_at_first t st' before (with_exec f e) behind); try assumption; reflexivity.
Qed.

Lemma modify_replaces_in_place_witness :
  modify_chain (AVal (VString "(01)")) [(FCheck, AFun is_bool)] activated
  = (Ok tt,
     {| replacers := [std_replacer_entry std_number]
                     ++ with_check is_bool (std_replacer_entry std_bigint)
                     :: map std_replacer_entry [std_regexp; std_date; std_map; std_set];
        revivers := revivers activated |}).
Proof.
  refine (proj1 (modify_replaces_in_place "(01)" is_bool activated
                   [std_replacer_entry std_number] (std_replacer_entry std_bigint)
                   (map std_replacer_entry [std_regexp; std_date; std_map; std_set]) _ _ _)).
  - reflexivity.
  - reflexivity.
  - simpl. intros [H|[]]. discriminate H.
Defined.

(** X7: [modify(t).reviver(f)] looks for [t] in [TJSON.replacers] and puts [f]
    into the entry of [TJSON.revivers] at the same position, whatever tag
    that entry has; when [TJSON.revivers] has no entry there it throws a
    [TypeError] and changes nothing. *)
Theorem modify_reviver_by_replacer_index (t : string) (f : callable) (st : registry)
    (before : list Replacer.entry) (e : Replacer.entry) (behind : list Replacer.entry) :
  replacers st = (before ++ e :: behind)%list ->
  Replacer.tag e = t ->
  ~ In t (map Replacer.tag before) ->
  (forall rbefore re rbehind,
     revivers st = (rbefore ++ re :: rbehind)%list ->
     List.length rbefore = List.length before ->
     modify_chain (AVal (VString t)) [(FReviver, AFun f)] st
     = (Ok tt, {| replacers := replacers st;
                  revivers := rbefore ++ with_reviver_exec f re :: rbehind |}))
  /\ ((List.length (revivers st) <= List.length before)%nat ->
      modify_chain (AVal (VString t)) [(FReviver, AFun f)] st
      = (Throw (TypeError "Cannot set properties of undefined"), st)).
Proof.
  intros Hreg He Hb.
  pose proof (find_at_first t st before e behind Hreg He Hb) as Hfind.
  split.
  - intros rbefore re rbehind Hrev Hlen.
    unfold modify_chain, modify at 1, bind, lift. cbn [isString]. rewrite Hfind.
    cbn [ret modify_fields modify_field fst snd]. unfold modify_reviver, bind, lift, get, put.
    cbn [isFunction mb_find snd]. rewrite Nat2Z.id, Hrev, <- Hlen, update_at_middle.
    set (st' := {| replacers := _; revivers := _ |}).
    unfold modify. unfold bind, lift. cbn [isString mb_tag].
    rewrite (find_at_first t st' before e behind); try assumption; reflexivity.
  - intros Hlen.
    unfold modify_chain, modify at 1, bind, lift. cbn [isString]. rewrite Hfind.
    cbn [ret modify_fields modify_field fst snd]. unfold modify_reviver, bind, lift, get, put.
    cbn [isFunction mb_find snd]. rewrite Nat2Z.id, update_at_beyond by assumption.
    reflexivity.
Qed.

Lemma modify_reviver_by_replacer_index_witness :
  modify_chain (AVal (VString "(01)")) [(FReviver, AFun text_bool)] activated
  = (Ok tt,
     {| replacers := replacers activated;
        revivers := [std_reviver_entry std_number]
                    ++ with_reviver_exec text_bool (std_reviver_entry std_bigint)
                    :: map std_reviver_entry [std_regexp; std_date; std_map; std_set] |}).
Proof.
  refine (proj1 (modify_reviver_by_replacer_index "(01)" text_bool activated
                   [std_replacer_entry std_number] (std_replacer_entry std_bigint)
                   (map std_replacer_entry [std_regexp; std_date; std_map; std_set]) _ _ _)
            [std_reviver_entry std_number] (std_reviver_entry std_bigint)
            (map std_reviver_entry [std_regexp; std_date; std_map; std_set]) _ _).
  - reflexivity.
  - reflexivity.
  - simpl. intros [H|[]]. discriminate H.
  - reflexivity.
  - reflexivity.
Defined.

Lemma same_tags_trans (st1 st2 st3 : registry) :
  same_tags st1 st2 -> same_tags st2 st3 -> same_tags st1 st3.
Proof. intros [H1 H2] [H3 H4]. split; congruence. Qed.

(** X8: No [modify] chain, whatever its arguments and whether it returns or
    throws, adds, removes, reorders or retags an entry: both arrays keep
    their tags in their order. *)
Theorem modify_chain_keeps_tags (tag : jsarg) (edits : list (field * jsarg)) (st : registry) :
  same_tags st (snd (modify_chain tag edits st)).
Proof.
  unfold modify_chain, bind.
  pose proof (modify_same tag st) as Hm.
  destruct (modify tag st) as [[b|e] st1]; simpl in Hm; subst st1; [|now split].
  revert b st. induction edits as [|[fld x] rest IH]; intros b st; [now split|].
  cbn [modify_fields]. unfold bind.
  assert (Hstep : same_tags st (snd (modify_field b (fld, x) st))).
  { destruct fld; [apply modify_check_tags|apply modify_replacer_tags|apply modify_reviver_tags]. }
  destruct (modify_field b (fld, x) st) as [[b'|e] st1]; simpl in *; [|assumption].
  eapply same_tags_trans; [exact Hstep|apply IH].
Qed.

(** X9: [remove] changes nothing, whatever its argument: the registry after
    the call is the registry before it; for a tag that [TJSON.replacers]
    has, the call returns normally. *)
Theorem remove_changes_nothing (st : registry) :
  (forall tag, snd (remove tag st) = st)
  /\ (forall t, In t (replacer_tags st) -> remove (AVal (VString t)) st = (Ok tt, st)).
Proof.
  split; [intros tag; apply remove_keeps_registry|].
  intros t Hin. pose proof (remove_keeps_registry (AVal (VString t)) st) as Hsnd.
  destruct (find_hit_with_replacer t st Hin) as [i Hi].
  unfold remove, bind in *. rewrite Hi in *.
  destruct (truthy_index i && truthy_index i); [|reflexivity].
  unfold get, put in *. simpl in *. now rewrite Hsnd.
Qed.

Lemma registered_cons (s : standard) (l : list standard) (st : registry) :
  registered l (registered [s] st) = registered (s :: l) st.
Proof. unfold registered. simpl. now rewrite <- !app_assoc. Qed.

Lemma registered_nil (st : registry) : registered [] st = st.
Proof. unfold registered. simpl. rewrite !app_nil_r. now destruct st. Qed.

Lemma activate_cons (s : standard) (l : list standard) (st : registry) :
  ~ In (std_tag s) (replacer_tags st) ->
  activate (s :: l) st = activate l (registered [s] st).
Proof.
  intros H. unfold activate. cbn [forEach]. unfold bind.
  now rewrite add_chain_fresh.
Qed.

Lemma activate_fresh (l : list standard) :
  forall st,
    NoDup (map std_tag l) ->
    (forall s, In s l -> ~ In (std_tag s) (replacer_tags st)) ->
    activate l st = (Ok tt, registered l st).
Proof.
  induction l as [|s l IH]; intros st Hnd Hfresh.
  - now rewrite registered_nil.
  - inversion Hnd as [|t ts Hs Hl]; subst.
    rewrite activate_cons by (apply Hfresh; now left).
    rewrite IH, registered_cons; [reflexivity|assumption|].
    intros s' Hs' Hin. unfold replacer_tags, registered in Hin. simpl in Hin.
    rewrite map_app in Hin. apply in_app_or in Hin. destruct Hin as [Hin|[Hin|[]]].
    + apply (Hfresh s'); [now right|assumption].
    + apply Hs. change (std_tag s = std_tag s') in Hin. rewrite Hin. now apply in_map.
Qed.

Lemma activate_stops (pre : list standard) (s : standard) (post : list standard) :
  forall st,
    NoDup (map std_tag pre) ->
    ~ In (std_tag s) (map std_tag pre) ->
    (forall s', In s' pre -> ~ In (std_tag s') (replacer_tags st)) ->
    In (std_tag s) (replacer_tags st) ->
    activate (pre ++ s :: post) st
    = (Throw (Error "Replacer/ Reviver already exists"), registered pre st).
Proof.
  induction pre as [|p pre IH]; intros st Hnd Hs Hfresh Htaken.
  - rewrite registered_nil. unfold activate. cbn [app forEach]. unfold bind, add_chain, bind.
    destruct (find_hit_with_replacer (std_tag s) st Htaken) as [i Hi].
    unfold add, bind, lift. simpl. now rewrite Hi.
  - inversion Hnd as [|t ts Hp Hpre]; subst. cbn [app].
    rewrite activate_cons by (apply Hfresh; now left).
    rewrite IH, registered_cons; [reflexivity|assumption| | |].
    + intros H. apply Hs. now right.
    + intros s' Hs' Hin. unfold replacer_tags, registered in Hin. simpl in Hin.
      rewrite map_app in Hin. apply in_app_or in Hin. destruct Hin as [Hin|[Hin|[]]].
      * apply (Hfresh s'); [now right|assumption].
      * apply Hp. change (std_tag p = std_tag s') in Hin. rewrite Hin. now apply in_map.
    + unfold replacer_tags, registered. simpl. rewrite map_app. apply in_or_app. now left.
Qed.

(** X10: On a registry that has none of the six standard tags,
    [activateStandards] returns normally and pushes the six standard entries,
    in their order, behind the entries already there. *)
Theorem activateStandards_appends (st : registry) :
  (forall s, In s standards -> ~ In (std_tag s) (replacer_tags st)) ->
  activateStandards st = (Ok tt, registered standards st).
Proof.
  intros H. apply (activate_fresh standards st); [|assumption].
  simpl. repeat constructor; simpl; intuition discriminate.
Qed.

Lemma activateStandards_appends_witness :
  activateStandards
    {| replacers := [{| Replacer.tag := "(10)"; Replacer.check := is_bool;
                        Replacer.exec := bool_text |}];
       revivers := [{| Reviver.tag := "(10)"; Reviver.exec := text_bool |}] |}
  = (Ok tt,
     registered standards
       {| replacers := [{| Replacer.tag := "(10)"; Replacer.check := is_bool;
                           Replacer.exec := bool_text |}];
          revivers := [{| Reviver.tag := "(10)"; Reviver.exec := text_bool |}] |}).
Proof.
  apply activateStandards_appends.
  intros s [<-|[<-|[<-|[<-|[<-|[<-|[]]]]]]]; simpl; intros [H|[]]; discriminate H.
Defined.

(** X11: [activateStandards] is not all-or-nothing: it stops at the first
    standard tag that [TJSON.replacers] already has, throwing
    "Replacer/ Reviver already exists", and the standards before that one
    stay registered.  In particular a second [activateStandards] throws and
    changes nothing. *)
Theorem activateStandards_stops_at_taken_tag (st : registry)
    (pre : list standard) (s : standard) (post : list standard) :
  standards = (pre ++ s :: post)%list ->
  (forall s', In s' pre -> ~ In (std_tag s') (replacer_tags st)) ->
  In (std_tag s) (replacer_tags st) ->
  activateStandards st
  = (Throw (Error "Replacer/ Reviver already exists"), registered pre st).
Proof.
  intros Hsplit Hfresh Htaken.
  assert (Hnd : NoDup (map std_tag standards))
    by (simpl; repeat constructor; simpl; intuition discriminate).
  change activateStandards with (activate standards). rewrite Hsplit in *.
  rewrite map_app in Hnd. simpl in Hnd.
  apply activate_stops; try assumption.
  - now apply NoDup_app_remove_r in Hnd.
  - apply NoDup_remove_2 in Hnd. intros H. apply Hnd. apply in_or_app. now left.
Qed.

Lemma activateStandards_stops_at_taken_tag_witness :
  activateStandards activated
  = (Throw (Error "Replacer/ Reviver already exists"), registered [] activated).
Proof.
  apply (activateStandards_stops_at_taken_tag activated [] std_number
           [std_bigint; std_regexp; std_date; std_map; std_set]).
  - reflexivity.
  - intros s' [].
  - simpl. auto.
Defined.

(** ** reviver and parse *)

Lemma revive_pass_over (tj : TJ) (e : Reviver.entry) (rest : list Reviver.entry) (s : string) :
  passes_over tj s e -> revive tj (e :: rest) (VString s) = revive tj rest (VString s).
Proof.
  intros [H|(r & Hr & Ht)]; cbn [revive as_string]; [now rewrite H|].
  destruct (startsWith s (Reviver.tag e)); [|reflexivity].
  rewrite Hr. cbn [res_bind]. now rewrite Ht.
Qed.

Lemma revive_first (tj : TJ) (before : list Reviver.entry) (e : Reviver.entry)
    (behind : list Reviver.entry) (s : string) (v : value) :
  Forall (passes_over tj s) before -> revives tj s v e ->
  revive tj (before ++ e :: behind) (VString s) = Ok v.
Proof.
  intros Hb (Hp & He & Ht). induction Hb as [|e0 l H0 _ IH]; cbn [app].
  - cbn [revive as_string]. rewrite Hp, He. cbn [res_bind]. now rewrite Ht.
  - now rewrite revive_pass_over.
Qed.

Lemma parse_string_literal (st : registry) (f : nat) (s : string) :
  parse st (S f) (json_text (VString s)) = reviver (snd (TJSON st f)) st "" (VString s).
Proof.
  rewrite parse_S. unfold JSON.parse.
  now rewrite (parse_text_json_text (fun _ => True) (VString s) I).
Qed.

(** X12: Decode-side precedence: the first entry of [TJSON.revivers] whose tag
    is a prefix of the string and whose function returns a truthy value
    decides what [reviver], and [parse] of the string's literal, return;
    entries behind it are not consulted. *)
Theorem reviver_first_entry_wins (st : registry) (f : nat) (name : string)
    (before : list Reviver.entry) (e : Reviver.entry) (behind : list Reviver.entry)
    (s : string) (v : value) :
  revivers st = (before ++ e :: behind)%list ->
  Forall (passes_over (snd (TJSON st f)) s) before ->
  revives (snd (TJSON st f)) s v e ->
  reviver (snd (TJSON st f)) st name (VString s) = Ok v
  /\ parse st (S f) (json_text (VString s)) = Ok v.
Proof.
  intros Hreg Hb He.
  assert (H : forall n, reviver (snd (TJSON st f)) st n (VString s) = Ok v).
  { intros n. unfold reviver. rewrite Hreg. now apply revive_first. }
  split; [apply H|]. rewrite parse_string_literal. apply H.
Qed.

(** X13: [reviver] (and so [parse]) leaves a value alone when it is not a
    string, and leaves a string alone when every entry is passed over: a tag
    that is a prefix is not enough, the entry's function must return a truthy
    value. *)
Theorem reviver_leaves_alone (tj : TJ) (st : registry) (name : string) :
  (forall val, as_string val = None -> reviver tj st name val = Ok val)
  /\ (forall s, Forall (passes_over tj s) (revivers st) ->
      reviver tj st name (VString s) = Ok (VString s)).
Proof.
  split; [intros val H; now apply revive_other|].
  intros s H. unfold reviver. induction H as [|e l He _ IH]; [reflexivity|].
  now rewrite revive_pass_over.
Qed.



(** ** stringify on the value itself *)


Lemma reviver_first_entry_wins_witness :
  reviver (snd (TJSON activated 0)) activated "when" (VString "(03)kd48yjwi")
  = Ok (VDate (Int 1595838366018))
  /\ parse activated 1 (json_text (VString "(03)kd48yjwi")) = Ok (VDate (Int 1595838366018)).
Proof.
  apply (reviver_first_entry_wins activated 0 "when"
           (map std_reviver_entry [std_number; std_bigint; std_regexp])
           (std_reviver_entry std_date)
           (map std_reviver_entry [std_map; std_set])).
  - reflexivity.
  - repeat constructor; left; reflexivity.
  - repeat split.
Defined.

(** ** Strings that begin with a standard tag *)

Lemma revivers_activated :
  revivers activated
  = map std_reviver_entry [std_number; std_bigint; std_regexp; std_date; std_map; std_set].
Proof. reflexivity. Qed.

Lemma reviver_date_prefix (tj : TJ) (name s : string) :
  reviver tj activated name (VString ("(03)" ++ s)) = Ok (new_Date (parseInt s 36)).
Proof.
  unfold reviver. rewrite revivers_activated. cbn [map].
  rewrite !revive_skip by reflexivity.
  change ("(03)" ++ s) with (Reviver.tag (std_reviver_entry std_date) ++ s).
  apply revive_hit; reflexivity.
Qed.

Lemma reviver_number_prefix (tj : TJ) (name s : string) :
  reviver tj activated name (VString ("(00)" ++ s)) = Ok (number_or_string s).
Proof.
  unfold reviver, number_or_string. rewrite revivers_activated. cbn [map].
  destruct (parseInt s 36) as [|z] eqn:E; [|destruct (z =? 0) eqn:Ez].
  - rewrite revive_pass_over.
    + now rewrite !revive_skip by reflexivity.
    + right. exists (VNumber NaN). split; [|reflexivity].
      cbn [std_reviver_entry Reviver.tag Reviver.exec std_reviver std_tag std_number].
      rewrite (slice_append "(00)" s).
      cbn [parseInt36 ToString res_bind]. now rewrite E.
  - rewrite revive_pass_over.
    + now rewrite !revive_skip by reflexivity.
    + right. exists (VNumber (Int z)). split; [|cbn [truthy]; now rewrite Ez].
      cbn [std_reviver_entry Reviver.tag Reviver.exec std_reviver std_tag std_number].
      rewrite (slice_append "(00)" s).
      cbn [parseInt36 ToString res_bind]. now rewrite E.
  - change ("(00)" ++ s) with (Reviver.tag (std_reviver_entry std_number) ++ s).
    apply revive_hit.
    + cbn [std_reviver_entry Reviver.exec std_reviver std_number parseInt36 ToString res_bind].
      now rewrite E.
    + cbn [truthy]. now rewrite Ez.
Qed.

Lemma reviver_bigint_prefix (tj : TJ) (name s : string) :
  reviver tj activated name (VString ("(01)" ++ s)) = bigint_or_string s.
Proof.
  unfold reviver, bigint_or_string. rewrite revivers_activated. cbn [map].
  rewrite revive_skip by reflexivity.
  destruct (StringToBigInt s) as [z|] eqn:E; [destruct (z =? 0) eqn:Ez|].
  - rewrite revive_pass_over.
    + now rewrite !revive_skip by reflexivity.
    + right. exists (VBigInt z). split; [|cbn [truthy]; now rewrite Ez].
      cbn [std_reviver_entry Reviver.tag Reviver.exec std_reviver std_tag std_bigint].
      rewrite (slice_append "(01)" s).
      cbn [BigInt]. now rewrite E.
  - change ("(01)" ++ s) with (Reviver.tag (std_reviver_entry std_bigint) ++ s).
    apply revive_hit.
    + cbn [std_reviver_entry Reviver.exec std_reviver std_bigint BigInt]. now rewrite E.
    + cbn [truthy]. now rewrite Ez.
  - cbn [revive as_string std_reviver_entry Reviver.tag Reviver.exec std_reviver std_tag std_bigint].
    unfold startsWith. rewrite (prefix_append "(01)" s).
    rewrite (slice_append "(01)" s).
    cbn [BigInt]. now rewrite E.
Qed.

(** X16: After [activateStandards()], [parse] turns every string value that
    begins with "(03)" into a [Date], whatever follows the tag: the Date of
    the base-36 number read from what follows, an invalid Date when no number
    can be read. *)
Theorem parse_date_prefix (f : nat) (s : string) :
  parse activated (S f) (json_text (VString ("(03)" ++ s))) = Ok (new_Date (parseInt s 36)).
Proof. rewrite parse_string_literal. apply reviver_date_prefix. Qed.


(** X18: After [activateStandards()], [parse] of a string value that begins with
    "(01)" throws a [SyntaxError] when what follows is no integer literal;
    it returns the BigInt when it is one, and the string itself when the
    BigInt is [0n]. *)
Theorem parse_bigint_prefix (f : nat) (s : string) :
  parse activated (S f) (json_text (VString ("(01)" ++ s))) = bigint_or_string s.
Proof. rewrite parse_string_literal. apply reviver_bigint_prefix. Qed.

(** ** BigInt and RegExp through their entries *)

Lemma string_rev_rev (s a b : string) :
  string_rev (string_rev s a) b = string_rev a (s ++ b).
Proof.
  revert a b. induction s as [|c s IH]; intros a b; [reflexivity|].
  cbn [string_rev append]. now rewrite IH.
Qed.

Lemma all_chars_rev (p : ascii -> bool) (s acc : string) :
  all_chars p s = true -> all_chars p acc = true -> all_chars p (string_rev s acc) = true.
Proof.
  revert acc. induction s as [|c s IH]; intros acc Hs Hacc; [assumption|].
  cbn [all_chars] in Hs. apply andb_prop in Hs. destruct Hs as [Hc Hs].
  cbn [string_rev]. apply IH; [assumption|]. cbn [all_chars]. now rewrite Hc.
Qed.

Lemma skip_plain (s : string) :
  all_chars (fun c => negb (is_str_whitespace c)) s = true -> skip_str_whitespace s = s.
Proof.
  destruct s as [|c s]; [reflexivity|]. cbn [all_chars skip_str_whitespace].
  intros H. apply andb_prop in H. destruct H as [Hc _].
  now destruct (is_str_whitespace c).
Qed.

(** A string without white space is its own [trim]. *)
Lemma trim_plain (s : string) :
  all_chars (fun c => negb (is_str_whitespace c)) s = true -> trim s = s.
Proof.
  intros H. unfold trim. rewrite (skip_plain s H).
  rewrite skip_plain by (now apply all_chars_rev).
  rewrite string_rev_rev. cbn [string_rev]. apply append_nil_r.
Qed.

Lemma all_chars_to_digits (p : ascii -> bool) (radix : Z) (fuel : nat) (n : Z) (acc : string) :
  (forall d, 0 <= d < 36 -> p (digit_char d) = true) ->
  2 <= radix <= 36 -> all_chars p acc = true ->
  all_chars p (to_digits fuel radix n acc) = true.
Proof.
  intros Hp Hr. revert n acc. induction fuel as [|f IH]; intros n acc Hacc; [assumption|].
  assert (Hmod : 0 <= n mod radix < radix) by (apply Z.mod_pos_bound; lia).
  assert (Hacc' : all_chars p (String (digit_char (n mod radix)) acc) = true).
  { cbn [all_chars]. rewrite Hp by lia. assumption. }
  cbn [to_digits]. destruct (n / radix =? 0); [assumption|]. now apply IH.
Qed.

Lemma digit_char_plain (d : Z) :
  0 <= d < 36 -> negb (is_str_whitespace (digit_char d)) = true.
Proof.
  apply (digit_char_all (fun c => negb (is_str_whitespace c) = true)).
  repeat constructor.
Qed.

Lemma BigInt_toString_plain (z : Z) :
  all_chars (fun c => negb (is_str_whitespace c)) (BigInt_toString z) = true.
Proof.
  unfold BigInt_toString, nat_to_string.
  destruct (z <? 0); [cbn [all_chars]; apply andb_true_intro; split; [reflexivity|]|];
    apply all_chars_to_digits; try (exact digit_char_plain || lia || reflexivity).
Qed.

Lemma all_digits_nat_to_string (n : Z) : 0 <= n -> all_digits 10 (nat_to_string 10 n) = Some n.
Proof.
  intros Hn. unfold all_digits.
  rewrite <- (append_nil_r (nat_to_string 10 n)).
  rewrite (read_nat_to_string 10) by (lia || assumption || discriminate). reflexivity.
Qed.

(** [BigInt(String(z))] is [z]. *)
Lemma StringToBigInt_toString (z : Z) : StringToBigInt (BigInt_toString z) = Some z.
Proof.
  unfold StringToBigInt. rewrite (trim_plain _ (BigInt_toString_plain z)).
  unfold BigInt_toString. destruct (z <? 0) eqn:E.
  - rewrite all_digits_nat_to_string by lia. cbn [option_map]. f_equal. lia.
  - destruct (Z.eq_dec z 0) as [->|Hz]; [reflexivity|].
    destruct (nat_to_string_leading z ltac:(lia)) as (d & s & Hd & Hs).
    rewrite <- (all_digits_nat_to_string z) by lia. rewrite Hs.
    assert (Hc : d = 1 \/ d = 2 \/ d = 3 \/ d = 4 \/ d = 5 \/ d = 6 \/ d = 7 \/ d = 8 \/ d = 9)
      by lia.
    repeat (destruct Hc as [->|Hc]; [reflexivity|]). subst d. reflexivity.
Qed.

(** X19: Every BigInt comes back from the string the "(01)" entry makes of it. *)
Theorem bigint_round_trip (z : Z) (fuel : nat) :
  codec_round_trip activated fuel std_bigint (VBigInt z) = Ok (VBigInt z).
Proof.
  unfold codec_round_trip. cbn [std_replacer std_reviver std_bigint res_bind ToString BigInt].
  now rewrite StringToBigInt_toString.
Qed.

Lemma split_from_skip (sep x rest piece : string) :
  split_from sep (x ++ rest) piece (String.length x) = split_from sep rest piece 0.
Proof.
  induction x as [|c x IH]; [now destruct rest|]. cbn [append String.length split_from].
  exact IH.
Qed.

Lemma append_str1 (piece : string) (c : ascii) (s : string) :
  (piece ++ str1 c) ++ s = piece ++ String c s.
Proof. now rewrite append_assoc. Qed.

Lemma string_filter_length (p : ascii -> bool) (s : string) :
  (String.length (string_filter p s) <= String.length s)%nat.
Proof.
  induction s as [|c s IH]; [constructor|]. cbn [string_filter].
  destruct (p c); cbn [String.length]; lia.
Qed.

Lemma string_filter_all (p : ascii -> bool) (s : string) :
  String.length (string_filter p s) = String.length s -> all_chars p s = true.
Proof.
  induction s as [|c s IH]; [reflexivity|]. cbn [string_filter all_chars].
  pose proof (string_filter_length p s) as Hle.
  destruct (p c); cbn [String.length]; intros H; [apply IH; lia|lia].
Qed.

Lemma valid_flags_chars (flags : string) :
  valid_flags flags = true -> all_chars (fun c => string_mem c flag_order) flags = true.
Proof.
  unfold valid_flags. intros H.
  apply andb_prop in H. destruct H as [H _].
  apply andb_prop in H. destruct H as [_ H].
  apply string_filter_all. now apply Nat.eqb_eq.
Qed.

(** Flags hold no separator: [split] leaves them in one piece. *)
Lemma split_from_flags (flags piece : string) :
  all_chars (fun c => string_mem c flag_order) flags = true ->
  split_from "___flags___" flags piece 0 = [piece ++ flags].
Proof.
  revert piece. induction flags as [|c s IH]; intros piece H.
  - cbn [split_from]. now rewrite append_nil_r.
  - cbn [all_chars] in H. apply andb_prop in H. destruct H as [Hc Hs].
    cbn [split_from String.prefix]. destruct (ascii_dec "_" c) as [<-|_]; [discriminate Hc|].
    rewrite (IH _ Hs). now rewrite append_str1.
Qed.

(** A source without "___flags" in it meets no separator before its end. *)
Lemma separator_border (source flags : string) :
  source <> "" -> String.prefix "___flags" source = false ->
  String.prefix "___flags___" (source ++ "___flags___" ++ flags) = false.
Proof.
  intros Hne H. destruct source as [|c a]; [congruence|]. clear Hne.
  cbn [String.prefix append] in *. destruct (ascii_dec _ c) as [<-|]; [|reflexivity].
  do 8 (try (destruct a as [|c a];
             [first [reflexivity|simpl in H; discriminate H]
             |cbn [String.prefix append] in *;
              first [discriminate H|destruct (ascii_dec _ c) as [<-|]; [|reflexivity]]])).
Qed.

Lemma split_from_source (source flags piece : string) :
  contains "___flags" source = false ->
  split_from "___flags___" (source ++ "___flags___" ++ flags) piece 0
  = (piece ++ source) :: split_from "___flags___" flags "" 0.
Proof.
  revert piece. induction source as [|c a IH]; intros piece H.
  - pose proof (prefix_append "___flags___" flags) as Hp.
    rewrite append_nil_r.
    change ("" ++ "___flags___" ++ flags) with (String "_" ("__flags___" ++ flags)).
    change ("___flags___" ++ flags) with (String "_" ("__flags___" ++ flags)) in Hp.
    cbn [split_from]. rewrite Hp.
    change (String.length "___flags___" - 1)%nat with (String.length "__flags___").
    now rewrite split_from_skip.
  - cbn [contains] in H. apply orb_false_elim in H. destruct H as [Hp Hc].
    pose proof (separator_border (String c a) flags ltac:(discriminate) Hp) as Hb.
    change (String c a ++ "___flags___" ++ flags)
      with (String c (a ++ "___flags___" ++ flags)) in *.
    cbn [split_from]. rewrite Hb, (IH _ Hc). now rewrite append_str1.
Qed.

(** [split] gives the source and the flags back. *)
Lemma split_source_flags (source flags : string) :
  contains "___flags" source = false -> valid_flags flags = true ->
  split (source ++ "___flags___" ++ flags) "___flags___" = [source; flags].
Proof.
  intros Hs Hf. unfold split. rewrite split_from_source by assumption.
  now rewrite split_from_flags by (now apply valid_flags_chars).
Qed.

Lemma RegExp_valid_flags (source flags : string) (r : value) :
  RegExp source flags = Ok r -> valid_flags flags = true.
Proof. unfold RegExp. now destruct (valid_flags flags). Qed.

(** X20: A RegExp comes back from the string the "(02)" entry makes of it, when
    it is one the constructor builds from its own source and flags and its
    source has no "___flags" in it. *)
Theorem regexp_round_trip (source flags : string) (fuel : nat) :
  RegExp source flags = Ok (VRegExp source flags) ->
  contains "___flags" source = false ->
  codec_round_trip activated fuel std_regexp (VRegExp source flags)
  = Ok (VRegExp source flags).
Proof.
  intros Hr Hs. unfold codec_round_trip.
  cbn [std_replacer std_reviver std_regexp res_bind ToString].
  rewrite split_source_flags by (assumption || eapply RegExp_valid_flags; eassumption).
  exact Hr.
Qed.

Lemma regexp_round_trip_witness :
  codec_round_trip activated 0 std_regexp (VRegExp "so_cool" "gi") = Ok (VRegExp "so_cool" "gi").
Proof. apply regexp_round_trip; reflexivity. Defined.

(** ** Round trips of trees with typed leaves *)

Lemma activated_replacers :
  replacers activated
  = map std_replacer_entry [std_number; std_bigint; std_regexp; std_date; std_map; std_set].
Proof. reflexivity. Qed.

Lemma replace_member_zero (tj : TJ) :
  replace_member tj (replacers activated) (VBigInt 0)
  = Ok (encode_member std_tagged_member (VBigInt 0)).
Proof. reflexivity. Qed.

Lemma replace_member_typed (tj : TJ) (x : value) :
  tree_of encodable_leaf x ->
  replace_member tj (replacers activated) x = Ok (encode_member std_tagged_member x).
Proof.
  destruct x as [| |b|n|z|s|elems|props|src fl|t|ents|mems];
    cbn [tree_of encodable_leaf]; try contradiction; intros H; try reflexivity.
  - destruct n as [|z]; [reflexivity|].
    rewrite activated_replacers. cbn [map].
    match goal with
    | |- replace_member _ (?e :: ?rest) _ = _ =>
        rewrite (replace_member_accept tj e rest (VNumber (Int z))
                   (Number_toString (Int z) 36)); [reflexivity|]
    end.
    exists (VBool true), (VString (Number_toString (Int z) 36)).
    repeat split. cbn [truthy]. now rewrite Number_toString_nonempty by lia.
  - unfold encode_member, std_tagged_member.
    destruct (z =? 0) eqn:E; [lia|].
    rewrite activated_replacers.
    change (map std_replacer_entry [std_number; std_bigint; std_regexp; std_date; std_map; std_set])
      with ([std_replacer_entry std_number]
            ++ std_replacer_entry std_bigint
            :: map std_replacer_entry [std_regexp; std_date; std_map; std_set])%list.
    rewrite (replace_member_first_match tj _ _ _ (VBigInt z) (BigInt_toString z));
      [reflexivity| |].
    + repeat constructor; exists (VBool false); split; auto.
    + exists (VBool true), (VBigInt z). repeat split. cbn [truthy]. now rewrite E.
  - rewrite activated_replacers.
    change (map std_replacer_entry [std_number; std_bigint; std_regexp; std_date; std_map; std_set])
      with ([std_replacer_entry std_number; std_replacer_entry std_bigint]
            ++ std_replacer_entry std_regexp
            :: map std_replacer_entry [std_date; std_map; std_set])%list.
    rewrite (replace_member_first_match tj _ _ _ (VRegExp src fl)
               (src ++ "___flags___" ++ fl)); [reflexivity| |].
    + repeat constructor; exists (VBool false); split; auto.
    + exists (VBool true), (VString (src ++ "___flags___" ++ fl)). repeat split.
      now destruct src.
  - apply replace_member_standard_date.
Qed.

Lemma replace_elems_each (tj : TJ) (elems : list value) :
  Forall (fun x => replace_member tj (replacers activated) x
                   = Ok (encode_member std_tagged_member x)) elems ->
  replace_elems tj (replacers activated) elems
  = Ok (map (encode_member std_tagged_member) elems).
Proof.
  induction 1 as [|x l Hx _ IH]; [reflexivity|].
  cbn [replace_elems map]. now rewrite Hx, IH.
Qed.

Lemma replace_props_each (tj : TJ) (props : list (string * value)) :
  Forall (fun kv => replace_member tj (replacers activated) (snd kv)
                    = Ok (encode_member std_tagged_member (snd kv))) props ->
  replace_props tj (replacers activated) props
  = Ok (map (fun kv => (fst kv, encode_member std_tagged_member (snd kv))) props).
Proof.
  induction 1 as [|[k x] l Hx _ IH]; [reflexivity|].
  cbn [replace_props map fst snd] in *. now rewrite Hx, IH.
Qed.

Lemma tree_of_elems (leaf : value -> Prop) (elems : list value) :
  tree_of leaf (VArray elems) <-> Forall (tree_of leaf) elems.
Proof.
  cbn [tree_of]. induction elems as [|x l IH]; cbn [fold_right].
  - split; [constructor|trivial].
  - split.
    + intros [Hx Hl]. constructor; [assumption|now apply IH].
    + intros H. inversion H; subst. split; [assumption|now apply IH].
Qed.

Lemma tree_of_props (leaf : value -> Prop) (props : list (string * value)) :
  tree_of leaf (VObject props)
  <-> enumeration_order props /\ Forall (fun kv => tree_of leaf (snd kv)) props.
Proof.
  cbn [tree_of]. apply and_iff_compat_l.
  induction props as [|[k x] l IH]; cbn [fold_right].
  - split; [constructor|trivial].
  - split.
    + intros [Hx Hl]. constructor; [assumption|now apply IH].
    + intros H. inversion H; subst. split; [assumption|now apply IH].
Qed.

Lemma replacer_typed (tj : TJ) (key : string) (v : value) :
  tree_of encodable_leaf v ->
  replacer tj activated key v = Ok (encode_members std_tagged_member v).
Proof.
  destruct v as [| |b|n|z|s|elems|props|src fl|t|ents|mems]; intros H;
    try (cbn [tree_of encodable_leaf] in H; contradiction); try reflexivity;
    unfold replacer; cbn [typeof_object].
  - apply tree_of_elems in H. rewrite replace_elems_each; [reflexivity|].
    eapply Forall_impl; [|exact H]. intros x Hx. now apply replace_member_typed.
  - apply tree_of_props in H. destruct H as [_ H]. rewrite replace_props_each; [reflexivity|].
    eapply Forall_impl; [|exact H]. intros [k x] Hx. now apply replace_member_typed.
Qed.

(** [JSON.stringify] with [TJSON.replacer] as its hook writes the compact
    text of the encoded tree, and leaves the tree encoded. *)
Lemma serialize_typed (tj : TJ) (v : value) :
  tree_of encodable_leaf v -> std_tagged_member v = None ->
  forall fuel indent key,
    (depth v <= fuel)%nat ->
    JSON.SerializeJSONProperty (replacer tj activated) "" fuel indent key v
    = Ok (Some (json_text (encode std_tagged_member v)), encode std_tagged_member v).
Proof.
  induction v as [| |b|n|z|s|elems IH|props IH|src fl|t|ents IH|mems IH]
    using value_members_ind; intros Htree Hnone fuel indent key Hfuel;
    try discriminate Hnone; try (simpl in Htree; contradiction);
    (destruct fuel as [|f]; [simpl in Hfuel; lia|]).
  - reflexivity.
  - reflexivity.
  - cbn [tree_of encodable_leaf] in Htree. cbn [std_tagged_member] in Hnone.
    destruct (z =? 0) eqn:E; [lia|discriminate].
  - reflexivity.
  - (* arrays *)
    destruct (depth_array elems f Hfuel) as [Hf Hdepth].
    cbn [JSON.SerializeJSONProperty]. rewrite (replacer_typed tj key _ Htree).
    cbn [res_bind encode_members].
    rewrite array_elements_encode.
    + cbn [res_bind]. rewrite wrap_compact. reflexivity.
    + cbn [tree_of] in Htree. clear Hfuel Hnone.
      induction elems as [|x l IHl]; constructor.
      * inversion IH; subst. inversion Hdepth; subst. destruct Htree as [Tx _].
        intros ind k. unfold encode_member, encode_deep.
        destruct (std_tagged_member x) as [s|] eqn:Ex.
        -- destruct f as [|f']; [lia|]. reflexivity.
        -- now apply H1.
      * inversion IH; subst. inversion Hdepth; subst. destruct Htree as [_ Tl].
        now apply IHl.
  - (* objects *)
    destruct (depth_object props f Hfuel) as [Hf Hdepth].
    cbn [JSON.SerializeJSONProperty]. rewrite (replacer_typed tj key _ Htree).
    cbn [res_bind encode_members].
    rewrite object_members_encode.
    + cbn [res_bind]. rewrite wrap_compact, encode_object. reflexivity.
    + cbn [tree_of] in Htree. destruct Htree as [_ Htree]. clear Hfuel Hnone.
      induction props as [|[k0 x] l IHl]; constructor.
      * inversion IH; subst. inversion Hdepth; subst. destruct Htree as [Tx _].
        simpl snd in *.
        intros ind k. unfold encode_member, encode_deep.
        destruct (std_tagged_member x) as [s|] eqn:Ex.
        -- destruct f as [|f']; [lia|]. reflexivity.
        -- now apply H1.
      * inversion IH; subst. inversion Hdepth; subst. destruct Htree as [_ Tl].
        now apply IHl.
Qed.

(** A member is written as the compact text of its encoding. *)
Lemma serializes_member (tj : TJ) (f : nat) (x : value) :
  tree_of encodable_leaf x -> (depth x <= f)%nat -> (1 <= f)%nat ->
  serializes std_tagged_member (replacer tj activated) f x.
Proof.
  intros Hx Hd Hf ind k. unfold encode_member, encode_deep.
  destruct (std_tagged_member x) as [s|] eqn:Ex.
  - destruct f as [|f']; [lia|]. reflexivity.
  - now apply serialize_typed.
Qed.

(** The encoded tree is a JSON tree without Numbers. *)
Lemma encode_typed_tree (v : value) :
  tree_of encodable_leaf v -> std_tagged_member v = None ->
  json_tree plain_scalar (encode std_tagged_member v).
Proof.
  induction v as [| |b|n|z|s|elems IH|props IH|src fl|t|ents IH|mems IH]
    using value_members_ind; intros Htree Hnone;
    try discriminate Hnone; try (simpl in Htree; contradiction); try exact I.
  - cbn [tree_of encodable_leaf] in Htree. cbn [std_tagged_member] in Hnone.
    destruct (z =? 0) eqn:E; [lia|discriminate].
  - cbn [tree_of] in Htree. cbn [encode json_tree]. clear Hnone.
    induction IH as [|x l Hx _ IHl]; cbn [map fold_right]; [exact I|].
    destruct Htree as [Tx Tl]. split; [|now apply IHl].
    destruct (std_tagged_member x) eqn:Ex; [exact I|now apply Hx].
  - cbn [tree_of] in Htree. destruct Htree as [Ho Htree]. cbn [encode json_tree]. split.
    + apply (enumeration_order_map
               (fun x => match std_tagged_member x with
                         | Some s => VString s
                         | None => encode std_tagged_member x
                         end)) in Ho.
      unfold map_values in Ho. erewrite map_ext; [exact Ho|]. now intros [k x].
    + clear Ho Hnone.
      induction IH as [|[k x] l Hx _ IHl]; cbn [map fold_right]; [exact I|].
      destruct Htree as [Tx Tl]. split; [|now apply IHl]. cbn [snd] in Hx.
      destruct (std_tagged_member x) eqn:Ex; [exact I|now apply Hx].
Qed.

Lemma reviver_standard_bigint (tj : TJ) (name : string) (z : Z) :
  z <> 0 ->
  reviver tj activated name (VString ("(01)" ++ BigInt_toString z)) = Ok (VBigInt z).
Proof.
  intros Hz. rewrite reviver_bigint_prefix. unfold bigint_or_string.
  rewrite StringToBigInt_toString. destruct (z =? 0) eqn:E; [lia|reflexivity].
Qed.

Lemma reviver_standard_regexp (tj : TJ) (name source flags : string) :
  RegExp source flags = Ok (VRegExp source flags) -> contains "___flags" source = false ->
  reviver tj activated name (VString ("(02)" ++ source ++ "___flags___" ++ flags))
  = Ok (VRegExp source flags).
Proof.
  intros Hr Hs. unfold reviver. rewrite revivers_activated. cbn [map].
  rewrite !revive_skip by reflexivity.
  change ("(02)" ++ source ++ "___flags___" ++ flags)
    with (Reviver.tag (std_reviver_entry std_regexp) ++ source ++ "___flags___" ++ flags).
  apply revive_hit; [|reflexivity].
  cbn [std_reviver_entry Reviver.exec std_reviver std_regexp].
  rewrite split_source_flags by (assumption || eapply RegExp_valid_flags; eassumption).
  exact Hr.
Qed.

(** [TJSON.reviver] on the tagged string of a leaf. *)
Lemma reviver_tagged_leaf (tj : TJ) (name : string) (x : value) (s : string) :
  tree_of encodable_leaf x -> std_tagged_member x = Some s ->
  reviver tj activated name (VString s) = Ok (restored x).
Proof.
  destruct x as [| |b|n|z|t|elems|props|src fl|t|ents|mems];
    cbn [tree_of encodable_leaf std_tagged_member restored restored_leaf];
    try discriminate; intros H E.
  - injection E as <-. destruct n as [|z].
    + exact (reviver_number_prefix tj name "NaN").
    + destruct (z =? 0) eqn:Ez.
      * apply Z.eqb_eq in Ez. subst z. exact (reviver_number_prefix tj name "0").
      * apply reviver_standard_number. lia.
  - destruct (z =? 0); [discriminate|]. injection E as <-.
    now apply reviver_standard_bigint.
  - injection E as <-. now apply reviver_standard_regexp.
  - injection E as <-. destruct t as [|d].
    + exact (reviver_date_prefix tj name "NaN").
    + now apply reviver_standard_date.
Qed.

Lemma restored_defined (x : value) : tree_of encodable_leaf x -> restored x <> VUndefined.
Proof.
  destruct x as [| |b|n|z|t|elems|props|src fl|t|ents|mems];
    cbn [tree_of encodable_leaf restored restored_leaf]; try contradiction;
    try discriminate.
  - destruct n as [|z]; [discriminate|]. destruct (z =? 0); discriminate.
  - destruct t; discriminate.
Qed.

(** [JSON.parse] with [TJSON.reviver] as its hook rebuilds the tree from
    the encoded one, leaf by leaf. *)
Lemma internalize_typed (tj : TJ) (v : value) :
  tree_of encodable_leaf v -> std_tagged_member v = None ->
  forall name,
    JSON.InternalizeJSONProperty (reviver tj activated) name (encode std_tagged_member v)
    = Ok (restored v).
Proof.
  induction v as [| |b|n|z|s|elems IH|props IH|src fl|t|ents IH|mems IH]
    using value_members_ind; intros Htree Hnone name;
    try discriminate Hnone; try (simpl in Htree; contradiction).
  - now apply revive_other.
  - now apply revive_other.
  - cbn [tree_of encodable_leaf] in Htree. cbn [std_tagged_member] in Hnone.
    destruct (z =? 0) eqn:E; [lia|discriminate].
  - now apply revive_untagged.
  - (* arrays *)
    cbn [encode restored JSON.InternalizeJSONProperty].
    match goal with
    | |- res_bind (?each 0 _) _ = _ =>
        assert (Heach : forall index,
                  each index
                    (map (fun x => match std_tagged_member x with
                                   | Some s => VString s
                                   | None => encode std_tagged_member x
                                   end) elems) = Ok (map restored elems))
    end.
    { cbn [tree_of] in Htree. clear Hnone.
      induction elems as [|x l IHl]; intros index; [reflexivity|].
      inversion IH; subst. destruct Htree as [Tx Tl]. cbn [map].
      assert (Hx : JSON.InternalizeJSONProperty (reviver tj activated)
                     (nat_to_string 10 index)
                     match std_tagged_member x with
                     | Some s => VString s
                     | None => encode std_tagged_member x
                     end = Ok (restored x)).
      { destruct (std_tagged_member x) as [s|] eqn:E; [|now apply H1].
        cbn [JSON.InternalizeJSONProperty]. now apply reviver_tagged_leaf. }
      rewrite Hx. cbn [res_bind]. rewrite IHl by assumption. reflexivity. }
    rewrite Heach. cbn [res_bind]. now apply revive_other.
  - (* objects *)
    cbn [encode restored JSON.InternalizeJSONProperty].
    match goal with
    | |- res_bind (?each _) _ = _ =>
        assert (Heach : each
                    (map (fun kv => match kv with
                                    | (k, x) => (k, match std_tagged_member x with
                                                    | Some s => VString s
                                                    | None => encode std_tagged_member x
                                                    end)
                                    end) props)
                  = Ok (map (fun kv => match kv with (k, x) => (k, restored x) end) props))
    end.
    { cbn [tree_of] in Htree. destruct Htree as [_ Htree]. clear Hnone.
      induction props as [|[k x] l IHl]; [reflexivity|].
      inversion IH; subst. destruct Htree as [Tx Tl]. cbn [map]. simpl snd in *.
      assert (Hx : JSON.InternalizeJSONProperty (reviver tj activated) k
                     match std_tagged_member x with
                     | Some s => VString s
                     | None => encode std_tagged_member x
                     end = Ok (restored x)).
      { destruct (std_tagged_member x) as [s|] eqn:E; [|now apply H1].
        cbn [JSON.InternalizeJSONProperty]. now apply reviver_tagged_leaf. }
      rewrite Hx. cbn [res_bind]. rewrite IHl by assumption. cbn [res_bind].
      pose proof (restored_defined x Tx). destruct (restored x); congruence. }
    rewrite Heach. cbn [res_bind]. now apply revive_other.
Qed.

Lemma tree_of_weaken (leaf leaf' : value -> Prop) (v : value) :
  (forall x, leaf x -> leaf' x) -> tree_of leaf v -> tree_of leaf' v.
Proof.
  intros Hl.
  induction v as [| |b|n|z|s|elems IH|props IH|src fl|t|ents IH|mems IH]
    using value_members_ind; cbn [tree_of]; auto.
  - induction IH as [|x l Hx _ IHl]; cbn [fold_right]; [auto|]. intros [H1 H2]. auto.
  - intros [Ho H]. split; [assumption|]. clear Ho.
    induction IH as [|[k x] l Hx _ IHl]; cbn [fold_right snd] in *; [auto|].
    destruct H as [H1 H2]. auto.
Qed.

Lemma typed_tree_encodable (v : value) : typed_tree v -> tree_of encodable_leaf v.
Proof. apply tree_of_weaken. now intros x [H _]. Qed.

(** A typed tree comes back as it was. *)
Lemma restored_typed (v : value) : typed_tree v -> restored v = v.
Proof.
  unfold typed_tree.
  induction v as [| |b|n|z|s|elems IH|props IH|src fl|t|ents IH|mems IH]
    using value_members_ind; cbn [tree_of restored restored_leaf]; try reflexivity.
  - intros [_ H]. destruct n as [|z]; [contradiction|].
    destruct (z =? 0) eqn:E; [lia|reflexivity].
  - intros H. f_equal. induction IH as [|x l Hx _ IHl]; [reflexivity|].
    destruct H as [H1 H2]. cbn [map]. now rewrite Hx, IHl.
  - intros [_ H]. f_equal. induction IH as [|[k x] l Hx _ IHl]; [reflexivity|].
    destruct H as [H1 H2]. cbn [map snd] in *. now rewrite Hx, IHl.
  - intros [_ H]. destruct t; [contradiction|reflexivity].
Qed.

(** [TJSON.stringify] and [TJSON.parse] as the Map and Set entries call
    them, and as a caller does. *)
Lemma tj_stringify_typed (f : nat) (v : value) :
  tree_of encodable_leaf v -> std_tagged_member v = None -> (depth v <= f)%nat ->
  tj_stringify (snd (TJSON activated (S f))) v
  = Ok (VString (json_text (encode std_tagged_member v)), encode std_tagged_member v).
Proof.
  intros Htree Hnone Hfuel.
  change (tj_stringify (snd (TJSON activated (S f))) v)
    with (JSON.stringify f v (replacer (snd (TJSON activated f)) activated) VUndefined).
  unfold JSON.stringify. cbn [JSON.gap_of].
  rewrite serialize_typed by assumption. reflexivity.
Qed.

Lemma tj_parse_typed (f : nat) (v : value) :
  tree_of encodable_leaf v -> std_tagged_member v = None ->
  tj_parse (snd (TJSON activated (S f))) (json_text (encode std_tagged_member v))
  = Ok (restored v).
Proof.
  intros Htree Hnone.
  change (tj_parse (snd (TJSON activated (S f))) (json_text (encode std_tagged_member v)))
    with (JSON.parse (json_text (encode std_tagged_member v))
            (reviver (snd (TJSON activated f)) activated)).
  unfold JSON.parse.
  rewrite (parse_text_json_text plain_scalar) by (now apply encode_typed_tree).
  cbn [res_bind]. now apply internalize_typed.
Qed.

(** X21: After [activateStandards()], an object or array whose leaves are
    [null], booleans, untagged strings, safe integers and BigInts other than
    zero, valid Dates and RegExps comes back from [parse(stringify(v))] as
    it was; [stringify] leaves [v] with every such Number, BigInt, RegExp
    and Date replaced by its tagged string. *)
Theorem round_trip_typed_tree (v : value) (fuel : nat) :
  typed_tree v ->
  std_tagged_member v = None ->
  (depth v < fuel)%nat ->
  stringify activated fuel v VUndefined
  = Ok (VString (json_text (encode std_tagged_member v)), encode std_tagged_member v)
  /\ parse activated fuel (json_text (encode std_tagged_member v)) = Ok v.
Proof.
  intros Htree Hnone Hfuel. destruct fuel as [|f]; [lia|].
  pose proof (typed_tree_encodable v Htree) as He. split.
  - apply tj_stringify_typed; (assumption || lia).
  - unfold parse. rewrite tj_parse_typed by assumption. now rewrite restored_typed.
Qed.

Lemma round_trip_typed_tree_witness :
  stringify activated 4 typed_sample VUndefined
  = Ok (VString (json_text (encode std_tagged_member typed_sample)),
        encode std_tagged_member typed_sample)
  /\ parse activated 4 (json_text (encode std_tagged_member typed_sample)) = Ok typed_sample.
Proof.
  apply (round_trip_typed_tree typed_sample 4).
  - unfold typed_tree, typed_sample. cbn [tree_of fold_right].
    unfold standard_leaf, encodable_leaf, safe_integer, MAX_SAFE_INTEGER, valid_time, max_time.
    repeat split; try reflexivity; try lia.
  - reflexivity.
  - cbn. lia.
Defined.

(** X22: What does not come back: after [activateStandards()], in an object or
    array as above that may also hold [NaN], the Number [0] and invalid
    Dates, [parse(stringify(v))] gives [30191] for [NaN], the string "(00)0"
    for [0] and the Date of [30191] for an invalid Date, and every other
    leaf as it was. *)
Theorem round_trip_restored (v : value) (fuel : nat) :
  tree_of encodable_leaf v ->
  std_tagged_member v = None ->
  (depth v < fuel)%nat ->
  exists text after,
    stringify activated fuel v VUndefined = Ok (VString text, after)
    /\ parse activated fuel text = Ok (restored v).
Proof.
  intros Htree Hnone Hfuel. destruct fuel as [|f]; [lia|].
  exists (json_text (encode std_tagged_member v)), (encode std_tagged_member v). split.
  - apply tj_stringify_typed; (assumption || lia).
  - unfold parse. now apply tj_parse_typed.
Qed.

Lemma round_trip_restored_witness :
  restored lossy_sample
  = VArray [VNumber (Int 30191); VString "(00)0"; VDate (Int 30191); VNumber (Int 27)]
  /\ exists text after,
       stringify activated 3 lossy_sample VUndefined = Ok (VString text, after)
       /\ parse activated 3 text = Ok (restored lossy_sample).
Proof.
  split; [reflexivity|].
  apply (round_trip_restored lossy_sample 3).
  - unfold lossy_sample. cbn [tree_of fold_right encodable_leaf].
    unfold safe_integer, MAX_SAFE_INTEGER. repeat split; lia.
  - reflexivity.
  - cbn. lia.
Defined.

(** ** Sets and Maps through their entries *)

Lemma Map_of_items_entries (entries acc : list (value * value)) :
  Map_of_items acc (map (fun '(k, x) => VArray [k; x]) entries)
  = Ok (fold_left (fun acc kx => Map_set acc (fst kx) (snd kx)) entries acc).
Proof.
  revert acc. induction entries as [|[k x] l IH]; intros acc; [reflexivity|].
  cbn [map Map_of_items entry_of nth res_bind fold_left fst snd]. apply IH.
Qed.

(** X23: After [activateStandards()], a Set whose members are typed trees comes
    back from the string the "(05)" entry makes of it. *)
Theorem set_round_trip (members : list value) (fuel : nat) :
  typed_tree (VArray members) ->
  distinct_members members ->
  (depth (VArray members) < fuel)%nat ->
  codec_round_trip activated fuel std_set (VSet members) = Ok (VSet members).
Proof.
  intros Htree Hset Hfuel. destruct fuel as [|f]; [lia|].
  pose proof (typed_tree_encodable _ Htree) as He.
  unfold codec_round_trip. cbn [std_replacer std_reviver std_set].
  rewrite tj_stringify_typed by (assumption || reflexivity || lia).
  cbn [res_bind fst ToString].
  rewrite tj_parse_typed by (assumption || reflexivity).
  rewrite restored_typed by assumption.
  cbn [res_bind]. unfold new_Set. cbn [iterate res_bind]. now rewrite Hset.
Qed.

Lemma set_round_trip_witness :
  codec_round_trip activated 3 std_set
    (VSet [VString "item"; VNumber (Int 12); VDate (Int 1595838366018); VBigInt (-10)])
  = Ok (VSet [VString "item"; VNumber (Int 12); VDate (Int 1595838366018); VBigInt (-10)]).
Proof.
  apply set_round_trip.
  - unfold typed_tree. cbn [tree_of fold_right].
    unfold standard_leaf, encodable_leaf, safe_integer, MAX_SAFE_INTEGER, valid_time, max_time.
    repeat split; try reflexivity; try lia.
  - reflexivity.
  - cbn. lia.
Defined.

(** X24: After [activateStandards()], a Map whose keys and values are typed
    trees comes back from the string the "(04)" entry makes of it. *)
Theorem map_round_trip (entries : list (value * value)) (fuel : nat) :
  typed_tree (entries_array entries) ->
  distinct_keys entries ->
  (depth (entries_array entries) < fuel)%nat ->
  codec_round_trip activated fuel std_map (VMap entries) = Ok (VMap entries).
Proof.
  intros Htree Hmap Hfuel. destruct fuel as [|f]; [lia|].
  pose proof (typed_tree_encodable _ Htree) as He.
  unfold codec_round_trip. cbn [std_replacer std_reviver std_map].
  rewrite tj_stringify_typed by (assumption || reflexivity || lia).
  cbn [res_bind fst ToString].
  rewrite tj_parse_typed by (assumption || reflexivity).
  rewrite restored_typed by assumption.
  cbn [res_bind]. unfold new_Map, entries_array. cbn [iterate res_bind].
  rewrite Map_of_items_entries. cbn [res_bind]. now rewrite Hmap.
Qed.

Lemma map_round_trip_witness :
  codec_round_trip activated 4 std_map
    (VMap [(VString "date", VDate (Int 1595838366018)); (VNumber (Int 12), VRegExp "so cool" "i")])
  = Ok (VMap [(VString "date", VDate (Int 1595838366018));
              (VNumber (Int 12), VRegExp "so cool" "i")]).
Proof.
  apply map_round_trip.
  - unfold typed_tree, entries_array. cbn [map tree_of fold_right].
    unfold standard_leaf, encodable_leaf, safe_integer, MAX_SAFE_INTEGER, valid_time, max_time.
    repeat split; try reflexivity; try lia.
  - reflexivity.
  - cbn. lia.
Defined.

(** ** A member [0n] *)

Lemma object_members_throws (tagged : value -> option string)
    (R : string -> value -> res value) (f : nat) (indent : string)
    (pre : list (string * value)) (k : string) (x : value) (post : list (string * value))
    (e : error) :
  Forall (fun kv => serializes tagged R f (snd kv)) pre ->
  JSON.SerializeJSONProperty R "" f indent k x = Throw e ->
  JSON.object_members "" (JSON.SerializeJSONProperty R "" f indent)
    (map (fun kv => (fst kv, encode_member tagged (snd kv))) pre ++ (k, x) :: post)
  = Throw e.
Proof.
  intros Hpre Hx. induction Hpre as [|[k0 x0] l H0 _ IH].
  - cbn [map app JSON.object_members]. now rewrite Hx.
  - cbn [map app JSON.object_members fst snd] in *. rewrite H0. cbn [res_bind].
    now rewrite IH.
Qed.

Lemma array_elements_throws (tagged : value -> option string)
    (R : string -> value -> res value) (f : nat) (indent : string)
    (pre : list value) (x : value) (post : list value) (e : error) (index : Z) :
  Forall (serializes tagged R f) pre ->
  (forall key, JSON.SerializeJSONProperty R "" f indent key x = Throw e) ->
  JSON.array_elements (JSON.SerializeJSONProperty R "" f indent) index
    (map (encode_member tagged) pre ++ x :: post)
  = Throw e.
Proof.
  intros Hpre Hx. revert index. induction Hpre as [|x0 l H0 _ IH]; intros index.
  - cbn [map app JSON.array_elements]. now rewrite Hx.
  - cbn [map app JSON.array_elements]. rewrite H0. cbn [res_bind]. now rewrite IH.
Qed.

Lemma serializes_members (tj : TJ) (f : nat) (l : list value) :
  Forall (tree_of encodable_leaf) l -> Forall (fun x => (depth x <= f)%nat) l -> (1 <= f)%nat ->
  Forall (serializes std_tagged_member (replacer tj activated) f) l.
Proof.
  intros Ht Hd Hf. induction Ht as [|x l Hx _ IH]; constructor.
  - inversion Hd; subst. now apply serializes_member.
  - inversion Hd; subst. now apply IH.
Qed.

(** X25: After [activateStandards()], [stringify] throws a [TypeError] on an
    object or array that has a member [0n] among members that are encodable
    trees: the "(01)" entry's result [0n] is falsy, so the member is left to
    [JSON.stringify]. *)
Theorem stringify_zero_bigint_throws (fuel : nat) :
  (forall (pre post : list (string * value)) (k : string),
     Forall (fun kv => tree_of encodable_leaf (snd kv)) (pre ++ post) ->
     (depth (VObject (pre ++ (k, VBigInt 0) :: post)) < fuel)%nat ->
     stringify activated fuel (VObject (pre ++ (k, VBigInt 0) :: post)) VUndefined
     = Throw (TypeError "Do not know how to serialize a BigInt"))
  /\ (forall (pre post : list value),
        Forall (tree_of encodable_leaf) (pre ++ post) ->
        (depth (VArray (pre ++ VBigInt 0 :: post)) < fuel)%nat ->
        stringify activated fuel (VArray (pre ++ VBigInt 0 :: post)) VUndefined
        = Throw (TypeError "Do not know how to serialize a BigInt")).
Proof.
  split.
  - intros pre post k Htree Hfuel. destruct fuel as [|[|f]]; try (simpl in Hfuel; lia).
    apply Forall_app in Htree. destruct Htree as [Hpre Hpost].
    apply PeanoNat.lt_n_Sm_le in Hfuel.
    destruct (depth_object _ _ Hfuel) as [Hf Hdepth].
    apply Forall_app in Hdepth. destruct Hdepth as [Dpre _].
    rewrite stringify_S. unfold JSON.stringify. cbn [JSON.gap_of JSON.SerializeJSONProperty].
    unfold replacer at 1. cbn [typeof_object].
    rewrite replace_props_each.
    + cbn [res_bind]. rewrite map_app. cbn [map fst snd].
      change (encode_member std_tagged_member (VBigInt 0)) with (VBigInt 0).
      rewrite (object_members_throws std_tagged_member _ f "" pre k (VBigInt 0) _
                 (TypeError "Do not know how to serialize a BigInt")); [reflexivity| |].
      * clear Hfuel Hpost. induction Hpre as [|[k0 x0] l H0 _ IH]; constructor.
        -- inversion Dpre; subst. now apply serializes_member.
        -- inversion Dpre; subst. now apply IH.
      * destruct f as [|f']; [lia|reflexivity].
    + apply Forall_app. split; [|constructor].
      * eapply Forall_impl; [|exact Hpre]. intros [k0 x0] H0. now apply replace_member_typed.
      * apply replace_member_zero.
      * eapply Forall_impl; [|exact Hpost]. intros [k0 x0] H0. now apply replace_member_typed.
  - intros pre post Htree Hfuel. destruct fuel as [|[|f]]; try (simpl in Hfuel; lia).
    apply Forall_app in Htree. destruct Htree as [Hpre Hpost].
    apply PeanoNat.lt_n_Sm_le in Hfuel.
    destruct (depth_array _ _ Hfuel) as [Hf Hdepth].
    apply Forall_app in Hdepth. destruct Hdepth as [Dpre _].
    rewrite stringify_S. unfold JSON.stringify. cbn [JSON.gap_of JSON.SerializeJSONProperty].
    unfold replacer at 1. cbn [typeof_object].
    rewrite replace_elems_each.
    + cbn [res_bind]. rewrite map_app. cbn [map].
      change (encode_member std_tagged_member (VBigInt 0)) with (VBigInt 0).
      rewrite (array_elements_throws std_tagged_member _ f "" pre (VBigInt 0) _
                 (TypeError "Do not know how to serialize a BigInt")); [reflexivity| |].
      * now apply serializes_members.
      * intros key. destruct f as [|f']; [lia|reflexivity].
    + apply Forall_app. split; [|constructor].
      * eapply Forall_impl; [|exact Hpre]. intros x0 H0. now apply replace_member_typed.
      * apply replace_member_zero.
      * eapply Forall_impl; [|exact Hpost]. intros x0 H0. now apply replace_member_typed.
Qed.

Lemma stringify_zero_bigint_throws_witness :
  stringify activated 3 (VObject [("age", VNumber (Int 27)); ("big", VBigInt 0)]) VUndefined
  = Throw (TypeError "Do not know how to serialize a BigInt").
Proof.
  apply (proj1 (stringify_zero_bigint_throws 3) [("age", VNumber (Int 27))] [] "big").
  - cbn [app]. repeat constructor; cbn; unfold safe_integer, MAX_SAFE_INTEGER; lia.
  - cbn. lia.
Defined.

(** ** stringify on the argument it has changed *)

Lemma depth_pos (v : value) : (1 <= depth v)%nat.
Proof. destruct v; simpl; lia. Qed.

Lemma depth_encode (tagged : value -> option string) (v : value) :
  (depth (encode tagged v) <= depth v)%nat.
Proof.
  induction v as [| |b|n|z|s|elems IH|props IH|src fl|t|ents IH|mems IH]
    using value_members_ind; cbn [encode depth]; try lia.
  - apply le_n_S. induction IH as [|x l Hx _ IHl]; cbn [map fold_right]; [lia|].
    pose proof (depth_pos x).
    destruct (tagged x); cbn [depth]; lia.
  - apply le_n_S. induction IH as [|[k x] l Hx _ IHl]; cbn [map fold_right snd] in *; [lia|].
    pose proof (depth_pos x).
    destruct (tagged x); cbn [depth]; lia.
Qed.

Lemma replace_member_plain (tj : TJ) (x : value) :
  json_tree plain_scalar x -> replace_member tj (replacers activated) x = Ok x.
Proof.
  destruct x as [| |b|n|z|s|elems|props|src fl|t|ents|mems]; cbn [json_tree];
    try contradiction; try reflexivity.
  destruct n; [contradiction|]. now intros [_ H].
Qed.

Lemma replacer_plain (tj : TJ) (key : string) (v : value) :
  json_tree plain_scalar v ->
  replacer tj activated key v = Ok (encode_members (fun _ => None) v).
Proof.
  rewrite encode_members_nothing.
  destruct v as [| |b|n|z|s|elems|props|src fl|t|ents|mems]; cbn [json_tree];
    try contradiction; intros H; try reflexivity; unfold replacer; cbn [typeof_object].
  - assert (E : replace_elems tj (replacers activated) elems = Ok elems).
    { induction elems as [|x l IH]; [reflexivity|]. destruct H as [Hx Hl].
      cbn [replace_elems]. now rewrite (replace_member_plain tj x Hx), (IH Hl). }
    now rewrite E.
  - destruct H as [_ H].
    assert (E : replace_props tj (replacers activated) props = Ok props).
    { induction props as [|[k x] l IH]; [reflexivity|]. destruct H as [Hx Hl].
      cbn [replace_props]. now rewrite (replace_member_plain tj x Hx), (IH Hl). }
    now rewrite E.
Qed.

(** X26: After [activateStandards()], [stringify] called again on the object or
    array it has changed returns the same text and changes nothing more. *)
Theorem stringify_again (v : value) (fuel : nat) :
  tree_of encodable_leaf v ->
  std_tagged_member v = None ->
  (depth v < fuel)%nat ->
  exists text after,
    stringify activated fuel v VUndefined = Ok (VString text, after)
    /\ stringify activated fuel after VUndefined = Ok (VString text, after).
Proof.
  intros Htree Hnone Hfuel. destruct fuel as [|f]; [lia|].
  exists (json_text (encode std_tagged_member v)), (encode std_tagged_member v). split.
  - apply tj_stringify_typed; (assumption || lia).
  - rewrite stringify_S. unfold JSON.stringify. cbn [JSON.gap_of].
    rewrite (serialize_encode (fun _ => None) plain_scalar).
    + now rewrite encode_nothing.
    + intros key x Hx. now apply replacer_plain.
    + reflexivity.
    + now apply encode_typed_tree.
    + pose proof (depth_encode std_tagged_member v). lia.
Qed.

Lemma stringify_again_witness :
  exists text after,
    stringify activated 4 typed_sample VUndefined = Ok (VString text, after)
    /\ stringify activated 4 after VUndefined = Ok (VString text, after).
Proof.
  apply (stringify_again typed_sample 4).
  - unfold typed_sample. cbn [tree_of fold_right].
    unfold encodable_leaf, safe_integer, MAX_SAFE_INTEGER, valid_time, max_time.
    repeat split; try reflexivity; try lia.
  - reflexivity.
  - cbn. lia.
Defined.

(** ** Instances *)

Lemma find_first_replacer_entry_witness :
  (exists i,
     find (AVal (VString "(03)")) activated
     = (Ok (Some (Z.of_nat i, Z.of_nat i)), activated)
     /\ nth_error (replacer_tags activated) i = Some "(03)"%string
     /\ ~ In "(03)"%string (firstn i (replacer_tags activated)))
  /\ find (AVal (VString "(99)")) activated = (Ok None, activated).
Proof.
  split.
  - apply (proj1 (find_first_replacer_entry "(03)" activated)). simpl. auto 10.
  - apply (proj2 (find_first_replacer_entry "(99)" activated)).
    simpl. intros [H|[H|[H|[H|[H|[H|[]]]]]]]; discriminate H.
Defined.

Lemma remove_changes_nothing_witness :
  remove (AVal (VString "(01)")) activated = (Ok tt, activated).
Proof.
  apply (proj2 (remove_changes_nothing activated) "(01)"). simpl. auto 10.
Defined.

Lemma reviver_leaves_alone_witness :
  reviver (snd (TJSON activated 0)) activated "a" (VString "(00)0") = Ok (VString "(00)0").
Proof.
  apply (proj2 (reviver_leaves_alone (snd (TJSON activated 0)) activated "a") "(00)0").
  apply Forall_cons; [right; exists (VNumber (Int 0)); split; reflexivity|].
  repeat (apply Forall_cons; [left; reflexivity|]). apply Forall_nil.
Defined.

